(** * Mathy: convert_images_to_pdf.py

    A shallow embedding of [src/convert_images_to_pdf.py] and the proofs of
    the properties its specification states.

    Conventions of the embedding.
    - Python [int] is [Z]; [//] and [%] are [Z.div] and [Z.modulo] (both
      round towards minus infinity and follow the sign of the divisor, as
      Python does).
    - Python [float] is IEEE 754 binary64, given by the Standard Library's
      [spec_float] at precision 53 and maximal exponent 1024.
    - Python [str] is [string]. The pipeline is embedded for ASCII text
      (code points below 128): there [\d], [str.isdigit] and [int] see the
      digits 0-9 only and [str.lower] folds A-Z only. [natural_sort_key]
      and the sort by name are given a second time, in the module
      [Latin1], for texts of all code points below 256, where
      [str.isdigit] and [int] part and the key is not always defined.
    - An exception is a value of [exn]; a computation that may raise returns
      a [result]; a computation that also touches the file system or the
      terminal is a function from [World] to a result and the new [World]
      (the effects made before an exception stay).
    - Paths are not normalised: [..], [.], repeated separators and symbolic
      links are outside the embedding.
    - The file system has no permissions, quotas or device errors: an
      operation on a file fails only for the reasons its definition
      writes out. *)

From Stdlib Require Import ZArith Lia Bool Ascii String List.
From Stdlib Require Import Floats.SpecFloat.
From stdpp Require Import base option list gmap strings fin_maps.

Local Open Scope Z_scope.

(* ===================================================================== *)
(** * Python values and exceptions                                        *)
(* ===================================================================== *)

Module Py.

Inductive exn : Type :=
| ZeroDivisionError
| OverflowError
| ValueError
| TypeError
| FileNotFoundError
| IsADirectoryError
| NotADirectoryError
| UnidentifiedImageError
| PdfReadError.

Inductive result (A : Type) : Type :=
| Ok (a : A)
| Raise (e : exn).
Arguments Ok {A} a.
Arguments Raise {A} e.

Definition bind {A B} (r : result A) (k : A -> result B) : result B :=
  match r with
  | Ok a => k a
  | Raise e => Raise e
  end.

End Py.
Import Py.

Declare Scope py_scope.
Delimit Scope py_scope with py.
Notation "'let?' x ':=' r 'in' k" := (Py.bind r (fun x => k))
  (at level 10, x pattern, r at level 100, k at level 200) : py_scope.
Local Open Scope py_scope.

(* ===================================================================== *)
(** * Strings                                                             *)
(* ===================================================================== *)

Module PyStr.

Definition code (c : ascii) : N := N_of_ascii c.

(** [\d] and the per-character test of [str.isdigit], on ASCII. *)
Definition is_digit (c : ascii) : bool :=
  (48 <=? code c)%N && (code c <=? 57)%N.

Definition is_upper (c : ascii) : bool :=
  (65 <=? code c)%N && (code c <=? 90)%N.

Definition lower_char (c : ascii) : ascii :=
  if is_upper c then ascii_of_N (code c + 32) else c.

(** [s.lower()] *)
Fixpoint lower (s : string) : string :=
  match s with
  | EmptyString => EmptyString
  | String c s' => String (lower_char c) (lower s')
  end.

Fixpoint all_digits (s : string) : bool :=
  match s with
  | EmptyString => true
  | String c s' => is_digit c && all_digits s'
  end.

(** [s.isdigit()]: every character is a digit and there is at least one. *)
Definition isdigit (s : string) : bool :=
  match s with
  | EmptyString => false
  | String _ _ => all_digits s
  end.

Definition digit_val (c : ascii) : Z := Z.of_N (code c) - 48.

Fixpoint int_acc (acc : Z) (s : string) : Z :=
  match s with
  | EmptyString => acc
  | String c s' => int_acc (10 * acc + digit_val c) s'
  end.

(** [int(s)] for a string of decimal digits. *)
Definition int_of_digits (s : string) : Z := int_acc 0 s.

(** [s.endswith(suf)]: [s] is [suf], or what follows its first character
    ends with [suf]. *)
Fixpoint endswith (s suf : string) : bool :=
  String.eqb s suf ||
  match s with
  | EmptyString => false
  | String _ s' => endswith s' suf
  end.

(** [s.endswith((suf1, suf2, ...))] *)
Definition endswith_any (s : string) (sufs : list string) : bool :=
  existsb (endswith s) sufs.

Definition startswith (s pre : string) : bool := String.prefix pre s.

Definition digit_char (d : Z) : ascii := ascii_of_N (Z.to_N (48 + d)).

(** The decimal digits of a non-negative number, most significant first.
    [fuel] bounds the number of digits. *)
Fixpoint digits_fuel (fuel : nat) (n : Z) (acc : string) : string :=
  match fuel with
  | O => acc
  | S fuel' =>
      let acc' := String (digit_char (n mod 10)) acc in
      if n / 10 =? 0 then acc' else digits_fuel fuel' (n / 10) acc'
  end.

(** [str(n)], also what an f-string writes for [{n}]. A number below
    [2^k] has at most [k] decimal digits, which gives the fuel. *)
Definition str_of_int (n : Z) : string :=
  let a := Z.abs n in
  let ds := digits_fuel (S (Z.to_nat (Z.log2 a))) a EmptyString in
  if n <? 0 then String "-"%char ds else ds.

End PyStr.
Import PyStr.

(* ===================================================================== *)
(** * natural_sort_key                                                    *)
(* ===================================================================== *)

(** [re.split('(\d+)', s)]: the pieces of [s] between the maximal digit
    runs, with the runs themselves (the group is capturing) in between. The
    result always starts and ends with a piece of text, possibly empty:
    [text0; run1; text1; ...; runN; textN]. *)
Fixpoint re_split_digits (s : string) : list string :=
  match s with
  | EmptyString => [EmptyString]
  | String c s' =>
      let r := re_split_digits s' in
      if is_digit c then
        match s', r with
        | String c' _, _ :: run :: rest =>
            if is_digit c'
            then EmptyString :: String c run :: rest
            else EmptyString :: String c EmptyString :: r
        | _, _ => EmptyString :: String c EmptyString :: r
        end
      else
        match r with
        | text :: rest => String c text :: rest
        | [] => [String c EmptyString]
        end
  end.

(** An element of a key: [int(text)] or [text.lower()]. *)
Inductive token : Type :=
| TInt (n : Z)
| TStr (s : string).

Definition token_of (text : string) : token :=
  if isdigit text then TInt (int_of_digits text) else TStr (lower text).

(**
<<
def natural_sort_key(s):
    return [int(text) if text.isdigit() else text.lower()
            for text in re.split('(\d+)', s)]
>> *)
Definition natural_sort_key (s : string) : list token :=
  map token_of (re_split_digits s).

(** [x == y] on the elements of a key: an [int] never equals a [str]. *)
Definition token_eqb (x y : token) : bool :=
  match x, y with
  | TInt a, TInt b => a =? b
  | TStr a, TStr b => String.eqb a b
  | _, _ => false
  end.

(** [x < y] on the elements of a key; [int] against [str] raises
    [TypeError]. Strings compare by code point, lexicographically. *)
Definition token_lt (x y : token) : result bool :=
  match x, y with
  | TInt a, TInt b => Ok (a <? b)
  | TStr a, TStr b => Ok (String.ltb a b)
  | _, _ => Raise TypeError
  end.

(** [a < b] on lists: the first position where the elements are not equal
    decides; if there is none the shorter list is the smaller. *)
Fixpoint key_lt (a b : list token) : result bool :=
  match a, b with
  | [], [] => Ok false
  | [], _ :: _ => Ok true
  | _ :: _, [] => Ok false
  | x :: a', y :: b' =>
      if token_eqb x y then key_lt a' b' else token_lt x y
  end.


(* ===================================================================== *)
(** * Numbers: int and float                                              *)
(* ===================================================================== *)

Module PyNum.

Definition prec : Z := 53.
Definition emax : Z := 1024.

(** [a // b] *)
Definition floordiv (a b : Z) : result Z :=
  if b =? 0 then Raise ZeroDivisionError else Ok (a / b).

(** [a % b] *)
Definition mod_ (a b : Z) : result Z :=
  if b =? 0 then Raise ZeroDivisionError else Ok (a mod b).

Definition is_finite (f : spec_float) : bool :=
  match f with
  | S754_zero _ | S754_finite _ _ _ => true
  | S754_infinity _ | S754_nan => false
  end.

Definition is_zero (f : spec_float) : bool :=
  match f with
  | S754_zero _ => true
  | _ => false
  end.

(** An integer as an exact, not yet rounded, floating-point datum. *)
Definition exact_of_int (n : Z) : spec_float :=
  match n with
  | Z0 => S754_zero false
  | Zpos p => S754_finite false p 0
  | Zneg p => S754_finite true p 0
  end.

(** [float(n)]: the nearest double, ties to even; too large an integer
    raises [OverflowError]. *)
Definition float_of_int (n : Z) : result spec_float :=
  let f := binary_normalize prec emax n 0 false in
  if is_finite f then Ok f else Raise OverflowError.

(** [a / b] on two integers: the correctly rounded quotient. *)
Definition int_truediv (a b : Z) : result spec_float :=
  if b =? 0 then Raise ZeroDivisionError
  else
    let f := SFdiv prec emax (exact_of_int a) (exact_of_int b) in
    if is_finite f then Ok f else Raise OverflowError.

(** [x / y] on two floats. *)
Definition float_truediv (x y : spec_float) : result spec_float :=
  if is_zero y then Raise ZeroDivisionError else Ok (SFdiv prec emax x y).

(** [n / y], an integer by a float. *)
Definition int_div_float (n : Z) (y : spec_float) : result spec_float :=
  let? x := float_of_int n in float_truediv x y.

(** [n * y], an integer by a float. *)
Definition int_mul_float (n : Z) (y : spec_float) : result spec_float :=
  let? x := float_of_int n in Ok (SFmul prec emax x y).

(** [x > y] on two floats. *)
Definition float_gt (x y : spec_float) : bool := SFltb y x.

(** The integer nearest to [m / 2^k], ties to the even one. *)
Definition round_half_even (m : Z) (k : Z) : Z :=
  let d := 2 ^ k in
  let q := m / d in
  let r := m mod d in
  match 2 * r ?= d with
  | Lt => q
  | Gt => q + 1
  | Eq => if Z.even q then q else q + 1
  end.

(** [round(x)] of a float, without [ndigits]. *)
Definition round (x : spec_float) : result Z :=
  match x with
  | S754_nan => Raise ValueError
  | S754_infinity _ => Raise OverflowError
  | S754_zero _ => Ok 0
  | S754_finite s m e =>
      let a := if 0 <=? e then Zpos m * 2 ^ e else round_half_even (Zpos m) (- e) in
      Ok (if s then - a else a)
  end.

(** [int(x)] of a float: truncation towards zero. *)
Definition int_of_float (x : spec_float) : result Z :=
  match x with
  | S754_nan => Raise ValueError
  | S754_infinity _ => Raise OverflowError
  | S754_zero _ => Ok 0
  | S754_finite s m e =>
      let a := if 0 <=? e then Zpos m * 2 ^ e else Zpos m / 2 ^ (- e) in
      Ok (if s then - a else a)
  end.

(** The literal [0.02]: the double nearest to 1/50. *)
Definition float_0_02 : spec_float := S754_finite false 5764607523034235 (-58).

End PyNum.
Import PyNum.


(* ===================================================================== *)
(** * Images (PIL)                                                        *)
(* ===================================================================== *)

Module PIL.

(** An image is described by how it was made; its size follows from the
    description. Pixel data are not interpreted. *)
Inductive Image : Type :=
| Decoded (w h : Z) (pixels : string)          (* read from a file *)
| ConvertedRGB (im : Image)                    (* [im.convert("RGB")] *)
| Resized (im : Image) (w h : Z)               (* LANCZOS resampling *)
| New (w h : Z)                                (* a white RGB canvas *)
| Text (base : Image) (x y : Z) (text : string) (font_size : Z)
| Pasted (base top : Image) (x y : Z).

Fixpoint width (im : Image) : Z :=
  match im with
  | Decoded w _ _ => w
  | ConvertedRGB im' => width im'
  | Resized _ w _ => w
  | New w _ => w
  | Text base _ _ _ _ => width base
  | Pasted base _ _ _ => width base
  end.

Fixpoint height (im : Image) : Z :=
  match im with
  | Decoded _ h _ => h
  | ConvertedRGB im' => height im'
  | Resized _ _ h => h
  | New _ h => h
  | Text base _ _ _ _ => height base
  | Pasted base _ _ _ => height base
  end.

Definition size (im : Image) : Z * Z := (width im, height im).

(** [Image.new('RGB', size, (255, 255, 255))] *)
Definition new (size : Z * Z) : result Image :=
  if (fst size <? 0) || (snd size <? 0) then Raise ValueError
  else Ok (New (fst size) (snd size)).

(** [image.resize(size, Image.Resampling.LANCZOS)]: a request for the
    size the image already has returns a copy; otherwise both sides must
    be at least one pixel. *)
Definition resize (im : Image) (size : Z * Z) : result Image :=
  if (fst size =? width im) && (snd size =? height im) then Ok im
  else if (fst size <? 1) || (snd size <? 1) then Raise ValueError
  else Ok (Resized im (fst size) (snd size)).

(** [canvas.paste(im, (x, y))]; the part that falls outside is clipped. *)
Definition paste (canvas im : Image) (pos : Z * Z) : Image :=
  Pasted canvas im (fst pos) (snd pos).

(** [ImageDraw.Draw(canvas).text(pos, text, fill=(0, 0, 0), font=font)] *)
Definition draw_text (canvas : Image) (pos : Z * Z) (text : string)
    (font_size : Z) : Image :=
  Text canvas (fst pos) (snd pos) text font_size.

(** The fonts of the machine: [getbbox size text] is what
    [font.getbbox(text)] returns, (left, top, right, bottom), for the font
    that [ImageFont.truetype("arial.ttf", size)] or, when that file is
    missing, [ImageFont.load_default()] gives. Getting the font is taken
    to succeed, also at a size of 0 or less, which newer versions of
    Pillow refuse with [ValueError]; the box is taken to be made of
    integers. *)
Record Fonts : Type := { getbbox : Z -> string -> Z * Z * Z * Z }.

End PIL.
Import PIL.

(** [A4_PAGE_SIZE = (595, 842)] *)
Definition A4_PAGE_SIZE : Z * Z := (595, 842).

(** The truth value of [label] in [if label:]. *)
Definition truthy (label : option string) : bool :=
  match label with
  | None => false
  | Some EmptyString => false
  | Some (String _ _) => true
  end.

Section Compositor.

Variable fonts : Fonts.

(** Lines 21-33: the font size and the height kept for the label. *)
Definition font_size_of (page_size : Z * Z) : result Z :=
  let? x := int_mul_float (snd page_size) float_0_02 in int_of_float x.

Definition label_height_of (font_size : Z) (label : option string) : Z :=
  match label with
  | Some text =>
      if truthy label then
        let '(_, top, _, bottom) := getbbox fonts font_size text in
        (bottom - top) + 5
      else 0
  | None => 0
  end.

(** Lines 18-44: [(new_width, new_height)], the size asked of [resize]. *)
Definition new_size (image : Image) (page_size : Z * Z) (margin : Z)
    (label : option string) : result (Z * Z) :=
  let? img_ratio := int_truediv (width image) (height image) in
  let? page_ratio := int_truediv (fst page_size) (snd page_size) in
  let? font_size := font_size_of page_size in
  let label_height := label_height_of font_size label in
  let usable_width := fst page_size - 2 * margin in
  let usable_height := snd page_size - 2 * margin - label_height in
  if float_gt img_ratio page_ratio then
    let? q := int_div_float usable_width img_ratio in
    let? new_height := round q in
    Ok (usable_width, new_height)
  else
    let? p := int_mul_float usable_height img_ratio in
    let? new_width := round p in
    Ok (new_width, usable_height).

(** Lines 15-68. *)
Definition resize_and_align_image (image : Image) (page_size : Z * Z)
    (margin : Z) (label : option string) : result Image :=
  let? (new_width, new_height) := new_size image page_size margin label in
  let? font_size := font_size_of page_size in
  let label_height := label_height_of font_size label in
  let? resized_image := PIL.resize image (new_width, new_height) in
  let? canvas := PIL.new page_size in
  let canvas :=
    match label with
    | Some text =>
        if truthy label then draw_text canvas (margin, margin) text font_size
        else canvas
    | None => canvas
    end in
  let label_height := if truthy label then label_height else 0 in
  let paste_position :=
    ((fst page_size - new_width) / 2, margin + label_height) in
  Ok (paste canvas resized_image paste_position).

End Compositor.

(* ===================================================================== *)
(** * The file system and the terminal                                    *)
(* ===================================================================== *)

Module OS.

Inductive body : Type :=
| ImageData (im : Image)            (* a file an image codec can read *)
| PdfData (pages : list Image)      (* a PDF document, one image a page *)
| OtherData.                        (* anything else *)

Inductive node : Type :=
| Dir (ctime : Z)
| File (ctime : Z) (content : body).

Definition node_ctime (n : node) : Z :=
  match n with Dir t => t | File t _ => t end.

(** What the program changed on disk, in order. *)
Inductive event : Type :=
| Wrote (path : string)
| Removed (path : string).

(** [fs] is keyed by absolute path. [clock] stamps the files written. *)
Record World : Type := {
  fs : gmap string node;
  cwd : string;
  clock : Z;
  stdout : list string;
  trace : list event
}.

Definition M (A : Type) : Type := World -> result A * World.

Definition ret {A} (a : A) : M A := fun w => (Ok a, w).
Definition raise {A} (e : exn) : M A := fun w => (Raise e, w).
Definition lift {A} (r : result A) : M A := fun w => (r, w).

Definition mbind {A B} (m : M A) (k : A -> M B) : M B :=
  fun w =>
    match m w with
    | (Ok a, w') => k a w'
    | (Raise e, w') => (Raise e, w')
    end.

Definition set_fs (f : gmap string node -> gmap string node) (w : World) : World :=
  {| fs := f (fs w); cwd := cwd w; clock := clock w;
     stdout := stdout w; trace := trace w |}.

Definition log (ev : event) (w : World) : World :=
  {| fs := fs w; cwd := cwd w; clock := clock w;
     stdout := stdout w; trace := trace w ++ [ev] |}.

(** [print(line)] *)
Definition print (line : string) : M unit :=
  fun w => (Ok tt,
            {| fs := fs w; cwd := cwd w; clock := clock w;
               stdout := stdout w ++ [line]; trace := trace w |}).

Definition sep : string := "/".

(** [os.path.join(a, b)] *)
Definition join (a b : string) : string :=
  if startswith b sep then b
  else
    match a with
    | EmptyString => b
    | String _ _ => if endswith a sep then a +:+ b else a +:+ sep +:+ b
    end.

(** The absolute path the system uses for [path]: a relative path is
    taken from the working directory, the empty path names nothing. *)
Definition resolve (w : World) (path : string) : result string :=
  match path with
  | EmptyString => Raise FileNotFoundError
  | String _ _ => Ok (if startswith path sep then path else join (cwd w) path)
  end.

Fixpoint has_sep (s : string) : bool :=
  match s with
  | EmptyString => false
  | String c s' => Ascii.eqb c "/"%char || has_sep s'
  end.

(** [strip_prefix pre s] is [Some rest] when [s = pre ++ rest]. *)
Fixpoint strip_prefix (pre s : string) : option string :=
  match pre, s with
  | EmptyString, _ => Some s
  | String a pre', String b s' =>
      if Ascii.eqb a b then strip_prefix pre' s' else None
  | String _ _, EmptyString => None
  end.

(** The name of [key] inside the directory [d], if it is directly there. *)
Definition child_name (d : string) (key : string) : option string :=
  match strip_prefix (join d EmptyString) key with
  | Some (String c rest) =>
      if has_sep (String c rest) then None else Some (String c rest)
  | _ => None
  end.

(** [os.listdir(path)]; the order of the names is the system's. *)
Definition listdir (path : string) : M (list string) :=
  fun w =>
    match resolve w path with
    | Raise e => (Raise e, w)
    | Ok d =>
        match fs w !! d with
        | None => (Raise FileNotFoundError, w)
        | Some (File _ _) => (Raise NotADirectoryError, w)
        | Some (Dir _) =>
            (Ok (omap (fun kv => child_name d (fst kv)) (map_to_list (fs w))), w)
        end
    end.

(** [os.path.getctime(path)] *)
Definition getctime (path : string) : M Z :=
  fun w =>
    match resolve w path with
    | Raise e => (Raise e, w)
    | Ok p =>
        match fs w !! p with
        | None => (Raise FileNotFoundError, w)
        | Some n => (Ok (node_ctime n), w)
        end
    end.

(** Open [path] for writing and put [content] there. The directory the
    file goes to is taken to exist. *)
Definition write_file (path : string) (content : body) : M unit :=
  fun w =>
    match resolve w path with
    | Raise e => (Raise e, w)
    | Ok p =>
        match fs w !! p with
        | Some (Dir _) => (Raise IsADirectoryError, w)
        | _ => (Ok tt, log (Wrote p) (set_fs (insert p (File (clock w) content)) w))
        end
    end.

Definition read_file (path : string) : M body :=
  fun w =>
    match resolve w path with
    | Raise e => (Raise e, w)
    | Ok p =>
        match fs w !! p with
        | None => (Raise FileNotFoundError, w)
        | Some (Dir _) => (Raise IsADirectoryError, w)
        | Some (File _ content) => (Ok content, w)
        end
    end.

(** [os.remove(path)] *)
Definition remove (path : string) : M unit :=
  fun w =>
    match resolve w path with
    | Raise e => (Raise e, w)
    | Ok p =>
        match fs w !! p with
        | None => (Raise FileNotFoundError, w)
        | Some (Dir _) => (Raise IsADirectoryError, w)
        | Some (File _ _) => (Ok tt, log (Removed p) (set_fs (delete p) w))
        end
    end.

(** [Image.open(path)] *)
Definition image_open (path : string) : M Image :=
  mbind (read_file path) (fun content =>
    match content with
    | ImageData im => ret im
    | _ => raise UnidentifiedImageError
    end).

(** [canvas.save(path, "PDF", quality=95)]: a PDF of one page. *)
Definition save_pdf (canvas : Image) (path : string) : M unit :=
  write_file path (PdfData [canvas]).

(** The pages [PdfMerger.append(path)] takes from the file at [path]. *)
Definition read_pdf (path : string) : M (list Image) :=
  mbind (read_file path) (fun content =>
    match content with
    | PdfData pages => ret pages
    | _ => raise PdfReadError
    end).

(** A [for] loop over a list, the body run for its effects. *)
Fixpoint for_each {A} (l : list A) (f : A -> M unit) : M unit :=
  match l with
  | [] => ret tt
  | x :: l' => mbind (f x) (fun _ => for_each l' f)
  end.

(** A [for] loop over a list that updates local variables [S]. *)
Fixpoint for_fold {A S} (l : list A) (f : S -> A -> M S) (s : S) : M S :=
  match l with
  | [] => ret s
  | x :: l' => mbind (f s x) (fun s' => for_fold l' f s')
  end.

(** A list comprehension with an effectful element. *)
Fixpoint map_m {A B} (f : A -> M B) (l : list A) : M (list B) :=
  match l with
  | [] => ret []
  | x :: l' => mbind (f x) (fun y => mbind (map_m f l') (fun ys => ret (y :: ys)))
  end.

End OS.
Import OS.

Notation "'let!' x ':=' m 'in' k" := (OS.mbind m (fun x => k))
  (at level 10, x pattern, m at level 100, k at level 200) : py_scope.

(* ===================================================================== *)
(** * list.sort(key=...)                                                  *)
(* ===================================================================== *)

Section Sort.

Context {K A : Type}.
Variable lt : K -> K -> result bool.

(** [x] goes after the elements that are smaller than it and before the
    first that is not, so elements with equal keys keep their order. *)
Fixpoint insert_sorted (x : K * A) (l : list (K * A)) : result (list (K * A)) :=
  match l with
  | [] => Ok [x]
  | y :: l' =>
      let? b := lt (fst y) (fst x) in
      if b then let? r := insert_sorted x l' in Ok (y :: r)
      else Ok (x :: y :: l')
  end.

(** The stable sort of the decorated list. [list.sort] is stable, so on
    keys that [lt] orders it returns this list, though it does not make
    the same comparisons. *)
Fixpoint sort_decorated (l : list (K * A)) : result (list (K * A)) :=
  match l with
  | [] => Ok []
  | x :: l' => let? r := sort_decorated l' in insert_sorted x r
  end.

Definition sort_by_key (keys : list K) (l : list A) : result (list A) :=
  let? r := sort_decorated (combine keys l) in Ok (map snd r).

End Sort.

Definition int_lt (a b : Z) : result bool := Ok (a <? b).

(* ===================================================================== *)
(** * images_to_pdf                                                       *)
(* ===================================================================== *)

Definition IMAGE_EXTENSIONS : list string :=
  [".png"; ".jpg"; ".jpeg"; ".bmp"; ".gif"; ".tiff"].

(** [f.lower().endswith((".png", ".jpg", ".jpeg", ".bmp", ".gif", ".tiff"))] *)
Definition is_image_name (f : string) : bool :=
  endswith_any (lower f) IMAGE_EXTENSIONS.

(** [enumerate(l)] *)
Definition enumerate {A} (l : list A) : list (Z * A) :=
  combine (map Z.of_nat (seq 0 (length l))) l.

(** [range(a, b)] *)
Definition range (a b : Z) : list Z :=
  map (fun k => a + Z.of_nat k) (seq 0 (Z.to_nat (b - a))).

Definition temp_pdf_name (page_number : Z) : string :=
  "temp_page_" +:+ str_of_int page_number +:+ ".pdf".

Definition question_label (image_counter : Z) : string :=
  "Question " +:+ str_of_int image_counter.

(** The local variables the main loop updates. [pdf_merger] holds the pages
    appended so far. *)
Record loop_vars : Type := {
  current_images : list Image;
  page_number : Z;
  image_counter : Z;
  pdf_merger : list Image
}.

(** Lines 131-135: the cells pasted one below the other on a blank page. *)
Definition assemble_page (cells : list Image) (per_image_page_height : Z) : Image :=
  fst (fold_left
         (fun acc combined_img =>
            (paste (fst acc) combined_img (0, snd acc),
             snd acc + per_image_page_height))
         cells
         (New (fst A4_PAGE_SIZE) (snd A4_PAGE_SIZE), 0)).

Section Pipeline.

Variable fonts : Fonts.

Variable directory : string.
Variable images_per_page : Z.
Variable delete_images : bool.
Variable margin : Z.
Variable label_images : bool.
Variable sort_by_time : bool.

(** Lines 89-93. *)
Definition sort_images (images : list string) : M (list string) :=
  if sort_by_time then
    let! keys := map_m (fun x => getctime (join directory x)) images in
    lift (sort_by_key int_lt keys images)
  else
    lift (sort_by_key key_lt (map natural_sort_key images) images).

(** Lines 109-142: one turn of the loop, for the [i]-th of [n] images. *)
Definition loop_body (n : Z) (per_image_page_height : Z)
    (v : loop_vars) (item : Z * string) : M loop_vars :=
  let i := fst item in
  let img_file := snd item in
  let per_image_page_size := (fst A4_PAGE_SIZE, per_image_page_height) in
  let img_path := join directory img_file in
  let! img := image_open img_path in
  let img := ConvertedRGB img in
  let label :=
    if label_images then Some (question_label (image_counter v)) else None in
  let! cell := lift (resize_and_align_image fonts img per_image_page_size margin label) in
  let cells := current_images v ++ [cell] in
  let counter := image_counter v + 1 in
  let! r := lift (mod_ (i + 1) images_per_page) in
  if (r =? 0) || (i =? n - 1) then
    let page_canvas := assemble_page cells per_image_page_height in
    let temp_pdf := temp_pdf_name (page_number v) in
    let! _ := save_pdf page_canvas temp_pdf in
    let! pages := read_pdf temp_pdf in
    ret {| current_images := [];
           page_number := page_number v + 1;
           image_counter := counter;
           pdf_merger := pdf_merger v ++ pages |}
  else
    ret {| current_images := cells;
           page_number := page_number v;
           image_counter := counter;
           pdf_merger := pdf_merger v |}.

Definition initial_vars : loop_vars :=
  {| current_images := []; page_number := 1; image_counter := 1; pdf_merger := [] |}.

Definition output_pdf_path : string := join directory "combined_output.pdf".

(** Lines 95-159, for a list of images that is not empty. *)
Definition convert (images : list string) : M unit :=
  let! images := sort_images images in
  let! per_image_page_height := lift (floordiv (snd A4_PAGE_SIZE) images_per_page) in
  let! v := for_fold (enumerate images)
                     (loop_body (Z.of_nat (length images)) per_image_page_height)
                     initial_vars in
  let output_pdf := output_pdf_path in
  let! _ := write_file output_pdf (PdfData (pdf_merger v)) in
  let! _ := for_each (range 1 (page_number v)) (fun i => remove (temp_pdf_name i)) in
  let! _ := print ("PDF created successfully at: " +:+ output_pdf) in
  if delete_images then
    let! _ := for_each images (fun img_file => remove (join directory img_file)) in
    print "Original images have been deleted."
  else ret tt.

(** Lines 70-159. *)
Definition images_to_pdf : M unit :=
  let! names := listdir directory in
  let images := List.filter is_image_name names in
  match images with
  | [] => print "No images found in the directory."
  | _ :: _ => convert images
  end.

End Pipeline.


(* ===================================================================== *)
(** * Predicates used in the statements                                   *)
(* ===================================================================== *)

(** No character of [s] is a digit. *)
Fixpoint no_digits (s : string) : bool :=
  match s with
  | EmptyString => true
  | String c s' => negb (is_digit c) && no_digits s'
  end.

(** The form of a split: text, run, text, ..., run, text. *)
Fixpoint split_form (l : list string) : Prop :=
  match l with
  | [] => False
  | [text] => no_digits text = true
  | text :: run :: rest =>
      no_digits text = true /\ isdigit run = true /\ split_form rest
  end.

(** In a split [text0; run1; text1; ...; runN; textN] the texts between
    two runs are not empty: the runs are maximal. *)
Fixpoint runs_maximal (l : list string) : Prop :=
  match l with
  | _ :: _ :: rest =>
      match rest with
      | text :: _ :: _ => text <> EmptyString /\ runs_maximal rest
      | _ => True
      end
  | _ => True
  end.

(** The kinds of a key alternate, [is_text] telling whether it starts
    with text. *)
Fixpoint key_form (is_text : bool) (k : list token) : Prop :=
  match k with
  | [] => True
  | TStr _ :: k' => is_text = true /\ key_form false k'
  | TInt _ :: k' => is_text = false /\ key_form true k'
  end.

Definition starts_with_digit (s : string) : bool :=
  match s with
  | EmptyString => false
  | String c _ => is_digit c
  end.

(** Font metrics for the examples: six pixels a character, text between
    the heights 2 and 11. *)
Definition example_fonts : Fonts :=
  {| getbbox := fun _ text => (0, 2, 6 * Z.of_nat (String.length text), 11) |}.

(** Where the system puts the temporary file of a page: its name is
    relative, so it is taken from the working directory. *)
Definition temp_path (cwd : string) (page_number : Z) : string :=
  join cwd (temp_pdf_name page_number).

(** The file system after the temporary files of [pages], numbered from
    [first], were written. *)
Fixpoint put_temps (cwd : string) (t : Z) (first : Z) (pages : list Image)
    (m : gmap string node) : gmap string node :=
  match pages with
  | [] => m
  | page :: rest =>
      put_temps cwd t (first + 1) rest
        (<[temp_path cwd first := File t (PdfData [page])]> m)
  end.

(** The file system after the files at [paths] were removed. *)
Definition delete_all (paths : list string) (m : gmap string node) :
    gmap string node :=
  fold_left (fun acc p => delete p acc) paths m.

(** The cells pasted on a page, top to bottom. *)
Fixpoint page_cells (page : Image) : list Image :=
  match page with
  | Pasted base top _ _ => page_cells base ++ [top]
  | _ => []
  end.

(** The text drawn on a cell, if any. *)
Definition cell_label (cell : Image) : option string :=
  match cell with
  | Pasted (Text _ _ _ text _) _ _ _ => Some text
  | _ => None
  end.

(** Invariants of the main loop, for the list [imgs] of images in their
    order, the height [h] of a cell and the world [w0] the loop starts in. *)
Module LoopInvariants.
Section Invariants.

Variable fonts : Fonts.
Variable directory : string.
Variable images_per_page : Z.
Variable margin : Z.
Variable label_images : bool.
Variable imgs : list string.
Variable h : Z.
Variable w0 : World.

Let n := Z.of_nat (length imgs).

(** What the loop has done to the world: it wrote one temporary file for
    each page in the merger, in the working directory, and nothing else. *)
Definition world_inv (v : loop_vars) (w : World) : Prop :=
  cwd w = cwd w0 /\ clock w = clock w0 /\ stdout w = stdout w0 /\
  page_number v = 1 + Z.of_nat (length (pdf_merger v)) /\
  fs w = put_temps (cwd w0) (clock w0) 1 (pdf_merger v) (fs w0) /\
  trace w = trace w0 ++
            map (fun q => Wrote (temp_path (cwd w0) q)) (range 1 (page_number v)).

(** The label that goes with the [j]-th image, counted from 0. *)
Definition label_at (j : nat) : option string :=
  if label_images then Some (question_label (1 + Z.of_nat j)) else None.

(** [cell] is the [j]-th image of the list, composited with its label. *)
Definition composited (j : nat) (cell : Image) : Prop :=
  exists f p t img,
    imgs !! j = Some f /\
    resolve w0 (join directory f) = Ok p /\
    fs w0 !! p = Some (File t (ImageData img)) /\
    resize_and_align_image fonts (ConvertedRGB img) (fst A4_PAGE_SIZE, h) margin
      (label_at j) = Ok cell.

Definition cells_so_far (v : loop_vars) : list Image :=
  concat (map page_cells (pdf_merger v)) ++ current_images v.

(** After [i] images: the counter is [i + 1] and the cells made so far,
    those on the pages in the merger and those waiting, are the first [i]
    images composited in order. *)
Definition cells_inv (i : nat) (v : loop_vars) : Prop :=
  image_counter v = 1 + Z.of_nat i /\
  length (cells_so_far v) = i /\
  forall j cell, cells_so_far v !! j = Some cell -> composited j cell.

(** After [i] images: every page in the merger holds [images_per_page]
    cells, except that the last page of the run holds what is left. *)
Definition count_inv (i : nat) (v : loop_vars) : Prop :=
  let k := images_per_page in
  let P := Z.of_nat (length (pdf_merger v)) in
  let c := Z.of_nat (length (current_images v)) in
  (forall idx page,
      pdf_merger v !! idx = Some page ->
      Z.of_nat (length (page_cells page)) = Z.min k (n - k * Z.of_nat idx)) /\
  ((Z.of_nat i < n /\ P * k + c = Z.of_nat i /\ c < k) \/
   (Z.of_nat i = n /\ c = 0 /\ (P - 1) * k < n <= P * k)).

End Invariants.
End LoopInvariants.

(** The files a run for the target [directory], started in the world [w0],
    may write or remove. Written: a temporary file, taken from the working
    directory, or the output file. Removed: a temporary file, or the file
    of a name that the listing of the target directory returns and that is
    recognized as an image (such a name holds no separator, so the file is
    a direct entry of the target directory). *)
Definition run_event (directory : string) (w0 : World) (ev : event) : Prop :=
  match ev with
  | Wrote p =>
      (exists q, p = temp_path (cwd w0) q) \/
      resolve w0 (output_pdf_path directory) = Ok p
  | Removed p =>
      (exists q, p = temp_path (cwd w0) q) \/
      (exists names f,
          fst (listdir directory w0) = Ok names /\ In f names /\
          is_image_name f = true /\
          resolve w0 (join directory f) = Ok p)
  end.

(** From [w] to [w'] the working directory stayed and the files written or
    removed all satisfy [ok]. *)
Definition extends (ok : event -> Prop) (w w' : World) : Prop :=
  cwd w' = cwd w /\
  exists evs, trace w' = trace w ++ evs /\ Forall ok evs.

(** Whatever its outcome, [m] only writes and removes files that satisfy
    [ok], when run with the working directory of [w0]. *)
Definition respects {A} (ok : event -> Prop) (w0 : World) (m : M A) : Prop :=
  forall w r w', cwd w = cwd w0 -> m w = (r, w') -> extends ok w w'.

(** A directory for the examples: three pictures of 100 x 200 pixels and
    a file that is not a picture in [/pics]; the working directory is
    [/home]. *)
Definition example_picture : node := File 5 (ImageData (Decoded 100 200 "px")).

Definition example_world : World :=
  {| fs := list_to_map
             [("/pics", Dir 0); ("/home", Dir 0); ("/empty", Dir 0);
              ("/pics/a10.jpg", example_picture);
              ("/pics/a1.jpg", example_picture);
              ("/pics/a2.jpg", example_picture);
              ("/pics/notes.txt", File 1 OtherData);
              ("/empty/readme.txt", File 1 OtherData)];
     cwd := "/home";
     clock := 100;
     stdout := [];
     trace := [] |}.

(** The same directory, with [/pics] as the working directory. *)
Definition example_world_in_pics : World :=
  {| fs := fs example_world;
     cwd := "/pics";
     clock := clock example_world;
     stdout := [];
     trace := [] |}.

(** [n] is an integer nearest to the float [x]: |n - x| <= 1/2. *)
Definition nearest_int (x : spec_float) (n : Z) : Prop :=
  match x with
  | S754_zero _ => n = 0
  | S754_finite s m e =>
      let v := if s then Z.neg m else Z.pos m in
      if 0 <=? e then n = v * 2 ^ e
      else 2 * Z.abs (n * 2 ^ (- e) - v) <= 2 ^ (- e)
  | _ => False
  end.

(* ===================================================================== *)
(** * Further predicates                                                  *)
(* ===================================================================== *)

(** In a decorated list no element has a key smaller than the key of an
    element before it. *)
Fixpoint ordered {K A} (lt : K -> K -> result bool) (l : list (K * A)) : Prop :=
  match l with
  | [] => True
  | x :: l' =>
      Forall (fun y => lt (fst y) (fst x) = Ok false) l' /\ ordered lt l'
  end.

(** The same for a list whose keys are computed by [key]. *)
Definition in_order {K A} (lt : K -> K -> result bool) (key : A -> K)
    (l : list A) : Prop :=
  forall (i j : nat) (x y : A),
    (i < j)%nat -> l !! i = Some x -> l !! j = Some y ->
    lt (key y) (key x) = Ok false.

(** The key of [x] when the images are sorted by time: what
    [os.path.getctime(os.path.join(directory, x))] returns in the world
    [w] (0 stands for a file that is not there, which makes the sort
    raise). *)
Definition ctime_key (directory : string) (w : World) (x : string) : Z :=
  match fst (getctime (join directory x) w) with
  | Ok t => t
  | Raise _ => 0
  end.

(** The images pasted on a canvas, first pasted first, each with the
    position of its upper left corner. *)
Fixpoint pasted_layers (page : Image) : list (Image * (Z * Z)) :=
  match page with
  | Pasted base top x y => pasted_layers base ++ [(top, (x, y))]
  | _ => []
  end.

(** The canvas that the images were pasted on. *)
Fixpoint canvas_of (page : Image) : Image :=
  match page with
  | Pasted base _ _ _ => canvas_of base
  | _ => page
  end.

(** Cells put one below the other from the height [y] on, [h] apart. *)
Fixpoint stacked (cells : list Image) (y h : Z) : list (Image * (Z * Z)) :=
  match cells with
  | [] => []
  | c :: rest => (c, (0, y)) :: stacked rest (y + h) h
  end.

(** What a run that raised has done: it wrote the temporary files of the
    pages it had made, and nothing else. *)
Definition stopped (w w' : World) : Prop :=
  exists pages,
    cwd w' = cwd w /\ clock w' = clock w /\ stdout w' = stdout w /\
    fs w' = put_temps (cwd w) (clock w) 1 pages (fs w) /\
    trace w' =
      trace w ++
      map (fun q => Wrote (temp_path (cwd w) q))
        (range 1 (1 + Z.of_nat (length pages))).

(** The run started in [w] gets through lines 79-142: the listing, the
    sort, the division and the loop over the images all end without
    raising, so that every page was made. What can still raise comes
    after: opening the output file, and the removals. *)
Definition loop_ended (fonts : Fonts) (directory : string)
    (images_per_page : Z) (margin : Z) (label_images sort_by_time : bool)
    (w : World) : Prop :=
  exists names sorted v w1,
    fst (listdir directory w) = Ok names /\
    sort_images directory sort_by_time (List.filter is_image_name names) w
      = (Ok sorted, w) /\
    images_per_page <> 0 /\
    for_fold (enumerate sorted)
      (loop_body fonts directory images_per_page margin label_images
         (Z.of_nat (length sorted)) (snd A4_PAGE_SIZE / images_per_page))
      initial_vars w = (Ok v, w1).

(** The directory of the examples with one more file in [/pics], named as
    an image, that does not hold one. *)
Definition example_world_corrupt : World :=
  {| fs := <["/pics/b.png" := File 7 OtherData]> (fs example_world);
     cwd := cwd example_world;
     clock := clock example_world;
     stdout := [];
     trace := [] |}.

(* ===================================================================== *)
(** * The command line (lines 161-227)                                    *)
(* ===================================================================== *)

(** What the user answers to the prompts of the [bullet] library: the entry
    chosen in the menu, the texts typed for the directory, for the number
    of images per page and for the margin, and the three answers by yes or
    no. A prompt that is not reached is not shown and its answer is not
    used. What the prompts themselves draw on the terminal is not part of
    [stdout], which holds the lines written by [print]. *)
Record Answers : Type := {
  choice : string;
  directory_answer : string;
  images_per_page_answer : string;
  delete_answer : bool;
  margin_answer : string;
  label_answer : bool;
  sort_answer : bool
}.

Definition cli_choices : list string :=
  ["Convert images in the current directory to PDF";
   "Specify directory and options";
   "Exit"].

(** [os.getcwd()] *)
Definition getcwd : M string := fun w => (Ok (cwd w), w).

(** [os.path.isdir(path)]: [False] also when there is no such path. *)
Definition isdir (path : string) : M bool :=
  fun w =>
    match resolve w path with
    | Ok p =>
        match fs w !! p with
        | Some (Dir _) => (Ok true, w)
        | _ => (Ok false, w)
        end
    | Raise _ => (Ok false, w)
    end.

(** The world after [lines] were printed. *)
Definition printed (lines : list string) (w : World) : World :=
  {| fs := fs w; cwd := cwd w; clock := clock w;
     stdout := stdout w ++ lines; trace := trace w |}.

Section CommandLine.

Variable fonts : Fonts.

(** [int(text)] on a text the user typed: the number, or the message of
    the [ValueError] that [int] raises. *)
Variable py_int : string -> Z + string.

(** Lines 181-187 and 198-204: the [try] block, where [raise ValueError]
    and a [ValueError] of [int] end in the same handler. [least] is the
    least value accepted, [complaint] the message of the [raise]. *)
Definition checked_int (text : string) (least : Z) (complaint : string) :
    Z + string :=
  match py_int text with
  | inl n => if n <? least then inr complaint else inl n
  | inr message => inr message
  end.

(** Lines 179-187. *)
Definition ask_images_per_page (text : string) : M Z :=
  match checked_int text 1 "Number of images per page must be at least 1." with
  | inl n => ret n
  | inr e =>
      let! _ := print ("Invalid input for images per page: " +:+ e +:+
                       ". Using default (1).") in
      ret 1
  end.

(** Lines 196-204. *)
Definition ask_margin (text : string) : M Z :=
  match checked_int text 0 "Margin size cannot be negative." with
  | inl n => ret n
  | inr e =>
      let! _ := print ("Invalid input for margin size: " +:+ e +:+
                       ". Using default (0).") in
      ret 0
  end.

(** Lines 161-227. The first entry calls [images_to_pdf] with the default
    values of its parameters. *)
Definition main (a : Answers) : M unit :=
  if String.eqb (choice a) "Convert images in the current directory to PDF"
  then
    let! d := getcwd in
    images_to_pdf fonts d 1 false 0 false false
  else if String.eqb (choice a) "Specify directory and options" then
    let directory := directory_answer a in
    let! is_dir := isdir directory in
    if negb is_dir then print "Invalid directory. Exiting."
    else
      let! images_per_page := ask_images_per_page (images_per_page_answer a) in
      let delete_images := delete_answer a in
      let! margin := ask_margin (margin_answer a) in
      let label_images := label_answer a in
      let sort_by_time := sort_answer a in
      images_to_pdf fonts directory images_per_page delete_images margin
        label_images sort_by_time
  else print "Goodbye!".

End CommandLine.

(** An [int] for the examples: a run of ASCII digits is its number, and
    any other text is refused. *)
Definition example_int (text : string) : Z + string :=
  if isdigit text then inl (int_of_digits text)
  else inr ("invalid literal for int() with base 10: '" +:+ text +:+ "'").

(* ===================================================================== *)
(** * natural_sort_key beyond ASCII (lines 10-13 and 92-93)               *)
(* ===================================================================== *)

(** The last character of [s] is one that [\d] matches. *)
Fixpoint ends_with_digit (s : string) : bool :=
  match s with
  | EmptyString => false
  | String c EmptyString => is_digit c
  | String _ s' => ends_with_digit s'
  end.

(** Every character of [s] is ASCII. *)
Fixpoint is_ascii (s : string) : bool :=
  match s with
  | EmptyString => true
  | String c s' => (code c <? 128)%N && is_ascii s'
  end.

(** The superscript two, U+00B2. *)
Definition superscript_two : ascii := "178"%char.

(** The capital A with grave accent, U+00C0, and its lower-case form,
    U+00E0. *)
Definition capital_a_grave : ascii := "192"%char.
Definition small_a_grave : ascii := "224"%char.

(** Here a character stands for the Unicode code point of its number, so
    a text is any string of code points below 256 (the Latin-1 range).
    [re.split] is as above: on a [str] pattern [\d] matches the decimal
    digits, which below 256 are 0-9 only. *)
Module Latin1.

(** [c.isdigit()]: true of the decimal digits and of the superscripts
    two, three and one (U+00B2, U+00B3, U+00B9), which are digits but not
    decimal ones. *)
Definition is_digit_char (c : ascii) : bool :=
  is_digit c ||
  (code c =? 178)%N || (code c =? 179)%N || (code c =? 185)%N.

Fixpoint all_digit_chars (s : string) : bool :=
  match s with
  | EmptyString => true
  | String c s' => is_digit_char c && all_digit_chars s'
  end.

(** [s.isdigit()] *)
Definition isdigit (s : string) : bool :=
  match s with
  | EmptyString => false
  | String _ _ => all_digit_chars s
  end.

(** [c.lower()]: the letters A-Z, and U+00C0-U+00D6 and U+00D8-U+00DE
    (capital letters with accents), have their lower-case form 32 code
    points further; every other code point below 256 stays. *)
Definition lower_char (c : ascii) : ascii :=
  let n := code c in
  if ((65 <=? n) && (n <=? 90) ||
      (192 <=? n) && (n <=? 214) ||
      (216 <=? n) && (n <=? 222))%N
  then ascii_of_N (n + 32) else c.

(** [s.lower()] *)
Fixpoint lower (s : string) : string :=
  match s with
  | EmptyString => EmptyString
  | String c s' => String (lower_char c) (lower s')
  end.

(** [int(text) if text.isdigit() else text.lower()]. A text that passes
    [isdigit] holds digit characters only (no sign, space or underscore),
    and [int] accepts it when they are all decimal; it raises [ValueError]
    on a superscript. (The limit that newer versions of Python put on the
    length of the text of a number, 4300 digits unless configured, is left
    out: a file name is far shorter.) *)
Definition token_of (text : string) : result token :=
  if isdigit text then
    if PyStr.isdigit text then Ok (TInt (int_of_digits text))
    else Raise ValueError
  else Ok (TStr (lower text)).

(** The list comprehension: the elements are computed from left to
    right, and the first exception ends it. *)
Fixpoint tokens_of (pieces : list string) : result (list token) :=
  match pieces with
  | [] => Ok []
  | text :: rest =>
      let? t := token_of text in
      let? ts := tokens_of rest in
      Ok (t :: ts)
  end.

(** Lines 10-13. *)
Definition natural_sort_key (s : string) : result (list token) :=
  tokens_of (re_split_digits s).

(** The keys of the names, computed before the list is sorted. *)
Fixpoint keys_of (images : list string) : result (list (list token)) :=
  match images with
  | [] => Ok []
  | x :: rest =>
      let? k := natural_sort_key x in
      let? ks := keys_of rest in
      Ok (k :: ks)
  end.

(** Line 93, [images.sort(key=natural_sort_key)]: the sorted list, or the
    exception that left the list as it was. *)
Definition sort_by_name (images : list string) : result (list string) :=
  let? keys := keys_of images in
  sort_by_key key_lt keys images.

(** The key of a name that has one (the empty key stands for a name that
    has none, which makes the sort raise). *)
Definition key_of (s : string) : list token :=
  match natural_sort_key s with
  | Ok k => k
  | Raise _ => []
  end.

End Latin1.
(* ===================================================================== *)
(** * Facts about strings                                                 *)
(* ===================================================================== *)

Section StringFacts.

Lemma app_cons (c : ascii) (s t : string) :
  String c s +:+ t = String c (s +:+ t).
Proof. reflexivity. Qed.

Lemma app_nil (t : string) : EmptyString +:+ t = t.
Proof. reflexivity. Qed.

Lemma ascii_compare_refl (c : ascii) : Ascii.compare c c = Eq.
Proof. unfold Ascii.compare. apply N.compare_refl. Qed.

Lemma ascii_compare_trans (a b c : ascii) :
  Ascii.compare a b = Lt -> Ascii.compare b c = Lt -> Ascii.compare a c = Lt.
Proof.
  unfold Ascii.compare. rewrite !N.compare_lt_iff. apply N.lt_trans.
Qed.

Lemma string_compare_refl (s : string) : String.compare s s = Eq.
Proof.
  induction s as [|c s IH]; simpl; [reflexivity|].
  now rewrite ascii_compare_refl.
Qed.

Lemma string_compare_trans (a b c : string) :
  String.compare a b = Lt -> String.compare b c = Lt -> String.compare a c = Lt.
Proof.
  revert b c.
  induction a as [|x a IH]; intros [|y b] [|z c]; simpl; try congruence.
  destruct (Ascii.compare x y) eqn:Hxy; try discriminate.
  - apply Ascii.compare_eq_iff in Hxy. subst y.
    destruct (Ascii.compare x z); try congruence. apply IH.
  - intros _.
    destruct (Ascii.compare y z) eqn:Hyz; try discriminate.
    + apply Ascii.compare_eq_iff in Hyz. subst z. now rewrite Hxy.
    + now rewrite (ascii_compare_trans _ _ _ Hxy Hyz).
Qed.

Lemma string_ltb_irrefl (s : string) : String.ltb s s = false.
Proof. unfold String.ltb. now rewrite string_compare_refl. Qed.

Lemma string_ltb_trans (a b c : string) :
  String.ltb a b = true -> String.ltb b c = true -> String.ltb a c = true.
Proof.
  unfold String.ltb. intros Hab Hbc.
  destruct (String.compare a b) eqn:E1; try discriminate.
  destruct (String.compare b c) eqn:E2; try discriminate.
  now rewrite (string_compare_trans _ _ _ E1 E2).
Qed.

Lemma string_ltb_cases (a b : string) :
  (String.ltb a b = true /\ String.ltb b a = false /\ a <> b) \/
  (a = b) \/
  (String.ltb b a = true /\ String.ltb a b = false /\ a <> b).
Proof.
  unfold String.ltb. rewrite (String.compare_antisym b a).
  destruct (String.compare a b) eqn:E; simpl.
  - right. left. now apply String.compare_eq_iff.
  - left. repeat split; trivial. intros ->.
    rewrite string_compare_refl in E. discriminate.
  - right. right. repeat split; trivial. intros ->.
    rewrite string_compare_refl in E. discriminate.
Qed.

Lemma is_digit_not_upper (c : ascii) : is_digit c = true -> is_upper c = false.
Proof.
  unfold is_digit, is_upper. intros H.
  apply andb_prop in H as [_ H2]. apply N.leb_le in H2.
  apply andb_false_iff. left. apply N.leb_gt. lia.
Qed.

Lemma lower_char_digit (c : ascii) : is_digit c = true -> lower_char c = c.
Proof. intros H. unfold lower_char. now rewrite (is_digit_not_upper _ H). Qed.

Lemma code_lower_upper (c : ascii) :
  is_upper c = true -> code (ascii_of_N (code c + 32)) = (code c + 32)%N.
Proof.
  unfold is_upper. intros H. apply andb_prop in H as [_ H2].
  apply N.leb_le in H2. unfold code at 1. apply N_ascii_embedding. lia.
Qed.

Lemma is_digit_lower_char (c : ascii) : is_digit (lower_char c) = is_digit c.
Proof.
  unfold lower_char. destruct (is_upper c) eqn:U; [|reflexivity].
  pose proof (code_lower_upper c U) as E.
  unfold is_upper in U. apply andb_prop in U as [U1 U2].
  apply N.leb_le in U1. apply N.leb_le in U2.
  unfold is_digit. rewrite E.
  transitivity false; [|symmetry]; apply andb_false_iff; right; apply N.leb_gt; lia.
Qed.

Lemma is_upper_lower_char (c : ascii) : is_upper (lower_char c) = false.
Proof.
  unfold lower_char. destruct (is_upper c) eqn:U; [|assumption].
  pose proof (code_lower_upper c U) as E.
  unfold is_upper in U. apply andb_prop in U as [U1 U2].
  apply N.leb_le in U1. apply N.leb_le in U2.
  unfold is_upper. rewrite E. apply andb_false_iff. right. apply N.leb_gt. lia.
Qed.

Lemma lower_char_idem (c : ascii) : lower_char (lower_char c) = lower_char c.
Proof. unfold lower_char at 1. now rewrite is_upper_lower_char. Qed.

Lemma lower_idem (s : string) : lower (lower s) = lower s.
Proof.
  induction s as [|c s IH]; simpl; [reflexivity|].
  now rewrite lower_char_idem, IH.
Qed.

Lemma all_digits_lower (s : string) : all_digits (lower s) = all_digits s.
Proof.
  induction s as [|c s IH]; simpl; [reflexivity|].
  now rewrite is_digit_lower_char, IH.
Qed.

Lemma isdigit_lower (s : string) : isdigit (lower s) = isdigit s.
Proof.
  destruct s as [|c s]; [reflexivity|].
  change (all_digits (lower (String c s)) = all_digits (String c s)).
  apply all_digits_lower.
Qed.

Lemma lower_all_digits (s : string) : all_digits s = true -> lower s = s.
Proof.
  induction s as [|c s IH]; simpl; [reflexivity|].
  intros H. apply andb_prop in H as [H1 H2].
  now rewrite (lower_char_digit _ H1), (IH H2).
Qed.

End StringFacts.

(* ===================================================================== *)
(** * Facts about natural_sort_key                                        *)
(* ===================================================================== *)

Section KeyFacts.

Lemma no_digits_isdigit (s : string) : no_digits s = true -> isdigit s = false.
Proof.
  destruct s as [|c s]; simpl; [reflexivity|].
  intros H. apply andb_prop in H as [H _].
  apply negb_true_iff in H. now rewrite H.
Qed.

Lemma isdigit_all_digits (s : string) : isdigit s = true -> all_digits s = true.
Proof. destruct s; simpl; [discriminate|trivial]. Qed.

Lemma re_split_digits_head (s : string) :
  exists text rest,
    re_split_digits s = text :: rest /\
    (starts_with_digit s = true -> text = EmptyString /\
       exists run rest', rest = run :: rest').
Proof.
  induction s as [|c s IH]; simpl.
  - exists EmptyString, []. split; [reflexivity|discriminate].
  - destruct IH as (text & rest & E & Hd). rewrite E.
    destruct (is_digit c) eqn:Dc.
    + destruct s as [|c' s'].
      * eexists _, _. split; [reflexivity|]. intros _. split; eauto.
      * simpl in Hd. destruct (is_digit c') eqn:Dc'.
        -- destruct (Hd eq_refl) as (-> & run & rest' & ->).
           eexists _, _. split; [reflexivity|]. intros _. split; eauto.
        -- destruct rest as [|run rest'];
             eexists _, _; (split; [reflexivity|]); intros _; split; eauto.
    + eexists _, _. split; [reflexivity|discriminate].
Qed.

Lemma re_split_digits_form (s : string) : split_form (re_split_digits s).
Proof.
  induction s as [|c s IH]; simpl; [reflexivity|].
  destruct (re_split_digits_head s) as (text & rest & E & Hd).
  rewrite E in *.
  destruct (is_digit c) eqn:Dc.
  - destruct s as [|c' s'].
    + simpl. rewrite Dc. auto.
    + simpl in Hd. destruct (is_digit c') eqn:Dc'.
      * destruct (Hd eq_refl) as (-> & run & rest' & ->).
        simpl in IH. destruct IH as (_ & Hrun & Hrest).
        simpl. rewrite Dc. simpl. rewrite (isdigit_all_digits _ Hrun). auto.
      * destruct rest as [|run rest']; simpl; rewrite Dc; auto.
  - destruct rest as [|run rest']; simpl in *; rewrite Dc; simpl; tauto.
Qed.

(** The pieces of the split, put together, are the string. *)
Lemma re_split_digits_concat (s : string) :
  fold_right String.append EmptyString (re_split_digits s) = s.
Proof.
  induction s as [|c s IH]; simpl; [reflexivity|].
  destruct (re_split_digits_head s) as (text & rest & E & Hd).
  rewrite E in *. simpl in IH.
  destruct (is_digit c) eqn:Dc.
  - destruct s as [|c' s'].
    + simpl. rewrite ?app_cons, ?app_nil in *. now rewrite IH.
    + simpl in Hd. destruct (is_digit c') eqn:Dc'.
      * destruct (Hd eq_refl) as (-> & run & rest' & ->).
        simpl in *. rewrite !app_cons, !app_nil in *. now rewrite IH.
      * destruct rest; simpl in *; rewrite ?app_cons, ?app_nil in *; now rewrite IH.
  - simpl. rewrite !app_cons. now rewrite IH.
Qed.


Lemma token_of_run (run : string) :
  isdigit run = true -> token_of run = TInt (int_of_digits run).
Proof. intros H. unfold token_of. now rewrite H. Qed.



Lemma token_eqb_eq (x y : token) : token_eqb x y = true <-> x = y.
Proof.
  destruct x as [a|a], y as [b|b]; simpl; split; try congruence.
  - intros H. apply Z.eqb_eq in H. now subst.
  - intros [= ->]. apply Z.eqb_refl.
  - intros H. apply String.eqb_eq in H. now subst.
  - intros [= ->]. apply String.eqb_refl.
Qed.

Lemma token_eqb_refl (x : token) : token_eqb x x = true.
Proof. now apply token_eqb_eq. Qed.

Lemma token_eqb_sym (x y : token) : token_eqb x y = token_eqb y x.
Proof.
  destruct (token_eqb x y) eqn:E.
  - apply token_eqb_eq in E. subst. symmetry. apply token_eqb_refl.
  - destruct (token_eqb y x) eqn:E'; [|reflexivity].
    apply token_eqb_eq in E'. subst. now rewrite token_eqb_refl in E.
Qed.

(** Comparing two keys of the same form never raises. *)
Lemma key_lt_defined (b : bool) (k1 k2 : list token) :
  key_form b k1 -> key_form b k2 -> exists r, key_lt k1 k2 = Ok r.
Proof.
  revert b k2. induction k1 as [|x k1 IH]; intros b [|y k2] H1 H2; simpl; eauto.
  destruct (token_eqb x y) eqn:E.
  - destruct x, y; simpl in *; try discriminate;
      destruct H1 as [_ H1], H2 as [_ H2]; eauto.
  - destruct x, y; simpl in *; eauto;
      destruct H1 as [H1 _], H2 as [H2 _]; congruence.
Qed.

Lemma key_lt_irrefl (k : list token) : key_lt k k = Ok false.
Proof.
  induction k as [|x k IH]; simpl; [reflexivity|].
  now rewrite token_eqb_refl.
Qed.

(** Of two keys of the same form exactly one is smaller, or they are equal. *)
Lemma key_lt_cases (b : bool) (k1 k2 : list token) :
  key_form b k1 -> key_form b k2 ->
  (key_lt k1 k2 = Ok true /\ key_lt k2 k1 = Ok false /\ k1 <> k2) \/
  (k1 = k2 /\ key_lt k1 k2 = Ok false /\ key_lt k2 k1 = Ok false) \/
  (key_lt k2 k1 = Ok true /\ key_lt k1 k2 = Ok false /\ k1 <> k2).
Proof.
  revert b k2. induction k1 as [|x k1 IH]; intros b [|y k2] H1 H2; simpl.
  - right. left. auto.
  - left. repeat split; congruence.
  - right. right. repeat split; congruence.
  - rewrite (token_eqb_sym y x).
    destruct (token_eqb x y) eqn:E.
    + apply token_eqb_eq in E. subst y.
      assert (exists b', key_form b' k1 /\ key_form b' k2) as (b' & F1 & F2).
      { destruct x; simpl in *; destruct H1 as [_ H1], H2 as [_ H2]; eauto. }
      destruct (IH _ _ F1 F2) as [(A & B & C)|[(A & B & C)|(A & B & C)]].
      * left. repeat split; trivial. congruence.
      * right. left. subst. auto.
      * right. right. repeat split; trivial. congruence.
    + assert (x <> y) as Hne.
      { intros ->. now rewrite token_eqb_refl in E. }
      destruct x as [m|s], y as [n|t]; simpl in *;
        try (destruct H1 as [H1 _], H2 as [H2 _]; congruence).
      * destruct (Z.lt_total m n) as [L|[L|L]].
        -- left. repeat split; try congruence.
           ++ f_equal. now apply Z.ltb_lt.
           ++ f_equal. apply Z.ltb_ge. lia.
        -- congruence.
        -- right. right. repeat split; try congruence.
           ++ f_equal. now apply Z.ltb_lt.
           ++ f_equal. apply Z.ltb_ge. lia.
      * destruct (string_ltb_cases s t) as [(A & B & C)|[A|(A & B & C)]].
        -- left. repeat split; congruence.
        -- congruence.
        -- right. right. repeat split; congruence.
Qed.

Lemma key_lt_trans (b : bool) (k1 k2 k3 : list token) :
  key_form b k1 -> key_form b k2 -> key_form b k3 ->
  key_lt k1 k2 = Ok true -> key_lt k2 k3 = Ok true -> key_lt k1 k3 = Ok true.
Proof.
  revert b k2 k3.
  induction k1 as [|x k1 IH]; intros b [|y k2] [|z k3] H1 H2 H3; simpl;
    try congruence.
  destruct (token_eqb x y) eqn:Exy.
  - apply token_eqb_eq in Exy. subst y.
    destruct (token_eqb x z) eqn:Exz; [|trivial].
    apply token_eqb_eq in Exz. subst z.
    assert (exists b', key_form b' k1 /\ key_form b' k2 /\ key_form b' k3)
      as (b' & F1 & F2 & F3).
    { destruct x; simpl in *;
        destruct H1 as [_ H1], H2 as [_ H2], H3 as [_ H3]; eauto. }
    eapply IH; eassumption.
  - destruct (token_eqb y z) eqn:Eyz.
    + apply token_eqb_eq in Eyz. subst z. rewrite Exy. intros A _. exact A.
    + destruct x as [m|s], y as [n|t], z as [p|u]; simpl in *; try congruence.
      * intros [= A] [= B]. apply Z.ltb_lt in A. apply Z.ltb_lt in B.
        assert ((m =? p) = false) as -> by (apply Z.eqb_neq; lia).
        f_equal. apply Z.ltb_lt. lia.
      * intros [= A] [= B].
        pose proof (string_ltb_trans _ _ _ A B) as C.
        destruct (String.eqb s u) eqn:Esu.
        -- apply String.eqb_eq in Esu. subst u.
           rewrite string_ltb_irrefl in C. discriminate.
        -- now rewrite C.
Qed.

Lemma app_empty_r (s : string) : s +:+ EmptyString = s.
Proof. induction s as [|c s IH]; [reflexivity|]. now rewrite app_cons, IH. Qed.

Lemma app_assoc' (a b c : string) : (a +:+ b) +:+ c = a +:+ (b +:+ c).
Proof.
  induction a as [|x a IH]; [reflexivity|]. now rewrite !app_cons, IH.
Qed.

Lemma re_split_digits_lower (s : string) :
  re_split_digits (lower s) = map lower (re_split_digits s).
Proof.
  induction s as [|c s IH]; [reflexivity|].
  change (lower (String c s)) with (String (lower_char c) (lower s)).
  cbn [re_split_digits]. rewrite IH, is_digit_lower_char.
  destruct (is_digit c) eqn:Dc.
  - rewrite (lower_char_digit _ Dc).
    destruct s as [|c' s'].
    + simpl. now rewrite (lower_char_digit _ Dc).
    + change (lower (String c' s')) with (String (lower_char c') (lower s')).
      cbv iota beta. rewrite is_digit_lower_char.
      destruct (re_split_digits (String c' s')) as [|t [|run rest]];
        [simpl; now rewrite (lower_char_digit _ Dc)..|].
      destruct (is_digit c'); simpl; now rewrite (lower_char_digit _ Dc).
  - destruct (re_split_digits s) as [|t rest]; simpl; try reflexivity.
Qed.

Lemma token_of_lower (text : string) : token_of (lower text) = token_of text.
Proof.
  unfold token_of. rewrite isdigit_lower.
  destruct (isdigit text) eqn:D.
  - now rewrite (lower_all_digits _ (isdigit_all_digits _ D)).
  - now rewrite lower_idem.
Qed.

(** Letter case does not matter to the key. *)
Lemma natural_sort_key_lower (s : string) :
  natural_sort_key (lower s) = natural_sort_key s.
Proof.
  unfold natural_sort_key. rewrite re_split_digits_lower, map_map.
  apply map_ext. intros t. apply token_of_lower.
Qed.

Lemma re_split_digits_run (run t : string) :
  isdigit run = true -> starts_with_digit t = false ->
  re_split_digits (run +:+ t) = EmptyString :: run :: re_split_digits t.
Proof.
  intros Hrun Ht. apply isdigit_all_digits in Hrun as Hall.
  destruct run as [|c run]; [discriminate|]. clear Hrun.
  revert c Hall. induction run as [|c2 run IH]; intros c Hall.
  - simpl in Hall. rewrite andb_true_r in Hall.
    rewrite app_cons, app_nil. cbn [re_split_digits]. rewrite Hall.
    destruct t as [|c' t']; [reflexivity|].
    simpl in Ht. rewrite Ht.
    destruct (re_split_digits (String c' t')) as [|? [|? ?]]; reflexivity.
  - cbn [all_digits] in Hall. apply andb_prop in Hall as [Hc Hall].
    rewrite app_cons. cbn [re_split_digits]. rewrite Hc.
    rewrite (IH c2 Hall).
    rewrite app_cons.
    cbn [all_digits] in Hall. apply andb_prop in Hall as [Hc2 _].
    now rewrite Hc2.
Qed.

Lemma re_split_digits_text (text s : string) :
  no_digits text = true ->
  exists head tail,
    re_split_digits s = head :: tail /\
    re_split_digits (text +:+ s) = (text +:+ head) :: tail.
Proof.
  intros Ht.
  destruct (re_split_digits_head s) as (head & tail & E & _).
  exists head, tail. split; [assumption|].
  induction text as [|c text IH]; [now rewrite app_nil|].
  simpl in Ht. apply andb_prop in Ht as [Hc Ht]. apply negb_true_iff in Hc.
  rewrite app_cons. cbn [re_split_digits]. rewrite Hc, (IH Ht).
  now rewrite app_cons.
Qed.

(** A string that is text, then a digit run, then a rest that does not go
    on with a digit, splits into the text, the run and the split of the
    rest. *)
Lemma re_split_digits_text_run (text run t : string) :
  no_digits text = true -> isdigit run = true -> starts_with_digit t = false ->
  re_split_digits (text +:+ run +:+ t) = text :: run :: re_split_digits t.
Proof.
  intros Htext Hrun Ht.
  destruct (re_split_digits_text text (run +:+ t) Htext) as (head & tail & E & ->).
  rewrite (re_split_digits_run _ _ Hrun Ht) in E.
  injection E as <- <-. now rewrite app_empty_r.
Qed.

(** Where two names first differ in a digit run, the run with the smaller
    value decides. *)
Lemma key_lt_digit_runs (text run1 run2 t1 t2 : string) :
  no_digits text = true ->
  isdigit run1 = true -> isdigit run2 = true ->
  starts_with_digit t1 = false -> starts_with_digit t2 = false ->
  int_of_digits run1 < int_of_digits run2 ->
  key_lt (natural_sort_key (text +:+ run1 +:+ t1))
         (natural_sort_key (text +:+ run2 +:+ t2)) = Ok true.
Proof.
  intros Htext H1 H2 Ht1 Ht2 Hlt. unfold natural_sort_key.
  rewrite (re_split_digits_text_run _ _ _ Htext H1 Ht1).
  rewrite (re_split_digits_text_run _ _ _ Htext H2 Ht2).
  cbn [map key_lt]. rewrite token_eqb_refl.
  rewrite (token_of_run _ H1), (token_of_run _ H2). cbn [token_eqb token_lt].
  assert ((int_of_digits run1 =? int_of_digits run2) = false) as ->
    by (apply Z.eqb_neq; lia).
  f_equal. now apply Z.ltb_lt.
Qed.

End KeyFacts.

(* ===================================================================== *)
(** * The compositor: resize_and_align_image                              *)
(* ===================================================================== *)

(** Case analysis on the outcome of a step that may raise. *)
Ltac step_result H :=
  match type of H with
  | Py.bind ?r _ = _ =>
      let E := fresh "E" in
      destruct r eqn:E; cbn [Py.bind] in H; [|discriminate H]
  end.

Lemma round_half_even_nearest (m k : Z) :
  0 < k -> 2 * Z.abs (round_half_even m k * 2 ^ k - m) <= 2 ^ k.
Proof.
  intros Hk. unfold round_half_even.
  assert (0 < 2 ^ k) as Hd by (apply Z.pow_pos_nonneg; lia).
  pose proof (Z.div_mod m (2 ^ k) ltac:(lia)) as Hdm.
  pose proof (Z.mod_pos_bound m (2 ^ k) Hd) as Hr.
  set (d := 2 ^ k) in *. set (q := m / d) in *. set (r := m mod d) in *.
  clearbody q r. clearbody d.
  assert (q * d - m = - r) as E1 by lia.
  assert ((q + 1) * d - m = d - r) as E2 by lia.
  destruct (Z.compare_spec (2 * r) d) as [C|C|C].
  - destruct (Z.even q); rewrite ?E1, ?E2; lia.
  - rewrite E1. lia.
  - rewrite E2. lia.
Qed.

(** [round] returns an integer nearest to its argument. *)
Lemma round_nearest (x : spec_float) (n : Z) :
  PyNum.round x = Ok n -> nearest_int x n.
Proof.
  destruct x as [s|s| |s m e]; simpl; try discriminate.
  - now intros [= <-].
  - intros [= <-].
    destruct (0 <=? e) eqn:He.
    + destruct s; lia.
    + apply Z.leb_gt in He.
      pose proof (round_half_even_nearest (Z.pos m) (- e) ltac:(lia)) as H.
      destruct s; [|exact H].
      replace (- round_half_even (Z.pos m) (- e) * 2 ^ (- e) - Z.neg m)
        with (- (round_half_even (Z.pos m) (- e) * 2 ^ (- e) - Z.pos m)) by lia.
      now rewrite Z.abs_opp.
Qed.

Section CompositorFacts.

Variable fonts : Fonts.

(** What [new_size] returns: the side that the comparison of the ratios
    picks is the usable side itself, the other is the rounded quotient or
    product. Nothing is clamped. *)
Lemma new_size_cases image page_size margin label new_width new_height :
  new_size fonts image page_size margin label = Ok (new_width, new_height) ->
  exists img_ratio page_ratio font_size,
    int_truediv (width image) (height image) = Ok img_ratio /\
    int_truediv (fst page_size) (snd page_size) = Ok page_ratio /\
    font_size_of page_size = Ok font_size /\
    let usable_width := fst page_size - 2 * margin in
    let usable_height :=
      snd page_size - 2 * margin - label_height_of fonts font_size label in
    (float_gt img_ratio page_ratio = true /\
       new_width = usable_width /\
       exists q, int_div_float usable_width img_ratio = Ok q /\
                 PyNum.round q = Ok new_height /\ nearest_int q new_height) \/
    (float_gt img_ratio page_ratio = false /\
       new_height = usable_height /\
       exists p, int_mul_float usable_height img_ratio = Ok p /\
                 PyNum.round p = Ok new_width /\ nearest_int p new_width).
Proof.
  unfold new_size. intros H.
  step_result H. step_result H. step_result H.
  rename a into img_ratio, a0 into page_ratio, a1 into font_size.
  exists img_ratio, page_ratio, font_size. repeat split.
  destruct (float_gt img_ratio page_ratio).
  - step_result H. step_result H. injection H as <- <-.
    left. repeat split. exists a. auto using round_nearest.
  - step_result H. step_result H. injection H as <- <-.
    right. repeat split. exists a. auto using round_nearest.
Qed.

(** The canvas has the size of the cell. *)
Lemma canvas_size image page_size margin label canvas :
  resize_and_align_image fonts image page_size margin label = Ok canvas ->
  PIL.size canvas = page_size.
Proof.
  unfold resize_and_align_image. intros H.
  step_result H. destruct a as [new_width new_height].
  step_result H. step_result H. step_result H.
  injection H as <-.
  unfold PIL.new in E2.
  destruct ((fst page_size <? 0) || (snd page_size <? 0)); [discriminate|].
  injection E2 as <-.
  destruct page_size as [W H]. unfold PIL.size, paste.
  destruct label as [text|]; [destruct (truthy (Some text))|]; reflexivity.
Qed.

(** A size with a side below one pixel, other than the size the image
    already has, makes [resize], and with it the whole operation, raise. *)
Lemma small_size_raises image page_size margin label new_width new_height :
  new_size fonts image page_size margin label = Ok (new_width, new_height) ->
  new_width < 1 \/ new_height < 1 ->
  (new_width, new_height) <> PIL.size image ->
  resize_and_align_image fonts image page_size margin label = Raise ValueError.
Proof.
  intros Hsize Hsmall Hne. unfold resize_and_align_image. rewrite Hsize.
  cbn [Py.bind].
  destruct (new_size_cases _ _ _ _ _ _ Hsize) as (_ & _ & fs & _ & _ & -> & _).
  cbn [Py.bind]. unfold PIL.resize. cbn [fst snd].
  destruct ((new_width =? width image) && (new_height =? height image)) eqn:Eq.
  - apply andb_prop in Eq as [A B].
    apply Z.eqb_eq in A. apply Z.eqb_eq in B. subst.
    now contradiction Hne.
  - assert ((new_width <? 1) || (new_height <? 1) = true) as ->; [|reflexivity].
    apply orb_true_iff. destruct Hsmall; [left|right]; now apply Z.ltb_lt.
Qed.

End CompositorFacts.

(* ===================================================================== *)
(** * Facts about the file system operations                              *)
(* ===================================================================== *)

Section WorldFacts.

Lemma mbind_ok {A B} (m : M A) (k : A -> M B) (w w' : World) (b : B) :
  mbind m k w = (Ok b, w') ->
  exists a w1, m w = (Ok a, w1) /\ k a w1 = (Ok b, w').
Proof.
  unfold mbind. destruct (m w) as [[a|e] w1]; [eauto|discriminate].
Qed.

Lemma lift_ok {A} (r : result A) (w w' : World) (a : A) :
  lift r w = (Ok a, w') -> r = Ok a /\ w' = w.
Proof. unfold lift. intros [= -> ->]. auto. Qed.

Lemma ret_ok {A} (x a : A) (w w' : World) :
  ret x w = (Ok a, w') -> a = x /\ w' = w.
Proof. unfold ret. intros [= -> ->]. auto. Qed.

Lemma resolve_same_cwd (w w' : World) (path : string) :
  cwd w = cwd w' -> resolve w path = resolve w' path.
Proof. unfold resolve. now intros ->. Qed.

Lemma write_file_ok path content w w' :
  write_file path content w = (Ok tt, w') ->
  exists p, resolve w path = Ok p /\
            w' = log (Wrote p) (set_fs (insert p (File (clock w) content)) w).
Proof.
  unfold write_file. destruct (resolve w path) as [p|e]; [|discriminate].
  destruct (fs w !! p) as [[t|t c]|]; try discriminate;
    intros [= <-]; eauto.
Qed.

Lemma read_file_ok path w w' content :
  read_file path w = (Ok content, w') ->
  w' = w /\ exists p t, resolve w path = Ok p /\
                        fs w !! p = Some (File t content).
Proof.
  unfold read_file. destruct (resolve w path) as [p|e]; [|discriminate].
  destruct (fs w !! p) as [[t|t c]|] eqn:E; try discriminate.
  intros [= <- <-]. eauto.
Qed.

Lemma remove_ok path w w' :
  remove path w = (Ok tt, w') ->
  exists p t content,
    resolve w path = Ok p /\ fs w !! p = Some (File t content) /\
    w' = log (Removed p) (set_fs (delete p) w).
Proof.
  unfold remove. destruct (resolve w path) as [p|e]; [|discriminate].
  destruct (fs w !! p) as [[t|t c]|] eqn:E; try discriminate.
  intros [= <-]. eauto 6.
Qed.

Lemma image_open_ok path w w' im :
  image_open path w = (Ok im, w') ->
  w' = w /\ exists p t, resolve w path = Ok p /\
                        fs w !! p = Some (File t (ImageData im)).
Proof.
  unfold image_open. intros H.
  apply mbind_ok in H as (content & w1 & Hread & Hk).
  apply read_file_ok in Hread as (-> & p & t & Hres & Hfs).
  destruct content; try discriminate.
  apply ret_ok in Hk as (-> & ->). eauto.
Qed.

Lemma read_pdf_ok path w w' pages :
  read_pdf path w = (Ok pages, w') ->
  w' = w /\ exists p t, resolve w path = Ok p /\
                        fs w !! p = Some (File t (PdfData pages)).
Proof.
  unfold read_pdf. intros H.
  apply mbind_ok in H as (content & w1 & Hread & Hk).
  apply read_file_ok in Hread as (-> & p & t & Hres & Hfs).
  destruct content; try discriminate.
  apply ret_ok in Hk as (-> & ->). eauto.
Qed.

Lemma getctime_ok path w w' t :
  getctime path w = (Ok t, w') -> w' = w.
Proof.
  unfold getctime. destruct (resolve w path) as [p|e]; [|discriminate].
  destruct (fs w !! p); [|discriminate]. now intros [= _ <-].
Qed.

Lemma map_m_getctime_ok (f : string -> string) (l : list string) w w' keys :
  map_m (fun x => getctime (f x)) l w = (Ok keys, w') ->
  w' = w /\ length keys = length l.
Proof.
  revert keys w'. induction l as [|x l IH]; intros keys w' H.
  - apply ret_ok in H as (-> & ->). auto.
  - cbn [map_m] in H.
    apply mbind_ok in H as (t & w1 & Ht & H).
    apply getctime_ok in Ht as ->.
    apply mbind_ok in H as (ts & w2 & Hts & H).
    apply IH in Hts as (-> & Hlen).
    apply ret_ok in H as (-> & ->). simpl. auto.
Qed.

(** An invariant of a loop holds at its end. *)
Lemma for_fold_invariant {A S} (I : nat -> S -> World -> Prop)
    (f : S -> A -> M S) (l : list A) :
  (forall i x s w s' w',
      l !! i = Some x -> I i s w -> f s x w = (Ok s', w') -> I (Datatypes.S i) s' w') ->
  forall s w s' w',
    I O s w -> for_fold l f s w = (Ok s', w') -> I (length l) s' w'.
Proof.
  revert I. induction l as [|x l IH]; intros I Hstep s w s' w' H0 Hrun.
  - apply ret_ok in Hrun as (-> & ->). exact H0.
  - cbn [for_fold] in Hrun.
    apply mbind_ok in Hrun as (s1 & w1 & Hx & Hrest).
    apply (IH (fun i => I (Datatypes.S i))) with (s := s1) (w := w1).
    + intros i y t u t' u' Hy. apply Hstep. exact Hy.
    + apply (Hstep O x s w); [reflexivity|assumption..].
    + exact Hrest.
Qed.

Lemma enumerate_from_lookup {A} (l : list A) (j i : nat) (item : Z * A) :
  combine (map Z.of_nat (seq j (length l))) l !! i = Some item ->
  fst item = Z.of_nat (j + i) /\ l !! i = Some (snd item).
Proof.
  revert j i. induction l as [|x l IH]; intros j i; [destruct i; discriminate|].
  destruct i as [|i]; simpl.
  - intros [= <-]. simpl. split; [f_equal; lia|reflexivity].
  - intros H. apply IH in H as [H1 H2]. split; [|exact H2].
    rewrite H1. f_equal. lia.
Qed.

Lemma enumerate_lookup {A} (l : list A) (i : nat) (item : Z * A) :
  enumerate l !! i = Some item ->
  fst item = Z.of_nat i /\ l !! i = Some (snd item).
Proof. apply enumerate_from_lookup. Qed.

Lemma enumerate_length {A} (l : list A) : length (enumerate l) = length l.
Proof.
  unfold enumerate. rewrite length_combine, length_map, length_seq. lia.
Qed.

End WorldFacts.

(* ===================================================================== *)
(** * The main loop                                                       *)
(* ===================================================================== *)

Section LoopFacts.

Variable fonts : Fonts.
Variable directory : string.
Variable images_per_page : Z.
Variable margin : Z.
Variable label_images : bool.

Abbreviation body := (loop_body fonts directory images_per_page margin label_images).

Lemma resolve_temp (w : World) (i : Z) :
  resolve w (temp_pdf_name i) = Ok (temp_path (cwd w) i).
Proof. reflexivity. Qed.

Lemma page_cells_fold (cells : list Image) (h : Z) (base : Image) (y : Z) :
  page_cells
    (fst (fold_left
            (fun acc combined_img =>
               (paste (fst acc) combined_img (0, snd acc), snd acc + h))
            cells (base, y))) = page_cells base ++ cells.
Proof.
  revert base y. induction cells as [|c cells IH]; intros base y; simpl.
  - now rewrite app_nil_r.
  - rewrite IH. simpl. now rewrite <- app_assoc.
Qed.

(** The cells of an assembled page are the cells it was made of. *)
Lemma page_cells_assemble (cells : list Image) (h : Z) :
  page_cells (assemble_page cells h) = cells.
Proof. unfold assemble_page. now rewrite page_cells_fold. Qed.

(** One turn of the loop that does not raise. *)
Lemma loop_body_ok (n h : Z) (v v' : loop_vars) (i : Z) (img_file : string)
    (w w' : World) :
  body n h v (i, img_file) w = (Ok v', w') ->
  exists p t img cell,
    resolve w (join directory img_file) = Ok p /\
    fs w !! p = Some (File t (ImageData img)) /\
    resize_and_align_image fonts (ConvertedRGB img) (fst A4_PAGE_SIZE, h) margin
      (if label_images then Some (question_label (image_counter v)) else None)
      = Ok cell /\
    images_per_page <> 0 /\
    let cells := current_images v ++ [cell] in
    if ((i + 1) mod images_per_page =? 0) || (i =? n - 1) then
      let page := assemble_page cells h in
      let tp := temp_path (cwd w) (page_number v) in
      v' = {| current_images := [];
              page_number := page_number v + 1;
              image_counter := image_counter v + 1;
              pdf_merger := pdf_merger v ++ [page] |} /\
      w' = log (Wrote tp)
             (set_fs (insert tp (File (clock w) (PdfData [page]))) w)
    else
      v' = {| current_images := cells;
              page_number := page_number v;
              image_counter := image_counter v + 1;
              pdf_merger := pdf_merger v |} /\
      w' = w.
Proof.
  unfold loop_body. cbn [fst snd]. intros H.
  apply mbind_ok in H as (img & w1 & Hopen & H).
  apply image_open_ok in Hopen as (-> & p & t & Hres & Hfs).
  apply mbind_ok in H as (cell & w1 & Hcell & H).
  apply lift_ok in Hcell as (Hcell & ->).
  apply mbind_ok in H as (r & w1 & Hmod & H).
  apply lift_ok in Hmod as (Hmod & ->).
  unfold mod_ in Hmod.
  destruct (images_per_page =? 0) eqn:Hk; [discriminate|].
  apply Z.eqb_neq in Hk. injection Hmod as <-.
  exists p, t, img, cell. repeat split; try assumption.
  cbv zeta.
  destruct (((i + 1) mod images_per_page =? 0) || (i =? n - 1)).
  - apply mbind_ok in H as ([] & w1 & Hsave & H).
    apply write_file_ok in Hsave as (tp & Htp & ->).
    rewrite resolve_temp in Htp. injection Htp as <-.
    apply mbind_ok in H as (pages & w1 & Hread & H).
    apply read_pdf_ok in Hread as (-> & tp' & t' & Htp' & Hfs').
    rewrite resolve_temp in Htp'. injection Htp' as <-.
    cbn [log set_fs fs cwd] in Hfs'.
    rewrite lookup_insert_eq in Hfs'. injection Hfs' as _ <-.
    apply ret_ok in H as (-> & ->). split; reflexivity.
  - apply ret_ok in H as (-> & ->). split; reflexivity.
Qed.

Lemma put_temps_snoc (c : string) (t first : Z) (pages : list Image)
    (page : Image) (m : gmap string node) :
  put_temps c t first (pages ++ [page]) m =
  <[temp_path c (first + Z.of_nat (length pages)) := File t (PdfData [page])]>
    (put_temps c t first pages m).
Proof.
  revert first m. induction pages as [|q pages IH]; intros first m.
  - cbn. now rewrite Z.add_0_r.
  - cbn [app put_temps length]. rewrite IH.
    replace (first + 1 + Z.of_nat (length pages))
      with (first + Z.of_nat (Datatypes.S (length pages))) by lia.
    reflexivity.
Qed.

(** A temporary file holds a PDF, so an image found after the temporary
    files were written was there before. *)
Lemma put_temps_lookup_image (c : string) (t first : Z) (pages : list Image)
    (m : gmap string node) (p : string) (t' : Z) (img : Image) :
  put_temps c t first pages m !! p = Some (File t' (ImageData img)) ->
  m !! p = Some (File t' (ImageData img)).
Proof.
  revert first m. induction pages as [|q pages IH]; intros first m;
    cbn [put_temps].
  - trivial.
  - intros H. apply IH in H.
    destruct (decide (temp_path c first = p)) as [E|Hne].
    + rewrite E, lookup_insert_eq in H. discriminate.
    + now rewrite lookup_insert_ne in H.
Qed.

Lemma range_snoc (a b : Z) : a <= b -> range a (b + 1) = range a b ++ [b].
Proof.
  intros H. unfold range.
  replace (Z.to_nat (b + 1 - a)) with (Datatypes.S (Z.to_nat (b - a))) by lia.
  rewrite seq_S, map_app. simpl. do 2 f_equal. lia.
Qed.

Variable imgs : list string.
Variable h : Z.
Variable w0 : World.

Abbreviation n := (Z.of_nat (length imgs)).
Abbreviation world_inv := (LoopInvariants.world_inv w0).
Abbreviation label_at := (LoopInvariants.label_at label_images).
Abbreviation composited :=
  (LoopInvariants.composited fonts directory margin label_images imgs h w0).
Abbreviation cells_inv :=
  (LoopInvariants.cells_inv fonts directory margin label_images imgs h w0).
Abbreviation count_inv := (LoopInvariants.count_inv images_per_page imgs).
Abbreviation cells_so_far := LoopInvariants.cells_so_far.

Lemma world_inv_initial : world_inv initial_vars w0.
Proof.
  unfold LoopInvariants.world_inv, initial_vars. cbn.
  repeat split. now rewrite app_nil_r.
Qed.

Lemma cells_inv_initial : cells_inv O initial_vars.
Proof.
  unfold LoopInvariants.cells_inv, LoopInvariants.cells_so_far, initial_vars. cbn.
  repeat split. intros j cell H. destruct j; discriminate.
Qed.

Lemma count_inv_initial :
  1 <= images_per_page -> 1 <= n -> count_inv O initial_vars.
Proof.
  intros Hk Hn. unfold LoopInvariants.count_inv, initial_vars. cbn [pdf_merger current_images length].
  split.
  - intros idx page H. destruct idx; discriminate.
  - left. lia.
Qed.

Lemma world_inv_step (i : nat) (f : string) (v v' : loop_vars) (w w' : World) :
  world_inv v w ->
  body n h v (Z.of_nat i, f) w = (Ok v', w') ->
  world_inv v' w'.
Proof.
  intros (Hcwd & Hclock & Hout & Hpn & Hfs & Htrace) Hrun.
  apply loop_body_ok in Hrun as (p & t & img & cell & _ & _ & _ & _ & Hcase).
  cbv zeta in Hcase.
  destruct (((Z.of_nat i + 1) mod images_per_page =? 0) || (Z.of_nat i =? n - 1));
    destruct Hcase as (-> & ->); unfold world_inv;
    cbn [cwd clock stdout fs trace log set_fs page_number pdf_merger].
  - repeat split; try assumption.
    + rewrite length_app. cbn [length]. lia.
    + rewrite put_temps_snoc, Hfs, Hcwd, Hclock, Hpn. reflexivity.
    + rewrite Htrace, range_snoc by lia.
      rewrite map_app, <- app_assoc, Hcwd. reflexivity.
  - repeat split; assumption.
Qed.

Lemma cells_so_far_step (v : loop_vars) (cell : Image) (b : bool) :
  cells_so_far
    (if b then
       {| current_images := [];
          page_number := page_number v + 1;
          image_counter := image_counter v + 1;
          pdf_merger := pdf_merger v ++ [assemble_page (current_images v ++ [cell]) h] |}
     else
       {| current_images := current_images v ++ [cell];
          page_number := page_number v;
          image_counter := image_counter v + 1;
          pdf_merger := pdf_merger v |})
  = cells_so_far v ++ [cell].
Proof.
  unfold LoopInvariants.cells_so_far. destruct b; cbn [pdf_merger current_images].
  - rewrite map_app, concat_app. cbn [map concat].
    rewrite page_cells_assemble, !app_nil_r, app_assoc. reflexivity.
  - now rewrite app_assoc.
Qed.

Lemma cells_inv_step (i : nat) (f : string) (v v' : loop_vars) (w w' : World) :
  imgs !! i = Some f ->
  world_inv v w -> cells_inv i v ->
  body n h v (Z.of_nat i, f) w = (Ok v', w') ->
  cells_inv (Datatypes.S i) v'.
Proof.
  intros Hf (Hcwd & _ & _ & _ & Hfs & _) (Hcount & Hlen & Hcells) Hrun.
  apply loop_body_ok in Hrun
    as (p & t & img & cell & Hres & Himg & Hcell & _ & Hcase).
  cbv zeta in Hcase.
  assert (composited i cell) as Hnew.
  { exists f, p, t, img. repeat split; trivial.
    - now rewrite <- (resolve_same_cwd w w0).
    - rewrite Hfs in Himg. now apply put_temps_lookup_image in Himg.
    - unfold LoopInvariants.label_at. now rewrite <- Hcount. }
  assert (cells_so_far v' = cells_so_far v ++ [cell] /\
          image_counter v' = image_counter v + 1) as (Hsf & Hic).
  { rewrite <- (cells_so_far_step v cell
                  (((Z.of_nat i + 1) mod images_per_page =? 0) || (Z.of_nat i =? n - 1))).
    destruct (((Z.of_nat i + 1) mod images_per_page =? 0) || (Z.of_nat i =? n - 1));
      destruct Hcase as (-> & _); split; reflexivity. }
  unfold LoopInvariants.cells_inv. rewrite Hsf, Hic. repeat split.
  - lia.
  - rewrite length_app. cbn [length]. lia.
  - intros j c Hj.
    destruct (decide (j < length (cells_so_far v))%nat) as [Hlt|Hge].
    + rewrite lookup_app_l in Hj by exact Hlt. now apply Hcells.
    + rewrite lookup_app_r in Hj by lia.
      destruct (j - length (cells_so_far v))%nat as [|?] eqn:E; [|discriminate].
      injection Hj as <-. replace j with i by lia. exact Hnew.
Qed.

Lemma flush_test (P c k : Z) :
  1 <= k -> 0 <= P -> 1 <= c <= k ->
  ((P * k + c) mod k =? 0) = (c =? k).
Proof.
  intros Hk HP Hc.
  rewrite Z.add_comm, Z_mod_plus_full.
  destruct (Z.eq_dec c k) as [->|Hne].
  - now rewrite Z_mod_same_full, !Z.eqb_refl.
  - rewrite Z.mod_small by lia.
    transitivity false; [|symmetry]; apply Z.eqb_neq; lia.
Qed.

Lemma count_inv_step (i : nat) (f : string) (v v' : loop_vars) (w w' : World) :
  1 <= images_per_page ->
  imgs !! i = Some f ->
  count_inv i v ->
  body n h v (Z.of_nat i, f) w = (Ok v', w') ->
  count_inv (Datatypes.S i) v'.
Proof.
  intros Hk Hf (Hpages & Hcount) Hrun.
  apply lookup_lt_Some in Hf.
  destruct Hcount as [(_ & Hsum & Hc)|(Hi & _)]; [|lia].
  apply loop_body_ok in Hrun as (p & t & img & cell & _ & _ & _ & _ & Hcase).
  cbv zeta in Hcase.
  set (P := Z.of_nat (length (pdf_merger v))) in *.
  set (c := Z.of_nat (length (current_images v))) in *.
  assert (((Z.of_nat i + 1) mod images_per_page =? 0) = (c + 1 =? images_per_page))
    as Hflush.
  { replace (Z.of_nat i + 1) with (P * images_per_page + (c + 1)) by lia.
    apply flush_test; lia. }
  rewrite Hflush in Hcase.
  destruct ((c + 1 =? images_per_page) || (Z.of_nat i =? n - 1)) eqn:Htest;
    destruct Hcase as (-> & _); unfold LoopInvariants.count_inv;
    cbn [pdf_merger current_images]; cbv zeta.
  - assert (c + 1 = Z.min images_per_page (n - images_per_page * P)) as Hmin.
    { apply orb_true_iff in Htest as [H|H]; apply Z.eqb_eq in H; lia. }
    split.
    + intros idx page Hidx.
      destruct (decide (idx < length (pdf_merger v))%nat) as [Hlt|Hge].
      * rewrite lookup_app_l in Hidx by exact Hlt. now apply Hpages.
      * rewrite lookup_app_r in Hidx by lia.
        destruct (idx - length (pdf_merger v))%nat as [|?] eqn:E; [|discriminate].
        injection Hidx as <-. rewrite page_cells_assemble, length_app.
        cbn [length]. replace (Z.of_nat idx) with P by lia. lia.
    + rewrite length_app. cbn [length].
      apply orb_true_iff in Htest as [H|H]; apply Z.eqb_eq in H.
      * destruct (Z.eq_dec (Z.of_nat (Datatypes.S i)) n); [right|left]; nia.
      * right. nia.
  - apply orb_false_iff in Htest as [H1 H2].
    apply Z.eqb_neq in H1. apply Z.eqb_neq in H2.
    split; [exact Hpages|].
    left. rewrite length_app. cbn [length]. fold P. lia.
Qed.

(** The three invariants hold when the loop ends. *)
Lemma loop_ok (v : loop_vars) (w : World) :
  1 <= images_per_page -> 1 <= n ->
  for_fold (enumerate imgs) (body n h) initial_vars w0 = (Ok v, w) ->
  world_inv v w /\ cells_inv (length imgs) v /\ count_inv (length imgs) v.
Proof.
  intros Hk Hn Hrun.
  rewrite <- (enumerate_length imgs).
  apply (for_fold_invariant
           (fun i v w => world_inv v w /\ cells_inv i v /\ count_inv i v)
           (body n h) (enumerate imgs)) with (s := initial_vars) (w := w0).
  - intros i [idx f] s u s' u' Hitem (Hw & Hc & Hp) Hstep.
    apply enumerate_lookup in Hitem as [Hidx Hf]. cbn [fst snd] in Hidx, Hf.
    subst idx. split; [|split].
    + eapply world_inv_step; eassumption.
    + eapply cells_inv_step; eassumption.
    + eapply count_inv_step; eassumption.
  - split; [|split].
    + apply world_inv_initial.
    + apply cells_inv_initial.
    + now apply count_inv_initial.
  - exact Hrun.
Qed.

Lemma flushed_step (i : nat) (f : string) (v v' : loop_vars) (w w' : World) :
  body n h v (Z.of_nat i, f) w = (Ok v', w') ->
  Z.of_nat (Datatypes.S i) = n -> current_images v' = [].
Proof.
  intros Hrun Hlast.
  apply loop_body_ok in Hrun as (p & t & img & cell & _ & _ & _ & _ & Hcase).
  cbv zeta in Hcase.
  assert ((Z.of_nat i =? n - 1) = true) as Hi by (apply Z.eqb_eq; lia).
  rewrite Hi, orb_true_r in Hcase. now destruct Hcase as (-> & _).
Qed.

(** Without the bound on [images_per_page]: the world, the cells, and no
    cell is left waiting when the loop ends. *)
Lemma loop_ok_any (v : loop_vars) (w : World) :
  for_fold (enumerate imgs) (body n h) initial_vars w0 = (Ok v, w) ->
  world_inv v w /\ cells_inv (length imgs) v /\ current_images v = [].
Proof.
  intros Hrun.
  assert (forall i x s u s' u',
             enumerate imgs !! i = Some x ->
             world_inv s u /\ cells_inv i s /\
               (Z.of_nat i = n -> current_images s = []) ->
             body n h s x u = (Ok s', u') ->
             world_inv s' u' /\ cells_inv (Datatypes.S i) s' /\
               (Z.of_nat (Datatypes.S i) = n -> current_images s' = []))
    as Hstep.
  { intros i [idx f] s u s' u' Hitem (Hw & Hc & _) Hstep.
    apply enumerate_lookup in Hitem as [Hidx Hf]. cbn [fst snd] in Hidx, Hf.
    subst idx. split; [|split].
    - eapply world_inv_step; eassumption.
    - eapply cells_inv_step; eassumption.
    - eapply flushed_step; eassumption. }
  pose proof (for_fold_invariant
                (fun i v w => world_inv v w /\ cells_inv i v /\
                              (Z.of_nat i = n -> current_images v = []))
                (body n h) (enumerate imgs) Hstep initial_vars w0 v w) as H.
  rewrite enumerate_length in H.
  destruct H as (A & B & C); [|exact Hrun|auto].
  split; [apply world_inv_initial|split; [apply cells_inv_initial|reflexivity]].
Qed.

End LoopFacts.

(* ===================================================================== *)
(** * Paths and suffixes                                                 *)
(* ===================================================================== *)

Abbreviation chars := list_ascii_of_string.

Lemma chars_app (a b : string) : chars (a +:+ b) = chars a ++ chars b.
Proof. induction a as [|c a IH]; [reflexivity|]. rewrite app_cons. simpl. now rewrite IH. Qed.

Lemma chars_inj (a b : string) : chars a = chars b -> a = b.
Proof.
  intros H. rewrite <- (string_of_list_ascii_of_string a), <- (string_of_list_ascii_of_string b).
  now rewrite H.
Qed.

Lemma endswith_suffix (s suf : string) :
  endswith s suf = true <-> chars suf `suffix_of` chars s.
Proof.
  induction s as [|c s IH]; cbn [endswith].
  - rewrite orb_false_r. split.
    + intros H. apply String.eqb_eq in H. now subst.
    + intros H. apply suffix_nil_inv in H. apply String.eqb_eq.
      apply chars_inj. now rewrite H.
  - rewrite orb_true_iff, IH. split.
    + intros [H|H].
      * apply String.eqb_eq in H. now subst.
      * simpl. now apply suffix_cons_r.
    + intros [k Hk]. simpl in Hk. destruct k as [|c' k].
      * left. apply String.eqb_eq. apply chars_inj. exact Hk.
      * right. injection Hk as _ Hk. now exists k.
Qed.

Lemma chars_lower (s : string) : chars (lower s) = map lower_char (chars s).
Proof. induction s as [|c s IH]; simpl; [reflexivity|]. now rewrite IH. Qed.

Lemma chars_length (s : string) : length (chars s) = String.length s.
Proof. induction s as [|c s IH]; simpl; [reflexivity|]. now rewrite IH. Qed.

Lemma suffix_map {A B} (f : A -> B) (l1 l2 : list A) :
  l1 `suffix_of` l2 -> map f l1 `suffix_of` map f l2.
Proof. intros [k ->]. rewrite map_app. now exists (map f k). Qed.

(** Two suffixes of one list: the one that is not longer is a suffix of
    the other. *)
Lemma suffix_of_suffix {A} (l1 l2 l3 : list A) :
  l1 `suffix_of` l3 -> l2 `suffix_of` l3 -> (length l1 <= length l2)%nat ->
  l1 `suffix_of` l2.
Proof.
  intros H1 H2 Hlen.
  destruct (suffix_weak_total _ _ _ H1 H2) as [H|H]; [exact H|].
  rewrite (suffix_length_eq _ _ H); [reflexivity|].
  apply suffix_length in H. lia.
Qed.

Lemma join_suffix (a b : string) : chars b `suffix_of` chars (join a b).
Proof.
  unfold join. destruct (startswith b sep); [reflexivity|].
  destruct a as [|c a]; [reflexivity|].
  destruct (endswith (String c a) sep); rewrite !chars_app.
  - apply suffix_app_r. reflexivity.
  - apply suffix_app_r, suffix_app_r. reflexivity.
Qed.

Lemma resolve_suffix (w : World) (path p : string) :
  resolve w path = Ok p -> chars path `suffix_of` chars p.
Proof.
  unfold resolve. destruct path as [|c path]; [discriminate|].
  destruct (startswith (String c path) sep); intros H; injection H as <-;
    [reflexivity|apply join_suffix].
Qed.

Lemma digit_char_is_digit (d : Z) : 0 <= d < 10 -> is_digit (digit_char d) = true.
Proof.
  intros H. unfold is_digit, digit_char, code.
  rewrite N_ascii_embedding by lia.
  apply andb_true_iff. split; apply N.leb_le; lia.
Qed.

Lemma digits_fuel_suffix (fuel : nat) (a : Z) (acc : string) :
  chars acc `suffix_of` chars (digits_fuel fuel a acc).
Proof.
  revert a acc. induction fuel as [|fuel IH]; intros a acc; cbn [digits_fuel].
  - reflexivity.
  - destruct (a / 10 =? 0).
    + simpl. apply suffix_cons_r. reflexivity.
    + etransitivity; [|apply IH]. simpl. apply suffix_cons_r. reflexivity.
Qed.

(** The text of a number ends with a digit. *)
Lemma str_of_int_last_digit (i : Z) :
  exists d, is_digit d = true /\ [d] `suffix_of` chars (str_of_int i).
Proof.
  unfold str_of_int.
  set (a := Z.abs i). set (fuel := Z.to_nat (Z.log2 a)).
  exists (digit_char (a mod 10)). split.
  - apply digit_char_is_digit. apply Z.mod_pos_bound. lia.
  - assert ([digit_char (a mod 10)] `suffix_of`
            chars (digits_fuel (Datatypes.S fuel) a EmptyString)) as H.
    { cbn [digits_fuel]. destruct (a / 10 =? 0); [reflexivity|].
      apply (digits_fuel_suffix fuel (a / 10)
               (String (digit_char (a mod 10)) EmptyString)). }
    destruct (i <? 0); [|exact H].
    simpl. now apply suffix_cons_r.
Qed.

Lemma temp_path_suffix (c : string) (i : Z) :
  exists d, is_digit d = true /\
            (d :: chars ".pdf") `suffix_of` chars (temp_path c i).
Proof.
  destruct (str_of_int_last_digit i) as (d & Hd & Hsuf).
  exists d. split; [exact Hd|].
  etransitivity; [|apply join_suffix].
  unfold temp_pdf_name. rewrite !chars_app.
  apply suffix_app_r. apply (suffix_app [d] _ (chars ".pdf")). exact Hsuf.
Qed.

Lemma output_path_suffix (w : World) (directory out : string) :
  resolve w (output_pdf_path directory) = Ok out ->
  chars "combined_output.pdf" `suffix_of` chars out.
Proof.
  intros H. apply resolve_suffix in H.
  etransitivity; [|exact H]. apply join_suffix.
Qed.

(** The output file is none of the temporary files. *)
Lemma output_not_temp (w : World) (directory out c : string) (i : Z) :
  resolve w (output_pdf_path directory) = Ok out -> out <> temp_path c i.
Proof.
  intros Hout ->. apply output_path_suffix in Hout.
  destruct (temp_path_suffix c i) as (d & Hd & Hsuf).
  assert (chars "t.pdf" `suffix_of` chars (temp_path c i)) as Ht.
  { etransitivity; [|exact Hout]. now exists (chars "combined_outpu"). }
  assert (d :: chars ".pdf" = chars "t.pdf") as E.
  { apply suffix_length_eq; [|reflexivity].
    eapply suffix_of_suffix; [exact Hsuf|exact Ht|reflexivity]. }
  injection E as ->. discriminate Hd.
Qed.

Lemma image_extension_not_pdf (ext : string) :
  In ext IMAGE_EXTENSIONS ->
  ~ (chars ".pdf" `suffix_of` chars ext) /\ (4 <= length (chars ext))%nat.
Proof.
  intros H. simpl in H.
  repeat (destruct H as [<-|H];
          [split; [apply (bool_decide_eq_false_1 _); vm_compute; reflexivity
                  |simpl; lia]|]).
  contradiction.
Qed.

(** A name with an image extension does not end in [.pdf]. *)
Lemma image_name_not_pdf (f : string) :
  is_image_name f = true -> ~ (chars ".pdf" `suffix_of` chars f).
Proof.
  unfold is_image_name, endswith_any. intros H Hpdf.
  apply existsb_exists in H as (ext & Hin & Hext).
  apply endswith_suffix in Hext. rewrite chars_lower in Hext.
  apply (suffix_map lower_char) in Hpdf. change (map lower_char (chars ".pdf"))
    with (chars ".pdf") in Hpdf.
  destruct (image_extension_not_pdf ext Hin) as (Hno & Hlen).
  apply Hno. eapply suffix_of_suffix; [exact Hpdf|exact Hext|exact Hlen].
Qed.

(** The output file is none of the images. *)
Lemma output_not_image (w : World) (directory out f p : string) :
  resolve w (output_pdf_path directory) = Ok out ->
  is_image_name f = true ->
  resolve w (join directory f) = Ok p ->
  p <> out.
Proof.
  intros Hout Himg Hp ->.
  apply output_path_suffix in Hout. apply resolve_suffix in Hp.
  assert (chars f `suffix_of` chars out) as Hf.
  { etransitivity; [|exact Hp]. apply join_suffix. }
  assert (chars ".pdf" `suffix_of` chars out) as Hpdf.
  { etransitivity; [|exact Hout]. now exists (chars "combined_output"). }
  apply (image_name_not_pdf f Himg).
  eapply suffix_of_suffix; [exact Hpdf|exact Hf|].
  unfold is_image_name, endswith_any in Himg.
  apply existsb_exists in Himg as (ext & Hin & Hext).
  apply endswith_suffix in Hext. rewrite chars_lower in Hext.
  apply suffix_length in Hext. rewrite length_map in Hext.
  destruct (image_extension_not_pdf ext Hin) as (_ & Hlen).
  change (length (chars ".pdf")) with 4%nat. lia.
Qed.

(* ===================================================================== *)
(** * Sorting                                                             *)
(* ===================================================================== *)

Section SortFacts.

Context {K A : Type}.
Variable lt : K -> K -> result bool.

Lemma insert_sorted_perm (x : K * A) (l r : list (K * A)) :
  insert_sorted lt x l = Ok r -> Permutation r (x :: l).
Proof.
  revert r. induction l as [|y l IH]; intros r; cbn [insert_sorted].
  - now intros [= <-].
  - intros H. step_result H. destruct a.
    + step_result H. injection H as <-.
      rewrite (IH _ eq_refl). apply perm_swap.
    + now injection H as <-.
Qed.

Lemma sort_decorated_perm (l r : list (K * A)) :
  sort_decorated lt l = Ok r -> Permutation r l.
Proof.
  revert r. induction l as [|x l IH]; intros r; cbn [sort_decorated].
  - now intros [= <-].
  - intros H. step_result H. apply insert_sorted_perm in H.
    rewrite H. constructor. now apply IH.
Qed.

Lemma map_snd_combine (keys : list K) (l : list A) :
  length keys = length l -> map snd (combine keys l) = l.
Proof.
  revert keys. induction l as [|x l IH]; intros [|k keys]; simpl;
    try discriminate; try reflexivity.
  intros [= H]. now rewrite IH.
Qed.

(** Sorting returns the elements it was given. *)
Lemma sort_by_key_perm (keys : list K) (l r : list A) :
  length keys = length l ->
  sort_by_key lt keys l = Ok r -> Permutation r l.
Proof.
  unfold sort_by_key. intros Hlen H. step_result H. injection H as <-.
  apply sort_decorated_perm in E.
  rewrite <- (map_snd_combine keys l Hlen).
  now apply Permutation_map.
Qed.

Variable good : K -> Prop.
Hypothesis lt_defined :
  forall a b, good a -> good b -> exists r, lt a b = Ok r.

Lemma insert_sorted_defined (x : K * A) (l : list (K * A)) :
  good (fst x) -> Forall (fun y => good (fst y)) l ->
  exists r, insert_sorted lt x l = Ok r.
Proof.
  intros Hx. induction l as [|y l IH]; intros Hl; cbn [insert_sorted]; eauto.
  inversion Hl as [|? ? Hy Hl']; subst.
  destruct (lt_defined _ _ Hy Hx) as [b ->]. cbn [Py.bind].
  destruct b; eauto.
  destruct (IH Hl') as [r ->]. cbn [Py.bind]. eauto.
Qed.

Lemma sort_decorated_defined (l : list (K * A)) :
  Forall (fun y => good (fst y)) l ->
  exists r, sort_decorated lt l = Ok r.
Proof.
  induction l as [|x l IH]; intros Hl; cbn [sort_decorated]; eauto.
  inversion Hl as [|? ? Hx Hl']; subst.
  destruct (IH Hl') as [r Hr]. rewrite Hr. cbn [Py.bind].
  apply insert_sorted_defined; [exact Hx|].
  apply sort_decorated_perm in Hr.
  eapply Permutation_Forall; [symmetry; exact Hr|exact Hl'].
Qed.

(** Sorting does not raise when the comparison does not. *)
Lemma sort_by_key_defined (keys : list K) (l : list A) :
  Forall good keys -> exists r, sort_by_key lt keys l = Ok r.
Proof.
  intros Hkeys. unfold sort_by_key.
  destruct (sort_decorated_defined (combine keys l)) as [r ->]; [|cbn; eauto].
  revert l. induction Hkeys as [|k keys Hk Hkeys IH]; intros [|x l]; simpl;
    constructor; auto.
Qed.

End SortFacts.



(** Sorting the images leaves the world as it is and returns the same
    images in some order. *)
Lemma sort_images_ok (directory : string) (sort_by_time : bool)
    (images sorted : list string) (w w' : World) :
  sort_images directory sort_by_time images w = (Ok sorted, w') ->
  w' = w /\ Permutation sorted images.
Proof.
  unfold sort_images. destruct sort_by_time.
  - intros H. apply mbind_ok in H as (keys & w1 & Hkeys & H).
    apply map_m_getctime_ok in Hkeys as (-> & Hlen).
    apply lift_ok in H as (H & ->). split; [reflexivity|].
    eapply sort_by_key_perm; eassumption.
  - intros H. apply lift_ok in H as (H & ->). split; [reflexivity|].
    eapply sort_by_key_perm; [|eassumption]. now rewrite length_map.
Qed.

(* ===================================================================== *)
(** * The whole run                                                       *)
(* ===================================================================== *)

Lemma delete_all_lookup_in (paths : list string) (m : gmap string node) (p : string) :
  In p paths -> delete_all paths m !! p = None.
Proof.
  unfold delete_all. revert m.
  induction paths as [|q paths IH]; intros m; [contradiction|].
  cbn [fold_left]. intros [->|Hin].
  - clear IH. generalize (lookup_delete_eq m p).
    generalize (delete p m). clear m.
    induction paths as [|q paths IH]; intros m Hm; [exact Hm|].
    cbn [fold_left]. apply IH.
    destruct (decide (q = p)) as [->|Hne].
    + apply lookup_delete_eq.
    + now rewrite lookup_delete_ne.
  - now apply IH.
Qed.

Lemma delete_all_lookup_notin (paths : list string) (m : gmap string node) (p : string) :
  ~ In p paths -> delete_all paths m !! p = m !! p.
Proof.
  unfold delete_all. revert m.
  induction paths as [|q paths IH]; intros m Hnot; [reflexivity|].
  cbn [fold_left]. rewrite IH.
  - apply lookup_delete_ne. intros ->. apply Hnot. now left.
  - intros Hin. apply Hnot. now right.
Qed.

Lemma put_temps_lookup_other (c : string) (t first : Z) (pages : list Image)
    (m : gmap string node) (p : string) :
  (forall q, p <> temp_path c q) ->
  put_temps c t first pages m !! p = m !! p.
Proof.
  intros Hne. revert first m.
  induction pages as [|page pages IH]; intros first m; cbn [put_temps];
    [reflexivity|].
  rewrite IH. apply lookup_insert_ne. intros E. now apply (Hne first).
Qed.

(** A loop that removes the files [g x], for [x] in [l]. *)
Lemma for_each_remove_ok {A} (g : A -> string) (l : list A) (w w' : World) :
  for_each l (fun x => remove (g x)) w = (Ok tt, w') ->
  exists paths,
    Forall2 (fun x p => resolve w (g x) = Ok p) l paths /\
    cwd w' = cwd w /\ clock w' = clock w /\ stdout w' = stdout w /\
    fs w' = delete_all paths (fs w) /\
    trace w' = trace w ++ map Removed paths.
Proof.
  revert w. induction l as [|x l IH]; intros w H; cbn [for_each] in H.
  - apply ret_ok in H as (_ & ->). exists []. cbn.
    rewrite app_nil_r. repeat split. constructor.
  - apply mbind_ok in H as ([] & w1 & Hx & H).
    apply remove_ok in Hx as (p & t & content & Hp & _ & ->).
    apply IH in H as (paths & Hall & Hcwd & Hclock & Hout & Hfs & Htrace).
    exists (p :: paths). cbn [cwd clock stdout fs trace log set_fs] in *.
    repeat split; try assumption.
    + constructor; [exact Hp|].
      eapply Forall2_impl; [exact Hall|]. intros y q Hq. exact Hq.
    + rewrite Htrace, <- app_assoc. reflexivity.
Qed.

Lemma Forall2_map_eq {A B} (f : A -> B) (l : list A) (r : list B) :
  Forall2 (fun x y => y = f x) l r -> r = map f l.
Proof. induction 1 as [|x y l r -> _ IH]; simpl; [reflexivity|now rewrite IH]. Qed.

Section RunFacts.

Variable fonts : Fonts.
Variable directory : string.
Variable images_per_page : Z.
Variable delete_images : bool.
Variable margin : Z.
Variable label_images : bool.
Variable sort_by_time : bool.

(** A run of the conversion that does not raise, step by step. *)
Lemma convert_ok (images : list string) (w w' : World) :
  convert fonts directory images_per_page delete_images margin label_images
    sort_by_time images w = (Ok tt, w') ->
  exists sorted v w1 out removed,
    sort_images directory sort_by_time images w = (Ok sorted, w) /\
    Permutation sorted images /\
    images_per_page <> 0 /\
    for_fold (enumerate sorted)
      (loop_body fonts directory images_per_page margin label_images
         (Z.of_nat (length sorted)) (snd A4_PAGE_SIZE / images_per_page))
      initial_vars w = (Ok v, w1) /\
    resolve w (output_pdf_path directory) = Ok out /\
    (if delete_images
     then Forall2 (fun f p => resolve w (join directory f) = Ok p) sorted removed
     else removed = []) /\
    let temps :=
      map (temp_path (cwd w)) (range 1 (1 + Z.of_nat (length (pdf_merger v)))) in
    cwd w' = cwd w /\ clock w' = clock w /\
    stdout w' =
      stdout w ++
      ["PDF created successfully at: " +:+ output_pdf_path directory] ++
      (if delete_images then ["Original images have been deleted."] else []) /\
    trace w' =
      trace w ++ map Wrote temps ++ [Wrote out] ++ map Removed temps ++
      map Removed removed /\
    fs w' =
      delete_all removed
        (delete_all temps
           (<[out := File (clock w) (PdfData (pdf_merger v))]>
              (put_temps (cwd w) (clock w) 1 (pdf_merger v) (fs w)))).
Proof.
  unfold convert. intros H.
  apply mbind_ok in H as (sorted & w1 & Hsort & H).
  pose proof (sort_images_ok _ _ _ _ _ _ Hsort) as (-> & Hperm).
  apply mbind_ok in H as (h & w1 & Hh & H).
  apply lift_ok in Hh as (Hh & ->).
  unfold floordiv in Hh.
  destruct (images_per_page =? 0) eqn:Hk; [discriminate|].
  apply Z.eqb_neq in Hk. injection Hh as <-.
  apply mbind_ok in H as (v & w1 & Hloop & H).
  destruct (loop_ok_any _ _ _ _ _ _ _ _ _ _ Hloop)
    as ((Hcwd & Hclock & Hout & Hpn & Hfs & Htrace) & _ & _).
  apply mbind_ok in H as ([] & w2 & Hwrite & H).
  apply write_file_ok in Hwrite as (out & Hres & ->).
  rewrite (resolve_same_cwd w1 w _ Hcwd) in Hres.
  apply mbind_ok in H as ([] & w3 & Htemps & H).
  apply for_each_remove_ok in Htemps
    as (temps & Hall & Hcwd3 & Hclock3 & Hout3 & Hfs3 & Htrace3).
  cbn [cwd clock stdout fs trace log set_fs] in *.
  assert (temps = map (temp_path (cwd w)) (range 1 (page_number v))) as ->.
  { apply Forall2_map_eq. eapply Forall2_impl; [exact Hall|].
    intros i p Hp. cbn beta in Hp. rewrite resolve_temp in Hp.
    cbn [cwd log set_fs] in Hp. rewrite Hcwd in Hp. now injection Hp. }
  apply mbind_ok in H as ([] & w4 & Hprint & H).
  unfold print in Hprint. injection Hprint as <-.
  rewrite Hpn in *.
  destruct delete_images.
  - apply mbind_ok in H as ([] & w5 & Hdel & H).
    apply for_each_remove_ok in Hdel
      as (removed & Hall5 & Hcwd5 & Hclock5 & Hout5 & Hfs5 & Htrace5).
    unfold print in H. injection H as <-.
    cbn [cwd clock stdout fs trace log set_fs] in *.
    exists sorted, v, w1, out, removed.
    repeat split; try assumption.
    + eapply Forall2_impl; [exact Hall5|]. intros f p Hp. cbn beta in Hp.
      rewrite <- Hp. apply resolve_same_cwd. cbn [cwd]. congruence.
    + congruence.
    + congruence.
    + rewrite Hout5, Hout3, Hout, <- app_assoc. reflexivity.
    + rewrite Htrace5, Htrace3, Htrace, <- !app_assoc. cbn [cwd].
      rewrite !map_map. reflexivity.
    + rewrite Hfs5, Hfs3, Hfs, Hclock. reflexivity.
  - apply ret_ok in H as (_ & ->).
    cbn [cwd clock stdout fs trace log set_fs] in *.
    exists sorted, v, w1, out, [].
    repeat split; try assumption.
    + congruence.
    + congruence.
    + rewrite Hout3, Hout. reflexivity.
    + rewrite Htrace3, Htrace, <- !app_assoc. cbn [map]. rewrite app_nil_r.
      rewrite !map_map. reflexivity.
    + cbn [delete_all fold_left]. rewrite Hfs3, Hfs, Hclock. reflexivity.
Qed.

End RunFacts.

(* ===================================================================== *)
(** * Listing a directory                                                 *)
(* ===================================================================== *)

Lemma strip_prefix_spec (pre s rest : string) :
  strip_prefix pre s = Some rest -> s = pre +:+ rest.
Proof.
  revert s. induction pre as [|a pre IH]; intros s; cbn [strip_prefix].
  - now intros [= ->].
  - destruct s as [|b s]; [discriminate|].
    destruct (Ascii.eqb a b) eqn:E; [|discriminate].
    apply Ascii.eqb_eq in E. subst b. intros H.
    rewrite app_cons. f_equal. now apply IH.
Qed.

Lemma startswith_sep_cons (c : ascii) (s : string) :
  startswith (String c s) sep = Ascii.eqb c "/".
Proof.
  unfold startswith, sep. cbn [String.prefix].
  destruct (ascii_dec "/" c) as [<-|Hne].
  - now destruct s.
  - symmetry. apply Ascii.eqb_neq. congruence.
Qed.

Lemma has_sep_startswith (s : string) :
  has_sep s = false -> startswith s sep = false.
Proof.
  destruct s as [|c s]; [reflexivity|].
  rewrite startswith_sep_cons. cbn [has_sep].
  intros H. now apply orb_false_iff in H as [H _].
Qed.

(** Joining a path that is not absolute puts a prefix before it, and the
    prefix is the same for every such path. *)
Lemma join_relative (a b : string) :
  startswith b sep = false -> join a b = join a EmptyString +:+ b.
Proof.
  intros Hb. unfold join. rewrite Hb.
  change (startswith EmptyString sep) with false. cbv iota.
  destruct a as [|c a]; [reflexivity|].
  destruct (endswith (String c a) sep).
  - now rewrite app_empty_r.
  - now rewrite !app_assoc', app_nil.
Qed.

Lemma endswith_app (a b suf : string) :
  (String.length suf <= String.length b)%nat ->
  endswith (a +:+ b) suf = endswith b suf.
Proof.
  intros Hlen.
  destruct (endswith b suf) eqn:E.
  - apply endswith_suffix. apply endswith_suffix in E.
    rewrite chars_app. now apply suffix_app_r.
  - destruct (endswith (a +:+ b) suf) eqn:E'; [|reflexivity].
    apply endswith_suffix in E'. rewrite chars_app in E'.
    assert (chars suf `suffix_of` chars b) as H.
    { eapply suffix_of_suffix; [exact E'|now apply suffix_app_r|].
      now rewrite !chars_length. }
    apply endswith_suffix in H. congruence.
Qed.

Lemma join_app_empty (q d : string) :
  d <> EmptyString ->
  join (q +:+ d) EmptyString = q +:+ join d EmptyString.
Proof.
  intros Hd. destruct d as [|c d]; [contradiction|].
  unfold join. change (startswith EmptyString sep) with false. cbv iota.
  assert (exists c' r, q +:+ String c d = String c' r) as (c' & r & E).
  { destruct q; [rewrite app_nil|rewrite app_cons]; eauto. }
  rewrite E, <- E.
  rewrite (endswith_app q (String c d) sep) by (simpl; lia).
  destruct (endswith (String c d) sep); now rewrite !app_assoc'.
Qed.

Lemma child_name_spec (d key f : string) :
  child_name d key = Some f ->
  key = join d EmptyString +:+ f /\ has_sep f = false /\ f <> EmptyString.
Proof.
  unfold child_name.
  destruct (strip_prefix (join d EmptyString) key) as [[|c rest]|] eqn:E;
    try discriminate.
  destruct (has_sep (String c rest)) eqn:Hs; [discriminate|].
  intros [= <-]. apply strip_prefix_spec in E. auto.
Qed.

Lemma Ok_inj {A} (a b : A) : Ok a = Ok b -> a = b.
Proof. congruence. Qed.

Lemma resolve_cons (w : World) (c : ascii) (s : string) :
  resolve w (String c s) =
  Ok (if Ascii.eqb c "/" then String c s else join (cwd w) (String c s)).
Proof. unfold resolve. now rewrite startswith_sep_cons. Qed.

(** The path of an entry of a listed directory. *)
Lemma resolve_child (w : World) (directory d f : string) :
  resolve w directory = Ok d ->
  has_sep f = false -> f <> EmptyString ->
  resolve w (join directory f) = Ok (join d EmptyString +:+ f).
Proof.
  intros Hd Hsep Hf.
  pose proof (has_sep_startswith f Hsep) as Hrel.
  destruct directory as [|c dir]; [discriminate|].
  rewrite resolve_cons in Hd. apply Ok_inj in Hd. subst d.
  rewrite (join_relative (String c dir) f Hrel).
  assert (exists r, join (String c dir) EmptyString +:+ f = String c r) as (r & E).
  { unfold join. change (startswith EmptyString sep) with false. cbv iota.
    destruct (endswith (String c dir) sep); rewrite !app_cons; eauto. }
  rewrite E, resolve_cons, <- E. f_equal.
  destruct (Ascii.eqb c "/") eqn:Hc; [reflexivity|].
  assert (startswith (String c dir) sep = false) as Hrel'
    by now rewrite startswith_sep_cons.
  assert (startswith (join (String c dir) EmptyString +:+ f) sep = false) as Hrel''
    by now rewrite E, startswith_sep_cons.
  rewrite (join_relative (cwd w) _ Hrel''), (join_relative (cwd w) _ Hrel').
  rewrite join_app_empty by discriminate.
  now rewrite !app_assoc'.
Qed.

Lemma listdir_ok (directory : string) (w w' : World) (names : list string) :
  listdir directory w = (Ok names, w') ->
  w' = w /\
  forall f, In f names ->
    exists p node, resolve w (join directory f) = Ok p /\ fs w !! p = Some node.
Proof.
  unfold listdir.
  destruct (resolve w directory) as [d|e] eqn:Hd; [|discriminate].
  destruct (fs w !! d) as [[t|t c]|]; try discriminate.
  intros [= <- <-]. split; [reflexivity|].
  intros f Hf. apply list_elem_of_In in Hf.
  apply list_elem_of_omap in Hf as ([key node] & Hin & Hchild).
  apply elem_of_map_to_list in Hin. cbn [fst] in Hchild.
  apply child_name_spec in Hchild as (-> & Hsep & Hne).
  exists (join d EmptyString +:+ f), node. split; [|exact Hin].
  now apply resolve_child.
Qed.

Lemma listdir_same_world (directory : string) (w : World) :
  snd (listdir directory w) = w.
Proof.
  unfold listdir. destruct (resolve w directory) as [d|e]; [|reflexivity].
  destruct (fs w !! d) as [[|]|]; reflexivity.
Qed.



(* ===================================================================== *)
(** * images_to_pdf                                                       *)
(* ===================================================================== *)

Lemma Forall2_In_r {A B} (R : A -> B -> Prop) (l : list A) (r : list B) (y : B) :
  Forall2 R l r -> In y r -> exists x, In x l /\ R x y.
Proof.
  induction 1 as [|a b l r Hab _ IH]; [contradiction|].
  intros [<-|Hin].
  - exists a. split; [now left|exact Hab].
  - destruct (IH Hin) as (x & Hx & Hr). exists x. split; [now right|exact Hr].
Qed.

Lemma Forall2_In_l {A B} (R : A -> B -> Prop) (l : list A) (r : list B) (x : A) :
  Forall2 R l r -> In x l -> exists y, In y r /\ R x y.
Proof.
  induction 1 as [|a b l r Hab _ IH]; [contradiction|].
  intros [<-|Hin].
  - exists b. split; [now left|exact Hab].
  - destruct (IH Hin) as (y & Hy & Hr). exists y. split; [now right|exact Hr].
Qed.

(** A cell composited with a label shows that label. *)
Lemma cell_label_ok (fonts : Fonts) (image : Image) (page_size : Z * Z)
    (margin : Z) (text : string) (cell : Image) :
  truthy (Some text) = true ->
  resize_and_align_image fonts image page_size margin (Some text) = Ok cell ->
  cell_label cell = Some text.
Proof.
  intros Ht. unfold resize_and_align_image. intros H.
  step_result H. destruct a as [new_width new_height].
  step_result H. step_result H. step_result H.
  rewrite Ht in H. injection H as <-. reflexivity.
Qed.

Section PipelineFacts.

Variable fonts : Fonts.
Variable directory : string.
Variable images_per_page : Z.
Variable delete_images : bool.
Variable margin : Z.
Variable label_images : bool.
Variable sort_by_time : bool.

Abbreviation run :=
  (images_to_pdf fonts directory images_per_page delete_images margin
     label_images sort_by_time).

Lemma images_to_pdf_unfold (w : World) (names : list string) :
  fst (listdir directory w) = Ok names ->
  run w =
  match List.filter is_image_name names with
  | [] => print "No images found in the directory." w
  | _ :: _ =>
      convert fonts directory images_per_page delete_images margin label_images
        sort_by_time (List.filter is_image_name names) w
  end.
Proof.
  intros Hlist. unfold images_to_pdf, mbind.
  pose proof (listdir_same_world directory w) as Hw.
  destruct (listdir directory w) as [r w1]. cbn [fst snd] in Hlist, Hw.
  subst r w1. now destruct (List.filter is_image_name names).
Qed.

(** A run over at least one image that does not raise: what was sorted,
    what the loop left, and the world at the end. *)
Lemma run_ok (w w' : World) (names : list string) :
  fst (listdir directory w) = Ok names ->
  List.filter is_image_name names <> [] ->
  run w = (Ok tt, w') ->
  exists sorted v w1 out removed,
    sort_images directory sort_by_time (List.filter is_image_name names) w
      = (Ok sorted, w) /\
    Permutation sorted (List.filter is_image_name names) /\
    images_per_page <> 0 /\
    for_fold (enumerate sorted)
      (loop_body fonts directory images_per_page margin label_images
         (Z.of_nat (length sorted)) (snd A4_PAGE_SIZE / images_per_page))
      initial_vars w = (Ok v, w1) /\
    (let h := snd A4_PAGE_SIZE / images_per_page in
     LoopInvariants.cells_inv fonts directory margin label_images sorted h w
       (length sorted) v /\
     current_images v = [] /\
     (1 <= images_per_page ->
      LoopInvariants.count_inv images_per_page sorted (length sorted) v)) /\
    resolve w (output_pdf_path directory) = Ok out /\
    (if delete_images
     then Forall2 (fun f p => resolve w (join directory f) = Ok p) sorted removed
     else removed = []) /\
    (let temps :=
       map (temp_path (cwd w)) (range 1 (1 + Z.of_nat (length (pdf_merger v)))) in
     cwd w' = cwd w /\ clock w' = clock w /\
     stdout w' =
       stdout w ++
       ["PDF created successfully at: " +:+ output_pdf_path directory] ++
       (if delete_images then ["Original images have been deleted."] else []) /\
     trace w' =
       trace w ++ map Wrote temps ++ [Wrote out] ++ map Removed temps ++
       map Removed removed /\
     fs w' =
       delete_all removed
         (delete_all temps
            (<[out := File (clock w) (PdfData (pdf_merger v))]>
               (put_temps (cwd w) (clock w) 1 (pdf_merger v) (fs w))))) /\
    fs w' !! out = Some (File (clock w) (PdfData (pdf_merger v))).
Proof.
  intros Hlist Hne Hrun.
  rewrite (images_to_pdf_unfold w names Hlist) in Hrun.
  destruct (List.filter is_image_name names) as [|f0 images0] eqn:Himgs;
    [contradiction|].
  rewrite <- Himgs in *. clear Hne.
  apply convert_ok in Hrun
    as (sorted & v & w1 & out & removed & Hsort & Hperm & Hk & Hloop & Hout &
        Hrem & Hfinal).
  cbv zeta in Hfinal. destruct Hfinal as (Hcwd & Hclock & Hstd & Htrace & Hfs).
  exists sorted, v, w1, out, removed.
  destruct (loop_ok_any _ _ _ _ _ _ _ _ _ _ Hloop) as (_ & Hcells & Hflushed).
  assert (forall f, In f sorted -> is_image_name f = true) as Himage.
  { intros f Hf. eapply Permutation_in in Hf; [|exact Hperm].
    now apply filter_In in Hf as [_ Hf]. }
  cbv zeta.
  repeat match goal with |- _ /\ _ => split end; try assumption.
  - intros Hk1. eapply loop_ok; [exact Hk1| |exact Hloop].
    assert (length sorted <> O); [|lia].
    apply Permutation_length in Hperm. rewrite Hperm, Himgs. discriminate.
  - rewrite Hfs.
    rewrite delete_all_lookup_notin.
    + rewrite delete_all_lookup_notin; [apply lookup_insert_eq|].
      intros Hin. apply in_map_iff in Hin as (q & Hq & _).
      symmetry in Hq. now apply (output_not_temp w directory out (cwd w) q).
    + intros Hin. destruct delete_images; [|subst removed; contradiction].
      destruct (Forall2_In_r _ _ _ _ Hrem Hin) as (f & Hf & Hp).
      now apply (output_not_image w directory out f out Hout (Himage f Hf)).
Qed.

End PipelineFacts.

(* ===================================================================== *)
(** * The files a run touches, whatever its outcome                       *)
(* ===================================================================== *)

Section Respects.

Variable ok : event -> Prop.
Variable w0 : World.

Lemma extends_refl (w : World) : extends ok w w.
Proof.
  split; [reflexivity|]. exists []. split; [now rewrite app_nil_r|constructor].
Qed.

Lemma extends_trans (w1 w2 w3 : World) :
  extends ok w1 w2 -> extends ok w2 w3 -> extends ok w1 w3.
Proof.
  intros (C1 & e1 & T1 & F1) (C2 & e2 & T2 & F2). split; [congruence|].
  exists (e1 ++ e2). split.
  - now rewrite T2, T1, app_assoc.
  - now apply Forall_app.
Qed.

Lemma respects_pure {A} (m : M A) :
  (forall w, snd (m w) = w) -> respects ok w0 m.
Proof.
  intros H w r w' _ E. specialize (H w). rewrite E in H. cbn in H. subst w'.
  apply extends_refl.
Qed.

Lemma respects_ret {A} (a : A) : respects ok w0 (ret a).
Proof. now apply respects_pure. Qed.

Lemma respects_lift {A} (r : result A) : respects ok w0 (lift r).
Proof. now apply respects_pure. Qed.

Lemma respects_print (line : string) : respects ok w0 (print line).
Proof.
  intros w r w' _ E. unfold print in E. injection E as _ <-.
  split; [reflexivity|]. exists []. cbn. split; [now rewrite app_nil_r|constructor].
Qed.

Lemma respects_read_file (path : string) : respects ok w0 (read_file path).
Proof.
  apply respects_pure. intros w. unfold read_file.
  destruct (resolve w path) as [p|e]; [|reflexivity].
  destruct (fs w !! p) as [[|]|]; reflexivity.
Qed.

Lemma respects_bind {A B} (m : M A) (k : A -> M B) :
  respects ok w0 m ->
  (forall w a w', cwd w = cwd w0 -> m w = (Ok a, w') -> respects ok w0 (k a)) ->
  respects ok w0 (mbind m k).
Proof.
  intros Hm Hk w r w' Hcwd E. unfold mbind in E.
  destruct (m w) as [[a|e] w1] eqn:Em.
  - pose proof (Hm w _ _ Hcwd Em) as H1.
    eapply extends_trans; [exact H1|].
    apply (Hk w a w1 Hcwd Em w1 r w'); [|exact E].
    destruct H1 as [H1 _]. congruence.
  - injection E as _ <-. exact (Hm w _ _ Hcwd Em).
Qed.

Lemma respects_image_open (path : string) : respects ok w0 (image_open path).
Proof.
  unfold image_open. apply respects_bind; [apply respects_read_file|].
  intros w [im|pages|] w' _ _; apply respects_pure; reflexivity.
Qed.

Lemma respects_read_pdf (path : string) : respects ok w0 (read_pdf path).
Proof.
  unfold read_pdf. apply respects_bind; [apply respects_read_file|].
  intros w [im|pages|] w' _ _; apply respects_pure; reflexivity.
Qed.

Lemma respects_getctime (path : string) : respects ok w0 (getctime path).
Proof.
  apply respects_pure. intros w. unfold getctime.
  destruct (resolve w path) as [p|e]; [|reflexivity].
  destruct (fs w !! p); reflexivity.
Qed.

Lemma respects_listdir (path : string) : respects ok w0 (listdir path).
Proof. apply respects_pure. apply listdir_same_world. Qed.

Lemma respects_write_file (path : string) (content : body) :
  (forall p, resolve w0 path = Ok p -> ok (Wrote p)) ->
  respects ok w0 (write_file path content).
Proof.
  intros Hok w r w' Hcwd E. unfold write_file in E.
  destruct (resolve w path) as [p|e] eqn:Hp; [|injection E as _ <-; apply extends_refl].
  rewrite (resolve_same_cwd w w0 _ Hcwd) in Hp.
  destruct (fs w !! p) as [[t|t c]|]; injection E as _ <-;
    try apply extends_refl;
    (split; [reflexivity|]; exists [Wrote p]; split; [reflexivity|]; auto).
Qed.

Lemma respects_remove (path : string) :
  (forall p, resolve w0 path = Ok p -> ok (Removed p)) ->
  respects ok w0 (remove path).
Proof.
  intros Hok w r w' Hcwd E. unfold remove in E.
  destruct (resolve w path) as [p|e] eqn:Hp; [|injection E as _ <-; apply extends_refl].
  rewrite (resolve_same_cwd w w0 _ Hcwd) in Hp.
  destruct (fs w !! p) as [[t|t c]|]; injection E as _ <-;
    try apply extends_refl;
    (split; [reflexivity|]; exists [Removed p]; split; [reflexivity|]; auto).
Qed.

Lemma respects_for_each {A} (l : list A) (f : A -> M unit) :
  (forall x, In x l -> respects ok w0 (f x)) ->
  respects ok w0 (for_each l f).
Proof.
  induction l as [|x l IH]; intros H; cbn [for_each].
  - apply respects_ret.
  - apply respects_bind; [apply H; now left|].
    intros _ _ _ _ _. apply IH. intros y Hy. apply H. now right.
Qed.

Lemma respects_for_fold {A S} (l : list A) (f : S -> A -> M S) (s : S) :
  (forall s x, In x l -> respects ok w0 (f s x)) ->
  respects ok w0 (for_fold l f s).
Proof.
  revert s. induction l as [|x l IH]; intros s H; cbn [for_fold].
  - apply respects_ret.
  - apply respects_bind; [apply H; now left|].
    intros _ s' _ _ _. apply IH. intros t y Hy. apply H. now right.
Qed.

Lemma respects_map_m {A B} (f : A -> M B) (l : list A) :
  (forall x, respects ok w0 (f x)) -> respects ok w0 (map_m f l).
Proof.
  intros H. induction l as [|x l IH]; cbn [map_m].
  - apply respects_ret.
  - apply respects_bind; [apply H|]. intros _ y _ _ _.
    apply respects_bind; [exact IH|]. intros _ ys _ _ _. apply respects_ret.
Qed.

End Respects.

Section RunRespects.

Variable fonts : Fonts.
Variable directory : string.
Variable images_per_page : Z.
Variable delete_images : bool.
Variable margin : Z.
Variable label_images : bool.
Variable sort_by_time : bool.
Variable w0 : World.
Variable names : list string.

Hypothesis listed : fst (listdir directory w0) = Ok names.

Abbreviation ok := (run_event directory w0).

Lemma temp_event_written (q : Z) (p : string) :
  resolve w0 (temp_pdf_name q) = Ok p -> ok (Wrote p).
Proof. rewrite resolve_temp. intros [= <-]. left. eauto. Qed.

Lemma temp_event_removed (q : Z) (p : string) :
  resolve w0 (temp_pdf_name q) = Ok p -> ok (Removed p).
Proof. rewrite resolve_temp. intros [= <-]. left. eauto. Qed.

Lemma respects_sort_images (images : list string) :
  respects ok w0 (sort_images directory sort_by_time images).
Proof.
  unfold sort_images. destruct sort_by_time; [|apply respects_lift].
  apply respects_bind.
  - apply respects_map_m. intros x. apply respects_getctime.
  - intros _ keys _ _ _. apply respects_lift.
Qed.

Lemma respects_loop_body (n h : Z) (v : loop_vars) (item : Z * string) :
  respects ok w0
    (loop_body fonts directory images_per_page margin label_images n h v item).
Proof.
  unfold loop_body.
  apply respects_bind; [apply respects_image_open|]. intros _ img _ _ _.
  apply respects_bind; [apply respects_lift|]. intros _ cell _ _ _.
  apply respects_bind; [apply respects_lift|]. intros _ r _ _ _.
  destruct ((r =? 0) || (fst item =? n - 1)); [|apply respects_ret].
  apply respects_bind.
  - unfold save_pdf. apply respects_write_file. apply temp_event_written.
  - intros _ _ _ _ _.
    apply respects_bind; [apply respects_read_pdf|]. intros _ pages _ _ _.
    apply respects_ret.
Qed.

Lemma respects_convert (images : list string) :
  (forall f, In f images -> In f names /\ is_image_name f = true) ->
  respects ok w0
    (convert fonts directory images_per_page delete_images margin label_images
       sort_by_time images).
Proof.
  intros Himages. unfold convert.
  apply respects_bind; [apply respects_sort_images|].
  intros w sorted w1 _ Hsort.
  apply sort_images_ok in Hsort as (_ & Hperm).
  apply respects_bind; [apply respects_lift|]. intros _ h _ _ _.
  apply respects_bind.
  { apply respects_for_fold. intros s x _. apply respects_loop_body. }
  intros _ v _ _ _.
  apply respects_bind.
  { apply respects_write_file. intros p Hp. right. exact Hp. }
  intros _ _ _ _ _.
  apply respects_bind.
  { apply respects_for_each. intros q _. apply respects_remove.
    apply temp_event_removed. }
  intros _ _ _ _ _.
  apply respects_bind; [apply respects_print|]. intros _ _ _ _ _.
  destruct delete_images; [|apply respects_ret].
  apply respects_bind; [|intros _ _ _ _ _; apply respects_print].
  apply respects_for_each. intros f Hf. apply respects_remove.
  intros p Hp. right. exists names, f.
  destruct (Himages f) as (Hin & Himg);
    [eapply Permutation_in; [exact Hperm|exact Hf]|].
  repeat split; assumption.
Qed.

(** A run started in [w0], where the listing gives [names]. *)
Lemma respects_listed (r : result unit) (w' : World) :
  images_to_pdf fonts directory images_per_page delete_images margin
    label_images sort_by_time w0 = (r, w') ->
  extends ok w0 w'.
Proof.
  rewrite (images_to_pdf_unfold _ _ _ _ _ _ _ w0 names listed).
  destruct (List.filter is_image_name names) as [|f images] eqn:E.
  - exact (respects_print ok w0 _ w0 r w' eq_refl).
  - rewrite <- E. apply (respects_convert (List.filter is_image_name names));
      [|reflexivity].
    intros g Hg. now apply filter_In in Hg.
Qed.

End RunRespects.

(** Whatever the outcome of [images_to_pdf], every file it wrote is a
    temporary file of the working directory or the output file, and every
    file it removed is such a temporary file or an image that the listing
    of the target directory names. *)
Lemma respects_images_to_pdf (fonts : Fonts) (directory : string)
    (images_per_page : Z) (delete_images : bool) (margin : Z)
    (label_images sort_by_time : bool) (w w' : World) (r : result unit) :
  images_to_pdf fonts directory images_per_page delete_images margin
    label_images sort_by_time w = (r, w') ->
  extends (run_event directory w) w w'.
Proof.
  intros Hrun.
  destruct (listdir directory w) as [[names|e] w1] eqn:E.
  - apply (respects_listed fonts directory images_per_page delete_images
             margin label_images sort_by_time w names) with (r := r);
      [now rewrite E|exact Hrun].
  - pose proof (listdir_same_world directory w) as Hw. rewrite E in Hw.
    cbn [snd] in Hw. subst w1.
    unfold images_to_pdf, mbind in Hrun. rewrite E in Hrun.
    injection Hrun as _ <-. apply extends_refl.
Qed.

(* ===================================================================== *)
(** * The split is maximal; the text of a number                          *)
(* ===================================================================== *)

Lemma re_split_digits_head_text (s : string) :
  starts_with_digit s = false -> s <> EmptyString ->
  exists c text rest, re_split_digits s = String c text :: rest.
Proof.
  destruct s as [|c s]; [contradiction|]. simpl. intros Hc _. rewrite Hc.
  destruct (re_split_digits s); eauto.
Qed.

Lemma re_split_digits_maximal (s : string) : runs_maximal (re_split_digits s).
Proof.
  induction s as [|c s IH]; [exact I|].
  cbn [re_split_digits].
  destruct (re_split_digits_head s) as (text & rest & E & Hd).
  destruct (is_digit c) eqn:Dc.
  - destruct s as [|c' s'].
    + rewrite E. simpl in E. injection E as <- <-. exact I.
    + simpl in Hd. destruct (is_digit c') eqn:Dc'.
      * destruct (Hd eq_refl) as (-> & run & rest' & ->).
        rewrite E in IH |- *. exact IH.
      * destruct (re_split_digits_head_text (String c' s')) as (x & t & r & E');
          [exact Dc'|discriminate|].
        rewrite E' in IH |- *.
        assert (forall l, l = String x t :: r ->
                          runs_maximal (EmptyString :: String c EmptyString :: l)) as H.
        { intros l ->. cbn [runs_maximal]. destruct r as [|y r]; [exact I|].
          split; [discriminate|exact IH]. }
        cbv beta iota. destruct r as [|y r]; [exact I|]. now apply H.
  - rewrite E in IH |- *. destruct rest as [|run rest]; [exact I|]. exact IH.
Qed.

Lemma int_acc_app (x : Z) (s t : string) :
  int_acc x (s +:+ t) = int_acc (int_acc x s) t.
Proof.
  revert x. induction s as [|c s IH]; intros x; [reflexivity|].
  rewrite app_cons. cbn [int_acc]. apply IH.
Qed.

Lemma all_digits_app (s t : string) :
  all_digits (s +:+ t) = all_digits s && all_digits t.
Proof.
  induction s as [|c s IH]; [reflexivity|].
  rewrite app_cons. cbn [all_digits]. now rewrite IH, andb_assoc.
Qed.

Lemma digit_val_digit_char (d : Z) : 0 <= d < 10 -> digit_val (digit_char d) = d.
Proof.
  intros H. unfold digit_val, digit_char, code.
  rewrite N_ascii_embedding by lia. lia.
Qed.

(** With enough fuel the digits written are those of the number. *)
Lemma digits_fuel_value (fuel : nat) (a : Z) (acc : string) :
  0 <= a < 2 ^ Z.of_nat fuel ->
  exists ds,
    digits_fuel fuel a acc = ds +:+ acc /\
    all_digits ds = true /\ int_acc 0 ds = a /\
    (fuel <> O -> ds <> EmptyString).
Proof.
  revert a acc. induction fuel as [|fuel IH]; intros a acc Ha.
  - exists EmptyString. cbn in *. repeat split; lia.
  - cbn [digits_fuel].
    assert (0 <= a mod 10 < 10) as Hd by (apply Z.mod_pos_bound; lia).
    pose proof (Z.div_mod a 10 ltac:(lia)) as Hdm.
    destruct (a / 10 =? 0) eqn:Hq.
    + apply Z.eqb_eq in Hq.
      exists (String (digit_char (a mod 10)) EmptyString).
      cbn [all_digits int_acc]. rewrite digit_char_is_digit by exact Hd.
      rewrite digit_val_digit_char by exact Hd.
      repeat split; try reflexivity; [lia|discriminate].
    + apply Z.eqb_neq in Hq.
      assert (0 <= a / 10 < 2 ^ Z.of_nat fuel) as Hrec.
      { rewrite Nat2Z.inj_succ, Z.pow_succ_r in Ha by lia.
        split; [apply Z.div_pos; lia|].
        apply Z.div_lt_upper_bound; lia. }
      destruct (IH (a / 10) (String (digit_char (a mod 10)) acc) Hrec)
        as (ds & -> & Hall & Hval & _).
      exists (ds +:+ String (digit_char (a mod 10)) EmptyString).
      rewrite app_assoc', app_cons, app_nil.
      rewrite all_digits_app, int_acc_app, Hall, Hval.
      cbn [all_digits int_acc]. rewrite digit_char_is_digit by exact Hd.
      rewrite digit_val_digit_char by exact Hd.
      repeat split; try reflexivity; [lia|].
      intros _ E. destruct ds; discriminate E.
Qed.

(** [str] of a number that is not negative is its decimal text: digits
    only, at least one, and [int] reads the number back. *)
Lemma str_of_int_value (n : Z) :
  0 <= n ->
  isdigit (str_of_int n) = true /\ int_of_digits (str_of_int n) = n.
Proof.
  intros Hn. unfold str_of_int, int_of_digits.
  assert ((n <? 0) = false) as -> by (apply Z.ltb_ge; lia).
  rewrite Z.abs_eq by lia.
  destruct (digits_fuel_value (Datatypes.S (Z.to_nat (Z.log2 n))) n EmptyString)
    as (ds & -> & Hall & Hval & Hne).
  - split; [lia|].
    rewrite Nat2Z.inj_succ, Z2Nat.id by apply Z.log2_nonneg.
    destruct (Z.eq_dec n 0) as [->|Hnz]; [reflexivity|].
    apply Z.log2_spec. lia.
  - rewrite app_empty_r. split; [|exact Hval].
    destruct ds as [|c ds]; [now contradiction Hne|exact Hall].
Qed.

(* ===================================================================== *)
(** * The run with and without the removal of the images                  *)
(* ===================================================================== *)

Section DeleteFacts.

Variable fonts : Fonts.
Variable directory : string.
Variable images_per_page : Z.
Variable margin : Z.
Variable label_images : bool.
Variable sort_by_time : bool.

(** A conversion that removes the images and does not raise does not
    raise either when it is asked to keep them. *)
Lemma convert_without_delete (images : list string) (w w' : World) :
  convert fonts directory images_per_page true margin label_images
    sort_by_time images w = (Ok tt, w') ->
  exists w'',
    convert fonts directory images_per_page false margin label_images
      sort_by_time images w = (Ok tt, w'').
Proof.
  unfold convert. intros H.
  apply mbind_ok in H as (sorted & w1 & E1 & H).
  apply mbind_ok in H as (h & w2 & E2 & H).
  apply mbind_ok in H as (v & w3 & E3 & H).
  apply mbind_ok in H as ([] & w4 & E4 & H).
  apply mbind_ok in H as ([] & w5 & E5 & H).
  apply mbind_ok in H as ([] & w6 & E6 & H).
  exists w6.
  unfold mbind at 1. rewrite E1.
  unfold mbind at 1. rewrite E2.
  unfold mbind at 1. rewrite E3.
  unfold mbind at 1. rewrite E4.
  unfold mbind at 1. rewrite E5.
  unfold mbind at 1. rewrite E6.
  reflexivity.
Qed.

(** The output of a run that removes the images is the output of the run
    that keeps them. *)
Lemma output_without_delete (w w' : World) (names : list string) (out : string) :
  fst (listdir directory w) = Ok names ->
  List.filter is_image_name names <> [] ->
  images_to_pdf fonts directory images_per_page true margin label_images
    sort_by_time w = (Ok tt, w') ->
  resolve w (output_pdf_path directory) = Ok out ->
  exists w'',
    images_to_pdf fonts directory images_per_page false margin label_images
      sort_by_time w = (Ok tt, w'') /\
    fs w'' !! out = fs w' !! out.
Proof.
  intros Hlist Hne Hrun Hout.
  pose proof Hrun as Hconv.
  rewrite (images_to_pdf_unfold fonts directory images_per_page true margin
             label_images sort_by_time w names Hlist) in Hconv.
  assert (exists w'',
             images_to_pdf fonts directory images_per_page false margin
               label_images sort_by_time w = (Ok tt, w'')) as (w'' & Hrun').
  { rewrite (images_to_pdf_unfold fonts directory images_per_page false margin
               label_images sort_by_time w names Hlist).
    destruct (List.filter is_image_name names) as [|f0 rest];
      [now contradiction Hne|].
    exact (convert_without_delete _ _ _ Hconv). }
  exists w''. split; [exact Hrun'|].
  destruct (run_ok _ _ _ _ _ _ _ w w' names Hlist Hne Hrun)
    as (s1 & v1 & u1 & o1 & r1 & Hs1 & _ & _ & Hl1 & _ & Ho1 & _ & _ & Hf1).
  destruct (run_ok _ _ _ _ _ _ _ w w'' names Hlist Hne Hrun')
    as (s2 & v2 & u2 & o2 & r2 & Hs2 & _ & _ & Hl2 & _ & Ho2 & _ & _ & Hf2).
  rewrite Hout in Ho1, Ho2. apply Ok_inj in Ho1, Ho2. subst o1 o2.
  rewrite Hs1 in Hs2. injection Hs2 as <-.
  rewrite Hl1 in Hl2. injection Hl2 as <- <-.
  now rewrite Hf1, Hf2.
Qed.

End DeleteFacts.
(* ===================================================================== *)
(** * The order that sorting gives                                        *)
(* ===================================================================== *)

Section OrderFacts.

Context {K A : Type}.
Variable lt : K -> K -> result bool.
Variable good : K -> Prop.

Hypothesis lt_asym :
  forall a b, good a -> good b -> lt a b = Ok true -> lt b a = Ok false.
Hypothesis le_trans :
  forall a b c, good a -> good b -> good c ->
    lt b a = Ok false -> lt c b = Ok false -> lt c a = Ok false.

Lemma insert_sorted_ordered (x : K * A) (l r : list (K * A)) :
  good (fst x) -> Forall (fun y => good (fst y)) l ->
  ordered lt l -> insert_sorted lt x l = Ok r -> ordered lt r.
Proof.
  intros Hx. revert r.
  induction l as [|y l IH]; intros r Hgood Hord; cbn [insert_sorted].
  - intros [= <-]. cbn. auto.
  - inversion Hgood as [|? ? Hy Hl]; subst.
    destruct Hord as [Hafter Hord].
    intros H. step_result H. destruct a.
    + step_result H. injection H as <-. cbn [ordered]. split.
      * pose proof (insert_sorted_perm lt x l a E0) as Hperm.
        eapply Permutation_Forall; [symmetry; exact Hperm|].
        constructor; [now apply lt_asym|exact Hafter].
      * now apply IH.
    + injection H as <-. cbn [ordered]. split; [|split; assumption].
      constructor; [exact E|].
      rewrite Forall_forall in Hafter, Hl |- *.
      intros z Hz. apply (le_trans (fst x) (fst y) (fst z)); auto.
Qed.

Lemma sort_decorated_ordered (l r : list (K * A)) :
  Forall (fun y => good (fst y)) l ->
  sort_decorated lt l = Ok r -> ordered lt r.
Proof.
  revert r. induction l as [|x l IH]; intros r Hgood; cbn [sort_decorated].
  - intros [= <-]. exact I.
  - inversion Hgood as [|? ? Hx Hl]; subst.
    intros H. step_result H.
    eapply insert_sorted_ordered; [exact Hx| |now apply IH|exact H].
    eapply Permutation_Forall; [symmetry; eapply sort_decorated_perm; exact E|exact Hl].
Qed.

(** A list that is in order already is left as it is. *)
Lemma sort_decorated_fixed (l : list (K * A)) :
  ordered lt l -> sort_decorated lt l = Ok l.
Proof.
  induction l as [|x l IH]; [reflexivity|].
  intros [Hafter Hord]. cbn [sort_decorated]. rewrite (IH Hord). cbn [Py.bind].
  destruct l as [|y l]; [reflexivity|].
  cbn [insert_sorted]. inversion Hafter as [|? ? Hy ?]; subst.
  now rewrite Hy.
Qed.

Lemma ordered_lookup (l : list (K * A)) (i j : nat) (x y : K * A) :
  ordered lt l -> (i < j)%nat -> l !! i = Some x -> l !! j = Some y ->
  lt (fst y) (fst x) = Ok false.
Proof.
  revert i j. induction l as [|z l IH]; intros i j Hord0 Hij Hi Hj.
  - destruct i; discriminate.
  - destruct Hord0 as [Hafter Hord].
    destruct j as [|j]; [lia|]. cbn in Hj.
    destruct i as [|i].
    + injection Hi as <-. rewrite Forall_forall in Hafter.
      apply Hafter. eapply list_elem_of_lookup_2. exact Hj.
    + cbn in Hi. apply (IH i j); [exact Hord|lia|exact Hi|exact Hj].
Qed.

End OrderFacts.

Lemma combine_map_lookup {A K} (key : A -> K) (l : list A) (i : nat) :
  combine (map key l) l !! i = (fun x => (key x, x)) <$> l !! i.
Proof.
  revert i. induction l as [|x l IH]; intros [|i]; cbn; auto.
Qed.

Lemma map_snd_lookup {K A} (l : list (K * A)) (i : nat) (x : A) :
  map snd l !! i = Some x -> exists k, l !! i = Some (k, x).
Proof.
  revert i. induction l as [|[k y] l IH]; intros [|i]; cbn; try discriminate.
  - intros [= ->]. eauto.
  - apply IH.
Qed.

Lemma in_order_ordered {K A} (lt : K -> K -> result bool) (key : A -> K)
    (l : list A) :
  in_order lt key l -> ordered lt (combine (map key l) l).
Proof.
  induction l as [|x l IH]; intros H; [exact I|].
  cbn [map combine ordered]. split.
  - rewrite Forall_forall. intros [k y] Hy.
    apply list_elem_of_lookup_1 in Hy as [j Hj].
    rewrite combine_map_lookup in Hj.
    destruct (l !! j) as [z|] eqn:Hz; [|discriminate].
    injection Hj as <- <-. cbn [fst].
    apply (H O (Datatypes.S j) x z); [lia|reflexivity|exact Hz].
  - apply IH. intros i j a b Hij Ha Hb.
    apply (H (Datatypes.S i) (Datatypes.S j)); [lia|exact Ha|exact Hb].
Qed.

(** Sorting by a key that orders the elements: the result is in order, and
    a list in order already comes back as it is. *)
Lemma sort_by_key_in_order {K A} (lt : K -> K -> result bool)
    (good : K -> Prop) (key : A -> K) (l r : list A) :
  (forall a b, good a -> good b -> lt a b = Ok true -> lt b a = Ok false) ->
  (forall a b c, good a -> good b -> good c ->
     lt b a = Ok false -> lt c b = Ok false -> lt c a = Ok false) ->
  (forall x, good (key x)) ->
  sort_by_key lt (map key l) l = Ok r ->
  in_order lt key r.
Proof.
  intros Hasym Htrans Hgood. unfold sort_by_key. intros H.
  step_result H. injection H as <-.
  assert (Forall (fun y : K * A => fst y = key (snd y)) (combine (map key l) l))
    as Hkeys.
  { rewrite Forall_forall. intros [k y] Hy.
    apply list_elem_of_lookup_1 in Hy as [j Hj].
    rewrite combine_map_lookup in Hj.
    destruct (l !! j); [|discriminate]. now injection Hj as <- <-. }
  pose proof (sort_decorated_perm lt _ _ E) as Hperm.
  assert (Forall (fun y : K * A => fst y = key (snd y)) a) as Hkeys'.
  { eapply Permutation_Forall; [symmetry; exact Hperm|exact Hkeys]. }
  assert (ordered lt a) as Hord.
  { apply (sort_decorated_ordered lt good Hasym Htrans _ _) in E; [exact E|].
    rewrite Forall_forall. intros [k y] Hy.
    rewrite Forall_forall in Hkeys. rewrite (Hkeys _ Hy). apply Hgood. }
  intros i j x y Hij Hx Hy.
  apply map_snd_lookup in Hx as [kx Hx]. apply map_snd_lookup in Hy as [ky Hy].
  rewrite Forall_forall in Hkeys'.
  pose proof (Hkeys' _ (list_elem_of_lookup_2 _ _ _ Hx)) as Ex.
  pose proof (Hkeys' _ (list_elem_of_lookup_2 _ _ _ Hy)) as Ey.
  cbn [fst snd] in Ex, Ey. subst kx ky.
  exact (ordered_lookup lt a i j _ _ Hord Hij Hx Hy).
Qed.

Lemma sort_by_key_fixed {K A} (lt : K -> K -> result bool) (key : A -> K)
    (l : list A) :
  in_order lt key l -> sort_by_key lt (map key l) l = Ok l.
Proof.
  intros H. unfold sort_by_key.
  rewrite (sort_decorated_fixed lt _ (in_order_ordered lt key l H)).
  cbn [Py.bind]. f_equal. apply map_snd_combine. now rewrite length_map.
Qed.

Lemma key_lt_asym (a b : list token) :
  key_form true a -> key_form true b ->
  key_lt a b = Ok true -> key_lt b a = Ok false.
Proof.
  intros Ha Hb H.
  destruct (key_lt_cases true a b Ha Hb) as [(_ & B & _)|[(_ & A' & _)|(_ & A' & _)]];
    [exact B|congruence..].
Qed.

Lemma key_le_trans (a b c : list token) :
  key_form true a -> key_form true b -> key_form true c ->
  key_lt b a = Ok false -> key_lt c b = Ok false -> key_lt c a = Ok false.
Proof.
  intros Ha Hb Hc Hba Hcb.
  destruct (key_lt_cases true c a Hc Ha) as [(Hca & _ & _)|[(_ & H & _)|(_ & H & _)]];
    [|exact H..].
  destruct (key_lt_cases true a b Ha Hb) as [(Hab & _ & _)|[(-> & _ & _)|(H & _ & _)]].
  - rewrite (key_lt_trans true c a b Hc Ha Hb Hca Hab) in Hcb. discriminate.
  - congruence.
  - congruence.
Qed.

Lemma map_m_getctime_keys (directory : string) (l : list string) (w w' : World)
    (keys : list Z) :
  map_m (fun x => getctime (join directory x)) l w = (Ok keys, w') ->
  keys = map (ctime_key directory w) l.
Proof.
  revert keys w'. induction l as [|x l IH]; intros keys w' H.
  - apply ret_ok in H as (-> & _). reflexivity.
  - cbn [map_m] in H.
    apply mbind_ok in H as (t & w1 & Ht & H).
    pose proof (getctime_ok _ _ _ _ Ht) as ->.
    apply mbind_ok in H as (ts & w2 & Hts & H).
    pose proof (IH _ _ Hts) as ->.
    apply ret_ok in H as (-> & _).
    cbn [map]. f_equal. unfold ctime_key. now rewrite Ht.
Qed.

Lemma int_lt_asym (a b : Z) : int_lt a b = Ok true -> int_lt b a = Ok false.
Proof.
  unfold int_lt. intros [= H]. apply Z.ltb_lt in H. f_equal. apply Z.ltb_ge. lia.
Qed.

Lemma int_le_trans (a b c : Z) :
  int_lt b a = Ok false -> int_lt c b = Ok false -> int_lt c a = Ok false.
Proof.
  unfold int_lt. intros [= H1] [= H2].
  apply Z.ltb_ge in H1. apply Z.ltb_ge in H2. f_equal. apply Z.ltb_ge. lia.
Qed.

(** A composited cell exists only for a cell of positive height and of a
    width that is not negative. *)
Lemma resize_and_align_image_cell_size (fonts : Fonts) (image : Image)
    (page_size : Z * Z) (margin : Z) (label : option string) (cell : Image) :
  resize_and_align_image fonts image page_size margin label = Ok cell ->
  0 <= fst page_size /\ 1 <= snd page_size /\ height image <> 0.
Proof.
  unfold resize_and_align_image. intros H.
  step_result H. destruct a as [nw nh].
  step_result H. step_result H. step_result H.
  unfold PIL.new in E2.
  destruct ((fst page_size <? 0) || (snd page_size <? 0)) eqn:Hneg; [discriminate|].
  apply orb_false_iff in Hneg as [H1 H2].
  apply Z.ltb_ge in H1. apply Z.ltb_ge in H2.
  apply new_size_cases in E as (r1 & r2 & fs & Hr1 & Hr2 & _).
  unfold int_truediv in Hr1, Hr2.
  destruct (height image =? 0) eqn:Hh; [discriminate|].
  destruct (snd page_size =? 0) eqn:HH; [discriminate|].
  apply Z.eqb_neq in Hh. apply Z.eqb_neq in HH.
  repeat split; [exact H1|lia|exact Hh].
Qed.

(** The path of an image is none of the temporary files. *)
Lemma image_not_temp (w : World) (directory f p c : string) (q : Z) :
  is_image_name f = true ->
  resolve w (join directory f) = Ok p ->
  p <> temp_path c q.
Proof.
  intros Himg Hp ->. apply resolve_suffix in Hp.
  assert (chars f `suffix_of` chars (temp_path c q)) as Hf.
  { etransitivity; [|exact Hp]. apply join_suffix. }
  destruct (temp_path_suffix c q) as (d & _ & Hd).
  assert (chars ".pdf" `suffix_of` chars (temp_path c q)) as Hpdf.
  { etransitivity; [|exact Hd]. now exists [d]. }
  apply (image_name_not_pdf f Himg).
  eapply suffix_of_suffix; [exact Hpdf|exact Hf|].
  unfold is_image_name, endswith_any in Himg.
  apply existsb_exists in Himg as (ext & Hin & Hext).
  apply endswith_suffix in Hext. rewrite chars_lower in Hext.
  apply suffix_length in Hext. rewrite length_map in Hext.
  destruct (image_extension_not_pdf ext Hin) as (_ & Hlen).
  change (length (chars ".pdf")) with 4%nat. lia.
Qed.

(* ===================================================================== *)
(** * The layout of a page                                                *)
(* ===================================================================== *)

Lemma pasted_layers_fold (cells : list Image) (h : Z) (base : Image) (y : Z) :
  pasted_layers
    (fst (fold_left
            (fun acc combined_img =>
               (paste (fst acc) combined_img (0, snd acc), snd acc + h))
            cells (base, y))) =
  pasted_layers base ++ stacked cells y h.
Proof.
  revert base y. induction cells as [|c cells IH]; intros base y; cbn [fold_left].
  - cbn. now rewrite app_nil_r.
  - rewrite IH. cbn [fst snd paste pasted_layers stacked].
    now rewrite <- app_assoc.
Qed.

Lemma canvas_of_fold (cells : list Image) (h : Z) (base : Image) (y : Z) :
  canvas_of
    (fst (fold_left
            (fun acc combined_img =>
               (paste (fst acc) combined_img (0, snd acc), snd acc + h))
            cells (base, y))) = canvas_of base.
Proof.
  revert base y. induction cells as [|c cells IH]; intros base y; cbn [fold_left].
  - reflexivity.
  - now rewrite IH.
Qed.

Lemma stacked_lookup (cells : list Image) (y h : Z) (j : nat)
    (cell : Image) (pos : Z * Z) :
  stacked cells y h !! j = Some (cell, pos) ->
  cells !! j = Some cell /\ pos = (0, y + Z.of_nat j * h).
Proof.
  revert y j. induction cells as [|c cells IH]; intros y [|j]; cbn;
    try discriminate.
  - intros [= <- <-]. split; [reflexivity|]. f_equal. lia.
  - intros H. apply IH in H as (Hc & ->). split; [exact Hc|]. f_equal. lia.
Qed.


(** An assembled page: a blank page of the A4 size with the cells pasted
    at the left edge, [h] apart from the top. *)
Lemma assemble_page_layout (cells : list Image) (h : Z) :
  canvas_of (assemble_page cells h) = New (fst A4_PAGE_SIZE) (snd A4_PAGE_SIZE) /\
  pasted_layers (assemble_page cells h) = stacked cells 0 h /\
  PIL.size (assemble_page cells h) = A4_PAGE_SIZE.
Proof.
  unfold assemble_page. rewrite canvas_of_fold, pasted_layers_fold.
  repeat split.
  assert (forall acc : Image * Z,
             PIL.size (fst acc) = A4_PAGE_SIZE ->
             PIL.size
               (fst (fold_left
                       (fun acc0 combined_img =>
                          (paste (fst acc0) combined_img (0, snd acc0),
                           snd acc0 + h)) cells acc)) = A4_PAGE_SIZE) as H.
  { induction cells as [|c cells IH]; intros acc Hacc; cbn [fold_left];
      [exact Hacc|].
    apply IH. exact Hacc. }
  apply H. reflexivity.
Qed.

Section LayoutFacts.

Variable fonts : Fonts.
Variable directory : string.
Variable images_per_page : Z.
Variable margin : Z.
Variable label_images : bool.

(** Every page in the merger was assembled from its cells. *)
Lemma loop_pages_assembled (imgs : list string) (h : Z) (w0 w : World)
    (v : loop_vars) :
  for_fold (enumerate imgs)
    (loop_body fonts directory images_per_page margin label_images
       (Z.of_nat (length imgs)) h) initial_vars w0 = (Ok v, w) ->
  Forall (fun page => page = assemble_page (page_cells page) h) (pdf_merger v).
Proof.
  intros Hrun.
  refine (for_fold_invariant
            (fun _ v _ =>
               Forall (fun page => page = assemble_page (page_cells page) h)
                 (pdf_merger v))
            (loop_body fonts directory images_per_page margin label_images
               (Z.of_nat (length imgs)) h)
            (enumerate imgs) _ initial_vars w0 v w _ Hrun);
    [|constructor].
  intros i [idx f] s u s' u' _ Hinv Hstep.
  apply loop_body_ok in Hstep as (p & t & img & cell & _ & _ & _ & _ & Hcase).
  cbv zeta in Hcase.
  destruct (((idx + 1) mod images_per_page =? 0) ||
            (idx =? Z.of_nat (length imgs) - 1));
    destruct Hcase as (-> & _); cbn [pdf_merger]; [|exact Hinv].
  apply Forall_app. split; [exact Hinv|].
  constructor; [|constructor]. now rewrite page_cells_assemble.
Qed.

End LayoutFacts.

(** A run over at least one image that does not raise was given a number
    of images per page between 1 and the height of the page. *)
Lemma run_per_page_bounds (fonts : Fonts) (directory : string)
    (images_per_page : Z) (delete_images : bool) (margin : Z)
    (label_images sort_by_time : bool) (w w' : World) (names : list string) :
  fst (listdir directory w) = Ok names ->
  List.filter is_image_name names <> [] ->
  images_to_pdf fonts directory images_per_page delete_images margin
    label_images sort_by_time w = (Ok tt, w') ->
  1 <= images_per_page <= snd A4_PAGE_SIZE /\
  1 <= snd A4_PAGE_SIZE / images_per_page.
Proof.
  intros Hlist Hne Hrun.
  destruct (run_ok _ _ _ _ _ _ _ w w' names Hlist Hne Hrun)
    as (sorted & v & w1 & out & removed & _ & Hperm & Hk & _ & Hloop & _).
  cbv zeta in Hloop. destruct Hloop as ((_ & Hlen & Hcells) & _ & _).
  assert (length sorted <> O) as Hpos.
  { apply Permutation_length in Hperm. rewrite Hperm.
    destruct (List.filter is_image_name names); [contradiction|discriminate]. }
  destruct (LoopInvariants.cells_so_far v) as [|cell rest] eqn:E;
    [simpl in Hlen; lia|].
  destruct (Hcells O cell eq_refl) as (f & p & t & img & _ & _ & _ & Hcell).
  apply resize_and_align_image_cell_size in Hcell as (_ & Hh & _).
  cbn [snd] in Hh. split; [|exact Hh].
  change (snd A4_PAGE_SIZE) with 842 in *.
  pose proof (Z.div_mod 842 images_per_page Hk) as Hdm.
  destruct (Z_lt_le_dec images_per_page 0) as [Hneg|Hnn].
  - pose proof (Z.mod_neg_bound 842 images_per_page Hneg). nia.
  - pose proof (Z.mod_pos_bound 842 images_per_page ltac:(lia)). nia.
Qed.

(* ===================================================================== *)
(** * A run that raises                                                   *)
(* ===================================================================== *)

Lemma mbind_raise {A B} (m : M A) (k : A -> M B) (w w' : World) (e : exn) :
  mbind m k w = (Raise e, w') ->
  m w = (Raise e, w') \/
  exists a w1, m w = (Ok a, w1) /\ k a w1 = (Raise e, w').
Proof.
  unfold mbind. destruct (m w) as [[a|e1] w1]; intros H.
  - right. eauto.
  - left. injection H as -> ->. reflexivity.
Qed.

Lemma read_file_world (path : string) (w : World) : snd (read_file path w) = w.
Proof.
  unfold read_file. destruct (resolve w path) as [p|]; [|reflexivity].
  destruct (fs w !! p) as [[|]|]; reflexivity.
Qed.

Lemma image_open_world (path : string) (w : World) :
  snd (image_open path w) = w.
Proof.
  unfold image_open, mbind. pose proof (read_file_world path w) as H.
  destruct (read_file path w) as [[content|e] w1]; cbn [snd] in H; subst w1;
    [|reflexivity].
  destruct content; reflexivity.
Qed.

Lemma getctime_world (path : string) (w : World) : snd (getctime path w) = w.
Proof.
  unfold getctime. destruct (resolve w path) as [p|]; [|reflexivity].
  destruct (fs w !! p); reflexivity.
Qed.

Lemma map_m_getctime_world (f : string -> string) (l : list string) (w : World) :
  snd (map_m (fun x => getctime (f x)) l w) = w.
Proof.
  induction l as [|x l IH]; [reflexivity|].
  cbn [map_m]. unfold mbind at 1.
  pose proof (getctime_world (f x) w) as Hx.
  destruct (getctime (f x) w) as [[t|e] w1]; cbn [snd] in Hx; subst w1;
    [|reflexivity].
  unfold mbind.
  destruct (map_m (fun x0 => getctime (f x0)) l w) as [[ts|e] w1];
    cbn [snd] in IH; subst w1; reflexivity.
Qed.

Lemma sort_images_world (directory : string) (sort_by_time : bool)
    (images : list string) (w : World) :
  snd (sort_images directory sort_by_time images w) = w.
Proof.
  unfold sort_images. destruct sort_by_time; [|reflexivity].
  unfold mbind.
  pose proof (map_m_getctime_world (join directory) images w) as H.
  destruct (map_m (fun x => getctime (join directory x)) images w)
    as [[ts|e] w1]; cbn [snd] in H; subst w1; reflexivity.
Qed.

Lemma write_file_raise (path : string) (content : body) (w w' : World)
    (e : exn) :
  write_file path content w = (Raise e, w') -> w' = w.
Proof.
  unfold write_file. destruct (resolve w path) as [p|]; [|now intros [= _ <-]].
  destruct (fs w !! p) as [[|]|]; intros H; try discriminate.
  now injection H as _ <-.
Qed.

(** A loop that raises stopped in a turn that raised, after turns that
    did not. *)
Lemma for_fold_raise {A S} (I : nat -> S -> World -> Prop)
    (f : S -> A -> M S) (l : list A) :
  (forall i x s w s' w',
      l !! i = Some x -> I i s w -> f s x w = (Ok s', w') ->
      I (Datatypes.S i) s' w') ->
  forall s w e w',
    I O s w -> for_fold l f s w = (Raise e, w') ->
    exists i x s1 w1,
      l !! i = Some x /\ I i s1 w1 /\ f s1 x w1 = (Raise e, w').
Proof.
  revert I. induction l as [|x l IH]; intros I Hstep s w e w' H0 Hrun.
  - discriminate.
  - cbn [for_fold] in Hrun.
    apply mbind_raise in Hrun as [Hx|(s1 & w1 & Hx & Hrest)].
    + exists O, x, s, w. repeat split; assumption.
    + destruct (IH (fun i => I (Datatypes.S i))
                  (fun i y t u t' u' Hy => Hstep (Datatypes.S i) y t u t' u' Hy)
                  s1 w1 e w' (Hstep O x s w s1 w1 eq_refl H0 Hx) Hrest)
        as (i & y & s2 & w2 & Hy & Hi & Hf).
      exists (Datatypes.S i), y, s2, w2. repeat split; assumption.
Qed.

Section RaiseFacts.

Variable fonts : Fonts.
Variable directory : string.
Variable images_per_page : Z.
Variable margin : Z.
Variable label_images : bool.

Abbreviation body :=
  (loop_body fonts directory images_per_page margin label_images).

(** A turn of the loop that raises leaves the world as it was. *)
Lemma loop_body_raise (n h : Z) (v : loop_vars) (item : Z * string)
    (w w' : World) (e : exn) :
  body n h v item w = (Raise e, w') -> w' = w.
Proof.
  unfold loop_body. intros H.
  apply mbind_raise in H as [H|(img & w1 & Hopen & H)].
  { pose proof (image_open_world (join directory (snd item)) w) as Hw.
    rewrite H in Hw. exact Hw. }
  apply image_open_ok in Hopen as (-> & _).
  apply mbind_raise in H as [H|(cell & w1 & Hcell & H)].
  { unfold lift in H. now injection H as _ <-. }
  apply lift_ok in Hcell as (_ & ->).
  apply mbind_raise in H as [H|(r & w1 & Hmod & H)].
  { unfold lift in H. now injection H as _ <-. }
  apply lift_ok in Hmod as (_ & ->).
  destruct ((r =? 0) || (fst item =? n - 1)); [|discriminate].
  apply mbind_raise in H as [H|([] & w1 & Hsave & H)].
  { now apply write_file_raise in H. }
  apply write_file_ok in Hsave as (tp & Htp & ->).
  exfalso. revert H. unfold read_pdf, read_file, mbind.
  rewrite resolve_temp in Htp. injection Htp as <-.
  rewrite resolve_temp. cbn [log set_fs fs cwd].
  rewrite lookup_insert_eq. discriminate.
Qed.

Variable imgs : list string.
Variable h : Z.
Variable w0 : World.

(** When the loop raises, the world holds the temporary files of the pages
    made so far and is otherwise as it was. *)
Lemma loop_raise (w : World) (e : exn) :
  for_fold (enumerate imgs) (body (Z.of_nat (length imgs)) h) initial_vars w0
    = (Raise e, w) ->
  exists v, LoopInvariants.world_inv w0 v w.
Proof.
  intros Hrun.
  destruct (for_fold_raise
              (fun _ v w => LoopInvariants.world_inv w0 v w)
              (body (Z.of_nat (length imgs)) h) (enumerate imgs))
    with (s := initial_vars) (w := w0) (e := e) (w' := w)
    as (i & x & s1 & w1 & _ & Hinv & Hraise).
  - intros i [idx f] s u s' u' Hitem Hinv Hstep.
    apply enumerate_lookup in Hitem as [Hidx _]. cbn [fst] in Hidx. subst idx.
    eapply world_inv_step; eassumption.
  - apply world_inv_initial.
  - exact Hrun.
  - apply loop_body_raise in Hraise. subst w. exists s1. exact Hinv.
Qed.

End RaiseFacts.

Lemma range_In (a b q : Z) : In q (range a b) <-> a <= q < b.
Proof.
  unfold range. rewrite in_map_iff. split.
  - intros (k & <- & Hk). apply in_seq in Hk. lia.
  - intros H. exists (Z.to_nat (q - a)). split; [lia|]. apply in_seq. lia.
Qed.

Lemma NoDup_map_inj_in {A B} (f : A -> B) (l : list A) :
  (forall x y, In x l -> In y l -> f x = f y -> x = y) ->
  NoDup l -> NoDup (map f l).
Proof.
  intros Hinj Hl. induction Hl as [|x l Hx Hl IH]; cbn [map]; constructor.
  - rewrite list_elem_of_In. intros Hin. apply in_map_iff in Hin as (y & Hy & Hin).
    apply Hx. apply list_elem_of_In.
    rewrite (Hinj x y); [exact Hin|now left|now right|now symmetry].
  - apply IH. intros a b Ha Hb. apply Hinj; now right.
Qed.

Lemma range_NoDup (a b : Z) : NoDup (range a b).
Proof.
  unfold range. apply NoDup_map_inj_in; [intros x y _ _ H; lia|].
  apply NoDup_ListNoDup, seq_NoDup.
Qed.

Lemma string_app_inv_head (p a b : string) : p +:+ a = p +:+ b -> a = b.
Proof.
  intros H. apply chars_inj. apply (f_equal chars) in H.
  rewrite !chars_app in H. now apply app_inv_head in H.
Qed.

Lemma string_app_inv_tail (a b s : string) : a +:+ s = b +:+ s -> a = b.
Proof.
  intros H. apply chars_inj. apply (f_equal chars) in H.
  rewrite !chars_app in H. now apply app_inv_tail in H.
Qed.

(** Two temporary files with different numbers have different names. *)
Lemma temp_path_inj (c : string) (i j : Z) :
  0 <= i -> 0 <= j -> temp_path c i = temp_path c j -> i = j.
Proof.
  intros Hi Hj H. unfold temp_path in H.
  rewrite (join_relative c (temp_pdf_name i)),
    (join_relative c (temp_pdf_name j)) in H by reflexivity.
  apply string_app_inv_head in H. unfold temp_pdf_name in H.
  apply string_app_inv_head in H. apply string_app_inv_tail in H.
  rewrite <- (proj2 (str_of_int_value i Hi)), <- (proj2 (str_of_int_value j Hj)).
  now rewrite H.
Qed.

Lemma put_temps_keeps_file (c : string) (t first : Z) (pages : list Image)
    (m : gmap string node) (p : string) :
  (exists t' content, m !! p = Some (File t' content)) ->
  exists t' content, put_temps c t first pages m !! p = Some (File t' content).
Proof.
  revert first m. induction pages as [|page pages IH]; intros first m H;
    cbn [put_temps]; [exact H|].
  apply IH. destruct (decide (temp_path c first = p)) as [E|Hne].
  - rewrite E, lookup_insert_eq. eauto.
  - now rewrite lookup_insert_ne.
Qed.

Lemma put_temps_lookup_temp (c : string) (t first : Z) (pages : list Image)
    (m : gmap string node) (q : Z) :
  first <= q < first + Z.of_nat (length pages) ->
  exists t' content,
    put_temps c t first pages m !! temp_path c q = Some (File t' content).
Proof.
  revert first m. induction pages as [|page pages IH]; intros first m H;
    cbn [put_temps length] in *; [lia|].
  destruct (decide (q = first)) as [->|Hne].
  - apply put_temps_keeps_file. rewrite lookup_insert_eq. eauto.
  - apply IH. lia.
Qed.

(** Removing files that are there, each one once, does not raise. *)
Lemma for_each_remove_defined {A} (g : A -> string) (l : list A)
    (paths : list string) (w : World) :
  Forall2 (fun x p => resolve w (g x) = Ok p) l paths ->
  NoDup paths ->
  (forall p, In p paths -> exists t content, fs w !! p = Some (File t content)) ->
  exists w', for_each l (fun x => remove (g x)) w = (Ok tt, w').
Proof.
  revert paths w. induction l as [|x l IH]; intros paths w Hall Hnd Hfs.
  - eexists. reflexivity.
  - inversion Hall as [|? p ? ps Hp Hrest]; subst.
    apply NoDup_cons in Hnd as [Hp_notin Hnd].
    destruct (Hfs p (or_introl eq_refl)) as (t & content & Hlook).
    cbn [for_each]. unfold mbind, remove at 1. rewrite Hp, Hlook.
    apply (IH ps).
    + eapply Forall2_impl; [exact Hrest|]. intros y q Hq. exact Hq.
    + exact Hnd.
    + intros q Hq. cbn [log set_fs fs].
      rewrite lookup_delete_ne.
      * apply Hfs. now right.
      * intros ->. apply Hp_notin. now apply list_elem_of_In.
Qed.

(** The names a listing returns are distinct, hold no separator and are
    not empty. *)
Lemma listdir_names (directory : string) (w w' : World) (names : list string) :
  listdir directory w = (Ok names, w') ->
  exists d, resolve w directory = Ok d /\ NoDup names /\
            forall f, In f names -> has_sep f = false /\ f <> EmptyString.
Proof.
  unfold listdir. destruct (resolve w directory) as [d|]; [|discriminate].
  destruct (fs w !! d) as [[t|t c]|]; try discriminate.
  intros [= <- <-]. exists d. split; [reflexivity|]. split.
  - pose proof (NoDup_fst_map_to_list (fs w)) as Hnd.
    induction (map_to_list (fs w)) as [|[key nd] l IH]; cbn [omap list_omap];
      [constructor|].
    cbn [fmap list_fmap fst] in Hnd. apply NoDup_cons in Hnd as [Hkey Hnd].
    cbn [fst]. destruct (child_name d key) as [f|] eqn:E; [|now apply IH].
    constructor; [|now apply IH].
    intros Hin. apply list_elem_of_omap in Hin as ([key' nd'] & Hin & E').
    cbn [fst] in E'. apply child_name_spec in E as (-> & _).
    apply child_name_spec in E' as (-> & _).
    apply Hkey. apply list_elem_of_fmap. exists (join d EmptyString +:+ f, nd').
    split; [reflexivity|exact Hin].
  - intros f Hf. apply list_elem_of_In, list_elem_of_omap in Hf as ([key nd] & _ & E).
    cbn [fst] in E. now apply child_name_spec in E as (_ & ? & ?).
Qed.

Section ConvertRaise.

Variable fonts : Fonts.
Variable directory : string.
Variable images_per_page : Z.
Variable delete_images : bool.
Variable margin : Z.
Variable label_images : bool.
Variable sort_by_time : bool.

Lemma stopped_refl (w : World) : stopped w w.
Proof.
  exists []. cbn. now rewrite app_nil_r.
Qed.

Lemma stopped_inv (w w' : World) (v : loop_vars) :
  LoopInvariants.world_inv w v w' -> stopped w w'.
Proof.
  intros (Hcwd & Hclock & Hout & Hpn & Hfs & Htrace).
  exists (pdf_merger v). rewrite <- Hpn. repeat split; assumption.
Qed.

(** Where a conversion can raise: in the sort, in the division, in the
    loop or when the output file is opened; what follows cannot raise. *)
Lemma convert_raise_cases (images : list string) (d : string) (w w' : World)
    (e : exn) :
  resolve w directory = Ok d ->
  NoDup images ->
  (forall f, In f images ->
     is_image_name f = true /\ has_sep f = false /\ f <> EmptyString) ->
  convert fonts directory images_per_page delete_images margin label_images
    sort_by_time images w = (Raise e, w') ->
  sort_images directory sort_by_time images w = (Raise e, w') \/
  exists sorted,
    sort_images directory sort_by_time images w = (Ok sorted, w) /\
    ((floordiv (snd A4_PAGE_SIZE) images_per_page = Raise e /\ w' = w) \/
     exists h,
       floordiv (snd A4_PAGE_SIZE) images_per_page = Ok h /\
       (for_fold (enumerate sorted)
          (loop_body fonts directory images_per_page margin label_images
             (Z.of_nat (length sorted)) h) initial_vars w = (Raise e, w') \/
        exists v w1,
          for_fold (enumerate sorted)
            (loop_body fonts directory images_per_page margin label_images
               (Z.of_nat (length sorted)) h) initial_vars w = (Ok v, w1) /\
          write_file (output_pdf_path directory) (PdfData (pdf_merger v)) w1
            = (Raise e, w'))).
Proof.
  intros Hd Hnd Himgs. unfold convert. intros H.
  apply mbind_raise in H as [H|(sorted & w1 & Hsort & H)]; [now left|].
  pose proof (sort_images_ok _ _ _ _ _ _ Hsort) as (-> & Hperm).
  right. exists sorted. split; [exact Hsort|].
  apply mbind_raise in H as [H|(h & w1 & Hh & H)].
  { left. unfold lift in H. injection H as Hf Hw.
    split; [exact Hf|now symmetry]. }
  apply lift_ok in Hh as (Hh & ->).
  right. exists h. split; [exact Hh|].
  apply mbind_raise in H as [H|(v & w1 & Hloop & H)]; [now left|].
  right. exists v, w1. split; [exact Hloop|].
  destruct (loop_ok_any _ _ _ _ _ _ _ _ _ _ Hloop) as (Hinv & Hcells & _).
  pose proof Hinv as (Hcwd & Hclock & Hout & Hpn & Hfs & Htrace).
  apply mbind_raise in H as [H|([] & w2 & Hwrite & H)]; [exact H|].
  exfalso.
  apply write_file_ok in Hwrite as (out & Hres & ->).
  rewrite (resolve_same_cwd w1 w _ Hcwd) in Hres.
  set (w2 := log (Wrote out) _) in H.
  assert (cwd w2 = cwd w) as Hcwd2 by exact Hcwd.
  assert (fs w2 =
          <[out := File (clock w1) (PdfData (pdf_merger v))]>
            (put_temps (cwd w) (clock w) 1 (pdf_merger v) (fs w))) as Hfs2.
  { unfold w2. cbn [log set_fs fs]. now rewrite Hfs. }
  clearbody w2.
  (* the temporary files are there, each one once *)
  destruct (for_each_remove_defined temp_pdf_name (range 1 (page_number v))
              (map (temp_path (cwd w)) (range 1 (page_number v))) w2)
    as (w3 & Htemps).
  { apply Forall2_fmap_r, Forall_Forall2_diag, List.Forall_forall.
    intros q _. rewrite resolve_temp, Hcwd2. reflexivity. }
  { apply NoDup_map_inj_in; [|apply range_NoDup].
    intros x y Hx Hy. apply range_In in Hx, Hy. apply temp_path_inj; lia. }
  { intros p Hp. apply in_map_iff in Hp as (q & <- & Hq).
    apply range_In in Hq. rewrite Hfs2.
    destruct (decide (out = temp_path (cwd w) q)) as [E|Hne].
    - rewrite E, lookup_insert_eq. eauto.
    - rewrite lookup_insert_ne by exact Hne.
      apply put_temps_lookup_temp. lia. }
  apply mbind_raise in H as [H|([] & w3' & Htemps' & H)];
    [rewrite Htemps in H; discriminate|].
  rewrite Htemps in Htemps'. injection Htemps' as <-.
  apply for_each_remove_ok in Htemps
    as (temps & Hall & Hcwd3 & _ & _ & Hfs3 & _).
  assert (temps = map (temp_path (cwd w)) (range 1 (page_number v))) as ->.
  { apply Forall2_map_eq. eapply Forall2_impl; [exact Hall|].
    intros i p Hp. cbn beta in Hp. rewrite resolve_temp, Hcwd2 in Hp.
    now injection Hp. }
  apply mbind_raise in H as [H|([] & w4 & Hprint & H)]; [discriminate|].
  unfold print in Hprint. injection Hprint as <-.
  destruct delete_images; [|discriminate].
  (* the images are there, each one once *)
  set (w4 := {| fs := fs w3 |}) in H.
  assert (cwd w4 = cwd w) as Hcwd4 by (cbn; congruence).
  assert (fs w4 = fs w3) as Hfs4 by reflexivity.
  clearbody w4.
  assert (forall f, In f sorted ->
            is_image_name f = true /\ has_sep f = false /\ f <> EmptyString)
    as Hsorted.
  { intros f Hf. apply Himgs. eapply Permutation_in; eassumption. }
  destruct (for_each_remove_defined (fun f => join directory f) sorted
              (map (fun f => join d EmptyString +:+ f) sorted) w4)
    as (w5 & Himages).
  { apply Forall2_fmap_r, Forall_Forall2_diag, List.Forall_forall.
    intros f Hf. destruct (Hsorted f Hf) as (_ & Hsep & Hne).
    apply resolve_child; [|assumption..].
    now rewrite (resolve_same_cwd w4 w _ Hcwd4). }
  { apply NoDup_map_inj_in.
    - intros x y _ _. apply string_app_inv_head.
    - rewrite Hperm. exact Hnd. }
  { intros p Hp. apply in_map_iff in Hp as (f & <- & Hf).
    destruct (Hsorted f Hf) as (Himg & Hsep & Hne).
    pose proof (resolve_child w directory d f Hd Hsep Hne) as Hp.
    apply list_elem_of_In, list_elem_of_lookup_1 in Hf as (j & Hj).
    destruct Hcells as (_ & Hlen & Hcomp).
    destruct (lookup_lt_is_Some_2 (LoopInvariants.cells_so_far v) j) as (cell & Hcell).
    { rewrite Hlen. eapply lookup_lt_Some. exact Hj. }
    destruct (Hcomp j cell Hcell) as (f' & p' & t & img & Hj' & Hp' & Hfile & _).
    rewrite Hj in Hj'. injection Hj' as <-. rewrite Hp in Hp'.
    injection Hp' as <-.
    exists t, (ImageData img).
    rewrite Hfs4, Hfs3, delete_all_lookup_notin, Hfs2, lookup_insert_ne,
      put_temps_lookup_other; [exact Hfile| | |].
    - intros q. eapply image_not_temp; eassumption.
    - intros E. symmetry in E. revert E.
      eapply output_not_image; eassumption.
    - intros Hin. apply in_map_iff in Hin as (q & E & _). symmetry in E.
      revert E. eapply image_not_temp; eassumption. }
  apply mbind_raise in H as [H|([] & w5' & _ & H)];
    [rewrite Himages in H; discriminate|discriminate].
Qed.

Lemma convert_raise (images : list string) (d : string) (w w' : World)
    (e : exn) :
  resolve w directory = Ok d ->
  NoDup images ->
  (forall f, In f images ->
     is_image_name f = true /\ has_sep f = false /\ f <> EmptyString) ->
  convert fonts directory images_per_page delete_images margin label_images
    sort_by_time images w = (Raise e, w') ->
  stopped w w'.
Proof.
  intros Hd Hnd Himgs H.
  destruct (convert_raise_cases images d w w' e Hd Hnd Himgs H)
    as [Hsort|(sorted & _ & [(_ & ->)|(h & _ & [Hloop|(v & w1 & Hloop & Hw)])])].
  - pose proof (sort_images_world directory sort_by_time images w) as Hw.
    rewrite Hsort in Hw. cbn [snd] in Hw. subst w'. apply stopped_refl.
  - apply stopped_refl.
  - apply loop_raise in Hloop as (v & Hinv). now apply stopped_inv in Hinv.
  - destruct (loop_ok_any _ _ _ _ _ _ _ _ _ _ Hloop) as (Hinv & _).
    apply write_file_raise in Hw. subst w'. now apply stopped_inv in Hinv.
Qed.

(** A run of [images_to_pdf] that raises wrote the temporary files of the
    pages it had made, and nothing else. *)
Lemma run_raise (w w' : World) (e : exn) :
  images_to_pdf fonts directory images_per_page delete_images margin
    label_images sort_by_time w = (Raise e, w') ->
  stopped w w'.
Proof.
  unfold images_to_pdf. intros H.
  apply mbind_raise in H as [H|(names & w1 & Hlist & H)].
  { pose proof (listdir_same_world directory w) as Hw. rewrite H in Hw.
    cbn [snd] in Hw. subst w'. apply stopped_refl. }
  pose proof (listdir_names _ _ _ _ Hlist) as (d & Hd & Hnd & Hnames).
  apply listdir_ok in Hlist as (-> & _).
  destruct (List.filter is_image_name names) as [|f images] eqn:E;
    [discriminate|].
  rewrite <- E in H. apply (convert_raise _ d) in H; [exact H|exact Hd| |].
  - apply NoDup_ListNoDup, List.NoDup_filter, NoDup_ListNoDup, Hnd.
  - intros g Hg. apply filter_In in Hg as [Hg Himg].
    split; [exact Himg|]. now apply Hnames.
Qed.

(** A run that raises either had made all its pages, or stopped with the
    temporary files of the pages made so far and nothing else. *)
Lemma run_raise_cases (w w' : World) (e : exn) :
  images_to_pdf fonts directory images_per_page delete_images margin
    label_images sort_by_time w = (Raise e, w') ->
  loop_ended fonts directory images_per_page margin label_images
    sort_by_time w \/
  stopped w w'.
Proof.
  unfold images_to_pdf. intros H.
  apply mbind_raise in H as [H|(names & w1 & Hlist & H)].
  { right. pose proof (listdir_same_world directory w) as Hw. rewrite H in Hw.
    cbn [snd] in Hw. subst w'. apply stopped_refl. }
  pose proof (listdir_names _ _ _ _ Hlist) as (d & Hd & Hnd & Hnames).
  assert (fst (listdir directory w) = Ok names) as Hfst by now rewrite Hlist.
  apply listdir_ok in Hlist as (-> & _).
  destruct (List.filter is_image_name names) as [|f images] eqn:E;
    [discriminate|].
  rewrite <- E in H.
  assert (NoDup (List.filter is_image_name names)) as Hnd'
    by apply NoDup_ListNoDup, List.NoDup_filter, NoDup_ListNoDup, Hnd.
  assert (forall g, In g (List.filter is_image_name names) ->
            is_image_name g = true /\ has_sep g = false /\ g <> EmptyString)
    as Hshape.
  { intros g Hg. apply filter_In in Hg as [Hg Himg].
    split; [exact Himg|]. now apply Hnames. }
  destruct (convert_raise_cases _ d w w' e Hd Hnd' Hshape H)
    as [Hsort|(sorted & Hsort & [(_ & ->)|(h & Hh & [Hloop|(v & w1 & Hloop & _)])])].
  - right.
    pose proof (sort_images_world directory sort_by_time
                  (List.filter is_image_name names) w) as Hw.
    rewrite Hsort in Hw. cbn [snd] in Hw. subst w'. apply stopped_refl.
  - right. apply stopped_refl.
  - right. apply loop_raise in Hloop as (v & Hinv).
    now apply stopped_inv in Hinv.
  - left. unfold floordiv in Hh.
    destruct (images_per_page =? 0) eqn:Hk; [discriminate|].
    apply Z.eqb_neq in Hk. injection Hh as <-.
    exists names, sorted, v, w1. repeat split; assumption.
Qed.

End ConvertRaise.






(** Whatever the outcome of a run, a file that is neither a temporary
    file of the working directory, nor the output file, nor (when the
    images are to be deleted) an image that the listing of the target
    directory names is as it was. *)
Lemma run_keeps_files (fonts : Fonts) (directory : string)
    (images_per_page : Z) (delete_images : bool) (margin : Z)
    (label_images sort_by_time : bool) (w w' : World) (r : result unit) :
  images_to_pdf fonts directory images_per_page delete_images margin
    label_images sort_by_time w = (r, w') ->
  forall p,
    (forall q, p <> temp_path (cwd w) q) ->
    resolve w (output_pdf_path directory) <> Ok p ->
    (delete_images = true ->
     forall names f,
       fst (listdir directory w) = Ok names -> In f names ->
       is_image_name f = true ->
       resolve w (join directory f) <> Ok p) ->
    fs w' !! p = fs w !! p.
Proof.
  intros Hrun p Htemp Hout Himg. destruct r as [[]|e].
  - destruct (listdir directory w) as [[names|e] w1] eqn:Hlist.
    2:{ unfold images_to_pdf, mbind in Hrun. rewrite Hlist in Hrun.
        discriminate. }
    assert (fst (listdir directory w) = Ok names) as Hnames
      by now rewrite Hlist.
    destruct (List.filter is_image_name names) as [|f0 rest] eqn:E.
    + rewrite (images_to_pdf_unfold _ _ _ _ _ _ _ w names Hnames), E in Hrun.
      unfold print in Hrun. now injection Hrun as <-.
    + assert (List.filter is_image_name names <> []) as Hne
        by (rewrite E; discriminate).
      destruct (run_ok _ _ _ _ _ _ _ w w' names Hnames Hne Hrun)
        as (sorted & v & w1' & out & removed & _ & Hperm & _ & _ & _ & Hres &
            Hrem & Hfinal & _).
      cbv zeta in Hfinal. destruct Hfinal as (_ & _ & _ & _ & Hfs).
      rewrite Hfs, !delete_all_lookup_notin, lookup_insert_ne,
        put_temps_lookup_other; [reflexivity|exact Htemp| | |].
      * intros <-. now apply Hout.
      * intros Hin. apply in_map_iff in Hin as (q & Hq & _).
        now apply (Htemp q).
      * intros Hin. destruct delete_images; [|now subst removed].
        destruct (Forall2_In_r _ _ _ _ Hrem Hin) as (f & Hf & Hp).
        assert (In f (List.filter is_image_name names)) as Hf'
          by (eapply Permutation_in; eassumption).
        apply filter_In in Hf' as [Hin' Himg'].
        exact (Himg eq_refl names f eq_refl Hin' Himg' Hp).
  - apply run_raise in Hrun as (pages & _ & _ & _ & Hfs & _).
    rewrite Hfs. now apply put_temps_lookup_other.
Qed.

(* ===================================================================== *)
(** * The command line                                                    *)
(* ===================================================================== *)

(** A path with the name of an image is neither a temporary file nor an
    output file. *)
Lemma image_path_not_temp (p c : string) (q : Z) :
  is_image_name p = true -> p <> temp_path c q.
Proof.
  intros Himg ->. apply (image_name_not_pdf _ Himg).
  destruct (temp_path_suffix c q) as (d & _ & Hd).
  etransitivity; [|exact Hd]. now exists [d].
Qed.

Lemma image_path_not_output (w : World) (directory p : string) :
  is_image_name p = true -> resolve w (output_pdf_path directory) <> Ok p.
Proof.
  intros Himg Hout. apply (image_name_not_pdf _ Himg).
  apply output_path_suffix in Hout.
  etransitivity; [|exact Hout]. now exists (chars "combined_output").
Qed.

Section CommandLineFacts.

Variable fonts : Fonts.
Variable py_int : string -> Z + string.

(** The number of images per page that the command line passes on is at
    least 1; asking for it only prints, and prints only when the answer is
    not accepted. *)
Lemma ask_images_per_page_ok (text : string) (w : World) :
  exists k lines,
    ask_images_per_page py_int text w = (Ok k, printed lines w) /\
    1 <= k /\
    k = match py_int text with
        | inl n => if n <? 1 then 1 else n
        | inr _ => 1
        end /\
    lines =
      match py_int text with
      | inl n =>
          if n <? 1
          then ["Invalid input for images per page: " +:+
                "Number of images per page must be at least 1." +:+
                ". Using default (1)."]
          else []
      | inr message =>
          ["Invalid input for images per page: " +:+ message +:+
           ". Using default (1)."]
      end.
Proof.
  unfold ask_images_per_page, checked_int.
  destruct (py_int text) as [n|message].
  - destruct (n <? 1) eqn:E.
    + eexists 1, [_]. repeat split. lia.
    + exists n, []. apply Z.ltb_ge in E. unfold ret, printed.
      rewrite app_nil_r. destruct w. repeat split. exact E.
  - eexists 1, [_]. repeat split. lia.
Qed.

Lemma ask_margin_ok (text : string) (w : World) :
  exists m lines,
    ask_margin py_int text w = (Ok m, printed lines w) /\
    0 <= m /\
    m = match py_int text with
        | inl n => if n <? 0 then 0 else n
        | inr _ => 0
        end /\
    lines =
      match py_int text with
      | inl n =>
          if n <? 0
          then ["Invalid input for margin size: " +:+
                "Margin size cannot be negative." +:+
                ". Using default (0)."]
          else []
      | inr message =>
          ["Invalid input for margin size: " +:+ message +:+
           ". Using default (0)."]
      end.
Proof.
  unfold ask_margin, checked_int.
  destruct (py_int text) as [n|message].
  - destruct (n <? 0) eqn:E.
    + eexists 0, [_]. repeat split. lia.
    + exists n, []. apply Z.ltb_ge in E. unfold ret, printed.
      rewrite app_nil_r. destruct w. repeat split. exact E.
  - eexists 0, [_]. repeat split. lia.
Qed.

Lemma isdir_ok (path : string) (w : World) :
  exists b, isdir path w = (Ok b, w).
Proof.
  unfold isdir. destruct (resolve w path) as [p|]; [|eauto].
  destruct (fs w !! p) as [[|]|]; eauto.
Qed.

Lemma printed_printed (l1 l2 : list string) (w : World) :
  printed l2 (printed l1 w) = printed (l1 ++ l2) w.
Proof. unfold printed. cbn. now rewrite app_assoc. Qed.

(** What the second entry of the menu does with a directory that is one. *)
Lemma main_options (a : Answers) (w : World) :
  choice a = "Specify directory and options" ->
  isdir (directory_answer a) w = (Ok true, w) ->
  exists k m lines,
    main fonts py_int a w =
      images_to_pdf fonts (directory_answer a) k (delete_answer a) m
        (label_answer a) (sort_answer a) (printed lines w) /\
    1 <= k /\ 0 <= m /\
    k = match py_int (images_per_page_answer a) with
        | inl n => if n <? 1 then 1 else n
        | inr _ => 1
        end /\
    m = match py_int (margin_answer a) with
        | inl n => if n <? 0 then 0 else n
        | inr _ => 0
        end /\
    lines =
      match py_int (images_per_page_answer a) with
      | inl n =>
          if n <? 1
          then ["Invalid input for images per page: " +:+
                "Number of images per page must be at least 1." +:+
                ". Using default (1)."]
          else []
      | inr message =>
          ["Invalid input for images per page: " +:+ message +:+
           ". Using default (1)."]
      end ++
      match py_int (margin_answer a) with
      | inl n =>
          if n <? 0
          then ["Invalid input for margin size: " +:+
                "Margin size cannot be negative." +:+
                ". Using default (0)."]
          else []
      | inr message =>
          ["Invalid input for margin size: " +:+ message +:+
           ". Using default (0)."]
      end.
Proof.
  intros Hchoice Hdir. unfold main.
  replace (String.eqb (choice a)
             "Convert images in the current directory to PDF") with false
    by (rewrite Hchoice; reflexivity).
  replace (String.eqb (choice a) "Specify directory and options") with true
    by (rewrite Hchoice; reflexivity).
  cbv zeta.
  destruct (ask_images_per_page_ok (images_per_page_answer a) w)
    as (k & l1 & Hk & Hk1 & Hkv & Hl1).
  destruct (ask_margin_ok (margin_answer a) (printed l1 w))
    as (m & l2 & Hm & Hm0 & Hmv & Hl2).
  exists k, m, (l1 ++ l2).
  unfold mbind at 1. rewrite Hdir. cbn [negb].
  unfold mbind at 1. rewrite Hk.
  unfold mbind at 1. rewrite Hm, printed_printed.
  rewrite <- Hl1, <- Hl2. repeat split; assumption.
Qed.

End CommandLineFacts.


(** The font size of the cells that can occur, computed one by one. *)
Lemma font_size_of_heights :
  forallb (fun h => match font_size_of (0, h) with
                    | Ok n => n =? h / 50
                    | Raise _ => false
                    end) (range 0 843) = true.
Proof. vm_compute. reflexivity. Qed.

Lemma cell_label_none (fonts : Fonts) (image : Image) (page_size : Z * Z)
    (margin : Z) (cell : Image) :
  resize_and_align_image fonts image page_size margin None = Ok cell ->
  cell_label cell = None.
Proof.
  unfold resize_and_align_image. intros H.
  step_result H. destruct a as [new_width new_height].
  step_result H. step_result H. step_result H.
  injection H as <-.
  unfold PIL.new in E2.
  destruct ((fst page_size <? 0) || (snd page_size <? 0)); [discriminate|].
  injection E2 as <-. reflexivity.
Qed.

(* ===================================================================== *)
(** * The temporary files are direct entries of the working directory    *)
(* ===================================================================== *)

Lemma has_sep_app (a b : string) : has_sep (a +:+ b) = has_sep a || has_sep b.
Proof.
  induction a as [|c a IH]; [now rewrite app_nil|].
  rewrite app_cons. cbn [has_sep]. now rewrite IH, orb_assoc.
Qed.

Lemma all_digits_has_sep (s : string) : all_digits s = true -> has_sep s = false.
Proof.
  induction s as [|c s IH]; [reflexivity|]. cbn [all_digits has_sep].
  intros H. apply andb_prop in H as [Hc Hs]. rewrite (IH Hs), orb_false_r.
  destruct (Ascii.eqb c "/") eqn:E; [|reflexivity].
  apply Ascii.eqb_eq in E. subst c. discriminate.
Qed.

Lemma str_of_int_has_sep (n : Z) : has_sep (str_of_int n) = false.
Proof.
  assert (has_sep (str_of_int (Z.abs n)) = false) as Habs.
  { apply all_digits_has_sep, isdigit_all_digits, str_of_int_value. lia. }
  unfold str_of_int in *. rewrite Z.abs_idemp in Habs.
  replace (Z.abs n <? 0) with false in Habs by (symmetry; apply Z.ltb_ge; lia).
  destruct (n <? 0); [|exact Habs]. cbn [has_sep]. exact Habs.
Qed.

Lemma strip_prefix_app (pre rest : string) :
  strip_prefix pre (pre +:+ rest) = Some rest.
Proof.
  induction pre as [|c pre IH]; [now rewrite app_nil|].
  rewrite app_cons. cbn [strip_prefix]. now rewrite Ascii.eqb_refl.
Qed.

Lemma child_name_join (d f : string) :
  has_sep f = false -> f <> EmptyString ->
  child_name d (join d EmptyString +:+ f) = Some f.
Proof.
  intros Hsep Hne. unfold child_name. rewrite strip_prefix_app.
  destruct f as [|c f]; [contradiction|]. now rewrite Hsep.
Qed.

(** [temp_page_{q}.pdf] is a direct entry of the working directory [c]. *)
Lemma temp_path_child (c : string) (q : Z) :
  child_name c (temp_path c q) = Some (temp_pdf_name q).
Proof.
  unfold temp_path.
  rewrite (join_relative c (temp_pdf_name q)) by reflexivity.
  apply child_name_join.
  - unfold temp_pdf_name. rewrite !has_sep_app, str_of_int_has_sep. reflexivity.
  - unfold temp_pdf_name. rewrite app_cons. discriminate.
Qed.

(* ===================================================================== *)
(** * natural_sort_key beyond ASCII                                       *)
(* ===================================================================== *)

(** Facts about one character, checked on each of the 256. *)
Ltac each_char c :=
  destruct c as [[] [] [] [] [] [] [] []]; vm_compute; try reflexivity;
  try discriminate; auto.

Lemma latin1_is_digit_lower_char (c : ascii) :
  is_digit (Latin1.lower_char c) = is_digit c.
Proof. each_char c. Qed.

Lemma latin1_is_digit_char_lower_char (c : ascii) :
  Latin1.is_digit_char (Latin1.lower_char c) = Latin1.is_digit_char c.
Proof. each_char c. Qed.

Lemma latin1_lower_char_idem (c : ascii) :
  Latin1.lower_char (Latin1.lower_char c) = Latin1.lower_char c.
Proof. each_char c. Qed.

Lemma latin1_lower_char_digit (c : ascii) :
  is_digit c = true -> Latin1.lower_char c = c.
Proof. each_char c. Qed.

Lemma latin1_is_digit_char_digit (c : ascii) :
  is_digit c = true -> Latin1.is_digit_char c = true.
Proof. unfold Latin1.is_digit_char. now intros ->. Qed.

Lemma latin1_lower_char_ascii (c : ascii) :
  (code c <? 128)%N = true -> Latin1.lower_char c = lower_char c.
Proof. each_char c. Qed.

Lemma latin1_is_digit_char_ascii (c : ascii) :
  (code c <? 128)%N = true -> Latin1.is_digit_char c = is_digit c.
Proof. each_char c. Qed.

(** Texts. *)
Lemma latin1_lower_idem (s : string) :
  Latin1.lower (Latin1.lower s) = Latin1.lower s.
Proof.
  induction s as [|c s IH]; simpl; [reflexivity|].
  now rewrite latin1_lower_char_idem, IH.
Qed.

Lemma latin1_all_digit_chars_lower (s : string) :
  Latin1.all_digit_chars (Latin1.lower s) = Latin1.all_digit_chars s.
Proof.
  induction s as [|c s IH]; simpl; [reflexivity|].
  now rewrite latin1_is_digit_char_lower_char, IH.
Qed.

Lemma latin1_isdigit_lower (s : string) :
  Latin1.isdigit (Latin1.lower s) = Latin1.isdigit s.
Proof.
  destruct s as [|c s]; [reflexivity|].
  change (Latin1.all_digit_chars (Latin1.lower (String c s)) =
          Latin1.all_digit_chars (String c s)).
  apply latin1_all_digit_chars_lower.
Qed.

Lemma latin1_all_digits_lower (s : string) :
  all_digits (Latin1.lower s) = all_digits s.
Proof.
  induction s as [|c s IH]; simpl; [reflexivity|].
  now rewrite latin1_is_digit_lower_char, IH.
Qed.

Lemma latin1_py_isdigit_lower (s : string) :
  isdigit (Latin1.lower s) = isdigit s.
Proof.
  destruct s as [|c s]; [reflexivity|].
  change (all_digits (Latin1.lower (String c s)) = all_digits (String c s)).
  apply latin1_all_digits_lower.
Qed.

Lemma latin1_lower_all_digits (s : string) :
  all_digits s = true -> Latin1.lower s = s.
Proof.
  induction s as [|c s IH]; simpl; [reflexivity|].
  intros H. apply andb_prop in H as [H1 H2].
  now rewrite (latin1_lower_char_digit _ H1), (IH H2).
Qed.

Lemma latin1_all_digits_digit_chars (s : string) :
  all_digits s = true -> Latin1.all_digit_chars s = true.
Proof.
  induction s as [|c s IH]; simpl; [reflexivity|].
  intros H. apply andb_prop in H as [H1 H2].
  now rewrite (latin1_is_digit_char_digit _ H1), (IH H2).
Qed.

Lemma latin1_isdigit_decimal (s : string) :
  isdigit s = true -> Latin1.isdigit s = true.
Proof.
  destruct s as [|c s]; [discriminate|].
  apply latin1_all_digits_digit_chars.
Qed.

Lemma latin1_lower_ascii (s : string) :
  is_ascii s = true -> Latin1.lower s = lower s.
Proof.
  induction s as [|c s IH]; simpl; [reflexivity|].
  intros H. apply andb_prop in H as [H1 H2].
  now rewrite (latin1_lower_char_ascii _ H1), (IH H2).
Qed.

Lemma latin1_all_digit_chars_ascii (s : string) :
  is_ascii s = true -> Latin1.all_digit_chars s = all_digits s.
Proof.
  induction s as [|c s IH]; simpl; [reflexivity|].
  intros H. apply andb_prop in H as [H1 H2].
  now rewrite (latin1_is_digit_char_ascii _ H1), (IH H2).
Qed.

Lemma latin1_isdigit_ascii (s : string) :
  is_ascii s = true -> Latin1.isdigit s = isdigit s.
Proof.
  destruct s as [|c s]; [reflexivity|]. apply latin1_all_digit_chars_ascii.
Qed.

(** The elements of a key. *)
Lemma latin1_token_of_run (run : string) :
  isdigit run = true -> Latin1.token_of run = Ok (TInt (int_of_digits run)).
Proof.
  intros H. unfold Latin1.token_of. now rewrite (latin1_isdigit_decimal _ H), H.
Qed.

Lemma latin1_token_of_text (text : string) :
  no_digits text = true ->
  Latin1.token_of text =
    if Latin1.isdigit text then Raise ValueError
    else Ok (TStr (Latin1.lower text)).
Proof.
  intros H. unfold Latin1.token_of. now rewrite (no_digits_isdigit _ H).
Qed.

Lemma latin1_token_of_raise (text : string) (e : exn) :
  Latin1.token_of text = Raise e ->
  e = ValueError /\ Latin1.isdigit text = true /\ isdigit text = false.
Proof.
  unfold Latin1.token_of. destruct (Latin1.isdigit text); [|discriminate].
  destruct (isdigit text); [discriminate|]. now intros [= <-].
Qed.

Lemma latin1_token_of_lower (text : string) :
  Latin1.token_of (Latin1.lower text) = Latin1.token_of text.
Proof.
  unfold Latin1.token_of. rewrite latin1_isdigit_lower, latin1_py_isdigit_lower.
  destruct (Latin1.isdigit text); [|now rewrite latin1_lower_idem].
  destruct (isdigit text) eqn:D; [|reflexivity].
  now rewrite (latin1_lower_all_digits _ (isdigit_all_digits _ D)).
Qed.

Lemma latin1_token_of_ascii (text : string) :
  is_ascii text = true -> Latin1.token_of text = Ok (token_of text).
Proof.
  intros H. unfold Latin1.token_of, token_of.
  rewrite (latin1_isdigit_ascii _ H), (latin1_lower_ascii _ H).
  destruct (isdigit text); reflexivity.
Qed.

(** The pieces of a text. *)
Lemma latin1_re_split_digits_lower (s : string) :
  re_split_digits (Latin1.lower s) = map Latin1.lower (re_split_digits s).
Proof.
  induction s as [|c s IH]; [reflexivity|].
  change (Latin1.lower (String c s))
    with (String (Latin1.lower_char c) (Latin1.lower s)).
  cbn [re_split_digits]. rewrite IH, latin1_is_digit_lower_char.
  destruct (is_digit c) eqn:Dc.
  - rewrite (latin1_lower_char_digit _ Dc).
    destruct s as [|c' s'].
    + simpl. now rewrite (latin1_lower_char_digit _ Dc).
    + change (Latin1.lower (String c' s'))
        with (String (Latin1.lower_char c') (Latin1.lower s')).
      cbv iota beta. rewrite latin1_is_digit_lower_char.
      destruct (re_split_digits (String c' s')) as [|t [|run rest]];
        [simpl; now rewrite (latin1_lower_char_digit _ Dc)..|].
      destruct (is_digit c'); simpl; now rewrite (latin1_lower_char_digit _ Dc).
  - destruct (re_split_digits s) as [|t rest]; simpl; try reflexivity.
Qed.

Lemma re_split_digits_ascii (s : string) :
  is_ascii s = true ->
  Forall (fun piece => is_ascii piece = true) (re_split_digits s).
Proof.
  induction s as [|c s IH]; [repeat constructor|].
  cbn [is_ascii]. intros H. apply andb_prop in H as [Hc Hs].
  specialize (IH Hs). cbn [re_split_digits].
  assert (is_ascii (String c EmptyString) = true) as Hc1
    by (cbn; now rewrite Hc).
  assert (forall r, Forall (fun piece => is_ascii piece = true) r ->
            Forall (fun piece => is_ascii piece = true)
              (EmptyString :: String c EmptyString :: r)) as Hnew.
  { intros r Hr. constructor; [reflexivity|]. now constructor. }
  destruct (is_digit c).
  - destruct s as [|c' s']; [now apply Hnew|].
    destruct (re_split_digits (String c' s')) as [|t [|run rest]];
      [now apply Hnew..|].
    destruct (is_digit c'); [|now apply Hnew].
    inversion IH as [|? ? Ht IH1]; subst.
    inversion IH1 as [|? ? Hrun IH2]; subst.
    constructor; [reflexivity|].
    constructor; [cbn; now rewrite Hc, Hrun|exact IH2].
  - destruct (re_split_digits s) as [|t rest].
    + constructor; [exact Hc1|constructor].
    + inversion IH as [|? ? Ht IH1]; subst.
      constructor; [cbn; now rewrite Hc, Ht|exact IH1].
Qed.

(** Keys. *)
Lemma latin1_tokens_of_app (l1 l2 : list string) :
  Latin1.tokens_of (l1 ++ l2) =
  let? a := Latin1.tokens_of l1 in
  let? b := Latin1.tokens_of l2 in
  Ok (a ++ b).
Proof.
  induction l1 as [|x l1 IH]; cbn [Latin1.tokens_of app Py.bind].
  - now destruct (Latin1.tokens_of l2).
  - destruct (Latin1.token_of x) as [t|e]; cbn [Py.bind]; [|reflexivity].
    rewrite IH. destruct (Latin1.tokens_of l1) as [a|e]; cbn [Py.bind];
      [|reflexivity].
    destruct (Latin1.tokens_of l2); reflexivity.
Qed.

Lemma latin1_tokens_of_map (f : string -> string) (l : list string) :
  (forall x, Latin1.token_of (f x) = Latin1.token_of x) ->
  Latin1.tokens_of (map f l) = Latin1.tokens_of l.
Proof.
  intros H. induction l as [|x l IH]; [reflexivity|].
  cbn [map Latin1.tokens_of]. now rewrite H, IH.
Qed.

Lemma latin1_tokens_of_ascii (l : list string) :
  Forall (fun piece => is_ascii piece = true) l ->
  Latin1.tokens_of l = Ok (map token_of l).
Proof.
  induction 1 as [|x l Hx Hl IH]; [reflexivity|].
  cbn [Latin1.tokens_of map]. now rewrite (latin1_token_of_ascii _ Hx), IH.
Qed.

Lemma latin1_tokens_of_form (l : list string) (k : list token) :
  split_form l -> Latin1.tokens_of l = Ok k -> key_form true k.
Proof.
  revert k. induction l as [l IH] using (induction_ltof1 _ (@length string)).
  unfold ltof in IH. intros k.
  destruct l as [|text [|run rest]]; cbn [split_form]; [tauto| |].
  - intros Ht. cbn [Latin1.tokens_of]. rewrite (latin1_token_of_text _ Ht).
    destruct (Latin1.isdigit text); [discriminate|].
    intros [= <-]. simpl. auto.
  - intros (Ht & Hr & Hrest). cbn [Latin1.tokens_of].
    rewrite (latin1_token_of_text _ Ht), (latin1_token_of_run _ Hr).
    destruct (Latin1.isdigit text); [discriminate|]. cbn [Py.bind].
    destruct (Latin1.tokens_of rest) as [ks|e] eqn:E; [|discriminate].
    intros [= <-]. simpl. repeat split.
    apply (IH rest); [simpl; lia|assumption|exact E].
Qed.

Lemma latin1_natural_sort_key_form (s : string) (k : list token) :
  Latin1.natural_sort_key s = Ok k -> key_form true k.
Proof. apply latin1_tokens_of_form, re_split_digits_form. Qed.

(** The key is defined unless a piece of the text is made of digit
    characters that are not all decimal, and then [int] raises
    [ValueError]. *)
Lemma latin1_tokens_of_defined (l : list string) :
  match Latin1.tokens_of l with
  | Ok _ =>
      Forall (fun piece => Latin1.isdigit piece = true -> isdigit piece = true) l
  | Raise e =>
      e = ValueError /\
      Exists (fun piece => Latin1.isdigit piece = true /\ isdigit piece = false) l
  end.
Proof.
  induction l as [|x l IH]; cbn [Latin1.tokens_of]; [constructor|].
  destruct (Latin1.token_of x) as [t|e] eqn:E; cbn [Py.bind].
  - assert (Latin1.isdigit x = true -> isdigit x = true) as Hx.
    { unfold Latin1.token_of in E. destruct (Latin1.isdigit x); [|discriminate].
      destruct (isdigit x); [reflexivity|discriminate]. }
    destruct (Latin1.tokens_of l) as [ts|e]; cbn [Py.bind].
    + now constructor.
    + destruct IH as (-> & IH). split; [reflexivity|]. now apply Exists_cons_tl.
  - apply latin1_token_of_raise in E as (-> & H1 & H2).
    split; [reflexivity|]. apply Exists_cons_hd. auto.
Qed.

(** On ASCII text the key is defined, and it is the key of the pipeline. *)
Lemma latin1_natural_sort_key_ascii (s : string) :
  is_ascii s = true -> Latin1.natural_sort_key s = Ok (natural_sort_key s).
Proof.
  intros H. unfold Latin1.natural_sort_key, natural_sort_key.
  apply latin1_tokens_of_ascii, re_split_digits_ascii, H.
Qed.

(** Letter case does not matter to the key. *)
Lemma latin1_natural_sort_key_lower (s : string) :
  Latin1.natural_sort_key (Latin1.lower s) = Latin1.natural_sort_key s.
Proof.
  unfold Latin1.natural_sort_key.
  rewrite latin1_re_split_digits_lower.
  apply latin1_tokens_of_map, latin1_token_of_lower.
Qed.

(** The pieces of a text that goes on with a digit run: when the text
    before does not end in a digit the run is a piece of its own. *)
Lemma re_split_digits_app_run (p run t : string) :
  ends_with_digit p = false ->
  isdigit run = true -> starts_with_digit t = false ->
  re_split_digits (p +:+ run +:+ t) =
  re_split_digits p ++ run :: re_split_digits t.
Proof.
  intros Hp Hrun Ht.
  induction p as [|c p IH].
  - rewrite app_nil. exact (re_split_digits_run _ _ Hrun Ht).
  - rewrite app_cons. destruct p as [|c' p'].
    + rewrite app_nil. cbn [ends_with_digit] in Hp.
      cbn [re_split_digits]. rewrite Hp.
      rewrite (re_split_digits_run _ _ Hrun Ht). reflexivity.
    + assert (ends_with_digit (String c' p') = false) as Hp' by exact Hp.
      specialize (IH Hp').
      remember (String c' p') as q eqn:Hq.
      cbn [re_split_digits]. rewrite IH.
      destruct (is_digit c) eqn:Dc.
      * subst q. rewrite app_cons.
        destruct (re_split_digits_head (String c' p'))
          as (text & rest & E & Hd).
        rewrite E. cbn [starts_with_digit] in Hd.
        destruct (is_digit c') eqn:Dc'.
        -- destruct (Hd eq_refl) as (-> & run0 & rest0 & ->). reflexivity.
        -- destruct rest as [|run0 rest0]; reflexivity.
      * destruct (re_split_digits q) as [|text rest] eqn:E; [|reflexivity].
        destruct (re_split_digits_head q) as (? & ? & E' & _). congruence.
Qed.

(** The three equations of [re_split_digits]. *)
Lemma re_split_digits_cons_text (c : ascii) (s text : string)
    (rest : list string) :
  is_digit c = false -> re_split_digits s = text :: rest ->
  re_split_digits (String c s) = String c text :: rest.
Proof. intros Dc E. cbn [re_split_digits]. now rewrite Dc, E. Qed.

Lemma re_split_digits_cons_run (c : ascii) (s : string) :
  is_digit c = true -> starts_with_digit s = false ->
  re_split_digits (String c s) =
  EmptyString :: String c EmptyString :: re_split_digits s.
Proof.
  intros Dc Hs. destruct s as [|c' s']; [cbn; now rewrite Dc|].
  cbn [starts_with_digit] in Hs. cbn [re_split_digits]. rewrite Dc, Hs.
  destruct (is_digit c');
    destruct (re_split_digits s') as [|? [|? ?]]; reflexivity.
Qed.

Lemma re_split_digits_cons_digit (c : ascii) (s run : string)
    (rest : list string) :
  is_digit c = true -> starts_with_digit s = true ->
  re_split_digits s = EmptyString :: run :: rest ->
  re_split_digits (String c s) = EmptyString :: String c run :: rest.
Proof.
  intros Dc Hs E. destruct s as [|c' s']; [discriminate|].
  cbn [starts_with_digit] in Hs.
  change (re_split_digits (String c (String c' s')))
    with (let r := re_split_digits (String c' s') in
          if is_digit c then
            match r with
            | _ :: run0 :: rest0 =>
                if is_digit c'
                then EmptyString :: String c run0 :: rest0
                else EmptyString :: String c EmptyString :: r
            | _ => EmptyString :: String c EmptyString :: r
            end
          else
            match r with
            | text :: rest0 => String c text :: rest0
            | [] => [String c EmptyString]
            end).
  cbv zeta. now rewrite E, Dc, Hs.
Qed.

(** The pieces of a text that starts with a digit: an empty text, the
    run, and at least one more piece. *)
Lemma re_split_digits_digit_head (s : string) :
  starts_with_digit s = true ->
  exists run text rest, re_split_digits s = EmptyString :: run :: text :: rest.
Proof.
  intros H. destruct (re_split_digits_head s) as (t & r & E & Hd).
  destruct (Hd H) as (-> & run & rest & ->).
  pose proof (re_split_digits_form s) as F. rewrite E in F.
  cbn [split_form] in F. destruct F as (_ & _ & F).
  destruct rest as [|text rest]; [contradiction|]. eauto.
Qed.

(** The pieces of a text that goes on with a text that does not start
    with a digit: the last piece of the first grows by the first piece of
    the second. *)
Lemma re_split_digits_app_text (p s : string) (h : string) (tl : list string) :
  starts_with_digit s = false ->
  re_split_digits s = h :: tl ->
  re_split_digits (p +:+ s) =
  List.removelast (re_split_digits p) ++
  (List.last (re_split_digits p) EmptyString +:+ h) :: tl.
Proof.
  intros Hs Es. induction p as [|c p IH].
  - rewrite app_nil. cbn. now rewrite app_nil.
  - rewrite app_cons.
    destruct (is_digit c) eqn:Dc.
    + destruct (starts_with_digit p) eqn:Hp.
      * destruct (re_split_digits_digit_head p Hp)
          as (run0 & text0 & rest0 & E0).
        assert (starts_with_digit (p +:+ s) = true) as Hps.
        { destruct p as [|c' p']; [discriminate|]. now rewrite app_cons. }
        rewrite E0 in IH. cbn [List.removelast List.last app] in IH.
        rewrite (re_split_digits_cons_digit c (p +:+ s) _ _ Dc Hps IH).
        rewrite (re_split_digits_cons_digit c p _ _ Dc Hp E0).
        reflexivity.
      * assert (starts_with_digit (p +:+ s) = false) as Hps.
        { destruct p as [|c' p']; [now rewrite app_nil|now rewrite app_cons]. }
        rewrite (re_split_digits_cons_run c (p +:+ s) Dc Hps), IH.
        rewrite (re_split_digits_cons_run c p Dc Hp).
        destruct (re_split_digits_head p) as (text & rest & E & _).
        rewrite E. reflexivity.
    + destruct (re_split_digits_head p) as (text & rest & E & _).
      rewrite E in IH.
      rewrite (re_split_digits_cons_text c p text rest Dc E).
      destruct rest as [|x rest].
      * cbn [List.removelast List.last app] in IH |- *.
        rewrite (re_split_digits_cons_text c (p +:+ s) _ _ Dc IH).
        now rewrite app_cons.
      * cbn [List.removelast List.last app] in IH.
        rewrite (re_split_digits_cons_text c (p +:+ s) _ _ Dc IH).
        reflexivity.
Qed.

(** The last piece of a text that ends in a digit, and of the empty
    text, is empty. *)
Lemma re_split_digits_last (p : string) :
  p = EmptyString \/ ends_with_digit p = true ->
  List.last (re_split_digits p) EmptyString = EmptyString.
Proof.
  intros [->|H]; [reflexivity|].
  induction p as [|c p IH]; [discriminate|].
  destruct p as [|c' p'].
  - cbn [ends_with_digit] in H. cbn [re_split_digits]. now rewrite H.
  - assert (ends_with_digit (String c' p') = true) as H' by exact H.
    specialize (IH H').
    destruct (is_digit c) eqn:Dc.
    + destruct (starts_with_digit (String c' p')) eqn:Hp.
      * destruct (re_split_digits_digit_head _ Hp)
          as (run0 & text0 & rest0 & E0).
        rewrite (re_split_digits_cons_digit c _ _ _ Dc Hp E0).
        rewrite E0 in IH. exact IH.
      * rewrite (re_split_digits_cons_run c _ Dc Hp).
        destruct (re_split_digits_head (String c' p')) as (text & rest & E & _).
        rewrite E in IH |- *. exact IH.
    + destruct (re_split_digits_head (String c' p')) as (text & rest & E & _).
      rewrite (re_split_digits_cons_text c _ text rest Dc E).
      rewrite E in IH. destruct rest as [|x rest]; [|exact IH].
      cbn in IH. subst text.
      exfalso. clear -E H'.
      pose proof (re_split_digits_concat (String c' p')) as Hc.
      rewrite E in Hc. cbn in Hc. discriminate.
Qed.

(** Two keys with a common beginning compare as what follows it. *)
Lemma key_lt_app_common (K a b : list token) :
  key_lt (K ++ a) (K ++ b) = key_lt a b.
Proof.
  induction K as [|x K IH]; [reflexivity|].
  cbn [app key_lt]. now rewrite token_eqb_refl.
Qed.

Lemma string_ltb_empty (s : string) : String.ltb s EmptyString = false.
Proof. destruct s; reflexivity. Qed.

Lemma no_digits_starts (text s : string) :
  no_digits text = true -> text <> EmptyString ->
  starts_with_digit (text +:+ s) = false.
Proof.
  destruct text as [|c text]; [contradiction|]. intros H _.
  rewrite app_cons. cbn in H |- *. apply andb_prop in H as [H _].
  now apply negb_true_iff in H.
Qed.

(** The pieces of a text without digits followed by nothing or by a
    digit: the text, then the pieces of what follows but the first, which
    is empty. *)
Lemma re_split_digits_text_then (text r : string) :
  no_digits text = true ->
  r = EmptyString \/ starts_with_digit r = true ->
  re_split_digits (text +:+ r) = text :: List.tl (re_split_digits r).
Proof.
  intros Ht Hr.
  destruct (re_split_digits_text text r Ht) as (head & tail & E & ->).
  rewrite E. cbn [List.tl].
  assert (head = EmptyString) as ->.
  { destruct Hr as [->|Hr]; [cbn in E; now injection E as <- _|].
    destruct (re_split_digits_digit_head r Hr) as (? & ? & ? & E').
    rewrite E' in E. now injection E as <- _. }
  now rewrite app_empty_r.
Qed.

(** Where two names first differ in a digit run, after beginnings with
    the same key, the values of the runs decide. *)
Lemma latin1_key_lt_digit_runs (p1 p2 run1 run2 t1 t2 : string)
    (k1 k2 : list token) :
  Latin1.natural_sort_key (p1 +:+ run1 +:+ t1) = Ok k1 ->
  Latin1.natural_sort_key (p2 +:+ run2 +:+ t2) = Ok k2 ->
  Latin1.natural_sort_key p1 = Latin1.natural_sort_key p2 ->
  ends_with_digit p1 = false -> ends_with_digit p2 = false ->
  isdigit run1 = true -> isdigit run2 = true ->
  starts_with_digit t1 = false -> starts_with_digit t2 = false ->
  int_of_digits run1 < int_of_digits run2 ->
  key_lt k1 k2 = Ok true /\ key_lt k2 k1 = Ok false.
Proof.
  unfold Latin1.natural_sort_key.
  intros E1 E2 Hp Hp1 Hp2 Hr1 Hr2 Ht1 Ht2 Hlt.
  rewrite (re_split_digits_app_run _ _ _ Hp1 Hr1 Ht1), latin1_tokens_of_app in E1.
  rewrite (re_split_digits_app_run _ _ _ Hp2 Hr2 Ht2), latin1_tokens_of_app in E2.
  rewrite <- Hp in E2.
  destruct (Latin1.tokens_of (re_split_digits p1)) as [K|e]; [|discriminate].
  cbn [Py.bind Latin1.tokens_of] in E1, E2.
  rewrite (latin1_token_of_run _ Hr1) in E1.
  rewrite (latin1_token_of_run _ Hr2) in E2.
  cbn [Py.bind] in E1, E2.
  destruct (Latin1.tokens_of (re_split_digits t1)) as [T1|e]; [|discriminate].
  destruct (Latin1.tokens_of (re_split_digits t2)) as [T2|e]; [|discriminate].
  injection E1 as <-. injection E2 as <-.
  rewrite !key_lt_app_common. cbn [key_lt token_eqb token_lt].
  replace (int_of_digits run1 =? int_of_digits run2) with false
    by (symmetry; apply Z.eqb_neq; lia).
  replace (int_of_digits run2 =? int_of_digits run1) with false
    by (symmetry; apply Z.eqb_neq; lia).
  split; f_equal; [apply Z.ltb_lt|apply Z.ltb_ge]; lia.
Qed.

(** A zero put before a digit run does not change the key. *)
Lemma latin1_leading_zero (p run t : string) :
  ends_with_digit p = false -> isdigit run = true ->
  starts_with_digit t = false ->
  Latin1.natural_sort_key (p +:+ String "0" run +:+ t) =
  Latin1.natural_sort_key (p +:+ run +:+ t).
Proof.
  intros Hp Hr Ht. unfold Latin1.natural_sort_key.
  assert (isdigit (String "0" run) = true) as Hr0.
  { destruct run; [discriminate|exact Hr]. }
  rewrite (re_split_digits_app_run _ _ _ Hp Hr Ht).
  rewrite (re_split_digits_app_run _ _ _ Hp Hr0 Ht).
  rewrite !latin1_tokens_of_app. cbn [Latin1.tokens_of].
  now rewrite (latin1_token_of_run _ Hr), (latin1_token_of_run _ Hr0).
Qed.

(** Where two names first differ in a piece of text, after beginnings
    with the same key, the lower-case forms of the texts decide. *)
Lemma latin1_key_lt_texts (p1 p2 text1 text2 r1 r2 : string)
    (k1 k2 : list token) :
  Latin1.natural_sort_key (p1 +:+ text1 +:+ r1) = Ok k1 ->
  Latin1.natural_sort_key (p2 +:+ text2 +:+ r2) = Ok k2 ->
  Latin1.natural_sort_key p1 = Latin1.natural_sort_key p2 ->
  p1 = EmptyString \/ ends_with_digit p1 = true ->
  p2 = EmptyString \/ ends_with_digit p2 = true ->
  no_digits text1 = true -> no_digits text2 = true ->
  r1 = EmptyString \/ starts_with_digit r1 = true ->
  r2 = EmptyString \/ starts_with_digit r2 = true ->
  (text1 = EmptyString -> r1 = EmptyString) ->
  String.ltb (Latin1.lower text1) (Latin1.lower text2) = true ->
  key_lt k1 k2 = Ok true /\ key_lt k2 k1 = Ok false.
Proof.
  unfold Latin1.natural_sort_key.
  intros E1 E2 Hp Hp1 Hp2 Ht1 Ht2 Hr1 Hr2 Hempty Hlt.
  assert (text2 <> EmptyString) as Hne2.
  { intros ->. cbn in Hlt. now rewrite string_ltb_empty in Hlt. }
  assert (forall p text r k,
            p = EmptyString \/ ends_with_digit p = true ->
            no_digits text = true ->
            r = EmptyString \/ starts_with_digit r = true ->
            (text = EmptyString -> r = EmptyString) ->
            Latin1.tokens_of (re_split_digits (p +:+ text +:+ r)) = Ok k ->
            exists K R,
              Latin1.tokens_of (re_split_digits p) = Ok (K ++ [TStr EmptyString]) /\
              k = K ++ TStr (Latin1.lower text) :: R) as Hshape.
  { intros p text r k Hpe Ht Hr He E.
    assert (starts_with_digit (text +:+ r) = false) as Hs.
    { destruct text as [|c text].
      - rewrite (He eq_refl). reflexivity.
      - now apply no_digits_starts. }
    rewrite (re_split_digits_app_text p (text +:+ r) text
               (List.tl (re_split_digits r)) Hs
               (re_split_digits_text_then _ _ Ht Hr)) in E.
    rewrite (re_split_digits_last p Hpe), app_nil in E.
    rewrite latin1_tokens_of_app in E.
    destruct (Latin1.tokens_of (List.removelast (re_split_digits p)))
      as [K|e] eqn:EK; [|discriminate].
    cbn [Py.bind Latin1.tokens_of] in E.
    rewrite (latin1_token_of_text _ Ht) in E.
    destruct (Latin1.isdigit text); [discriminate|]. cbn [Py.bind] in E.
    destruct (Latin1.tokens_of (List.tl (re_split_digits r))) as [R|e];
      [|discriminate].
    injection E as <-. exists K, R. split; [|reflexivity].
    destruct (re_split_digits_head p) as (h & tl & Eh & _).
    rewrite (app_removelast_last EmptyString (l := re_split_digits p))
      by (rewrite Eh; discriminate).
    rewrite (re_split_digits_last p Hpe), latin1_tokens_of_app, EK.
    reflexivity. }
  destruct (Hshape p1 text1 r1 k1 Hp1 Ht1 Hr1 Hempty E1) as (K1 & R1 & EK1 & ->).
  destruct (Hshape p2 text2 r2 k2 Hp2 Ht2 Hr2 ltac:(intros; contradiction) E2)
    as (K2 & R2 & EK2 & ->).
  rewrite Hp, EK2 in EK1. injection EK1 as EK.
  apply app_inj_tail in EK as [<- _].
  rewrite !key_lt_app_common. cbn [key_lt token_eqb token_lt].
  destruct (string_ltb_cases (Latin1.lower text1) (Latin1.lower text2))
    as [(_ & Hgt & Hne)|[Heq|(Hgt & Hlt' & _)]].
  - replace (String.eqb (Latin1.lower text1) (Latin1.lower text2)) with false
      by (symmetry; now apply String.eqb_neq).
    replace (String.eqb (Latin1.lower text2) (Latin1.lower text1)) with false
      by (symmetry; apply String.eqb_neq; congruence).
    now rewrite Hlt, Hgt.
  - rewrite Heq, string_ltb_irrefl in Hlt. discriminate.
  - congruence.
Qed.

(** The sort by name. *)
Lemma latin1_natural_sort_key_raise (s : string) (e : exn) :
  Latin1.natural_sort_key s = Raise e -> e = ValueError.
Proof.
  unfold Latin1.natural_sort_key. intros H.
  pose proof (latin1_tokens_of_defined (re_split_digits s)) as D.
  rewrite H in D. apply D.
Qed.

Lemma latin1_key_of_form (s : string) : key_form true (Latin1.key_of s).
Proof.
  unfold Latin1.key_of.
  destruct (Latin1.natural_sort_key s) as [k|e] eqn:E; [|exact I].
  exact (latin1_natural_sort_key_form _ _ E).
Qed.

Lemma latin1_keys_of_defined (images : list string) :
  match Latin1.keys_of images with
  | Ok keys =>
      keys = map Latin1.key_of images /\
      Forall (fun f => exists k, Latin1.natural_sort_key f = Ok k) images
  | Raise e =>
      e = ValueError /\
      Exists (fun f => Latin1.natural_sort_key f = Raise ValueError) images
  end.
Proof.
  induction images as [|x images IH]; cbn [Latin1.keys_of].
  - split; [reflexivity|constructor].
  - destruct (Latin1.natural_sort_key x) as [k|e] eqn:E; cbn [Py.bind].
    + destruct (Latin1.keys_of images) as [ks|e]; cbn [Py.bind].
      * destruct IH as (-> & IH). split.
        -- cbn [map]. f_equal. unfold Latin1.key_of. now rewrite E.
        -- constructor; eauto.
      * destruct IH as (-> & IH). split; [reflexivity|].
        now apply Exists_cons_tl.
    + pose proof (latin1_natural_sort_key_raise _ _ E) as ->.
      split; [reflexivity|]. now apply Exists_cons_hd.
Qed.

Lemma latin1_keys_of_ascii (images : list string) :
  Forall (fun f => is_ascii f = true) images ->
  Latin1.keys_of images = Ok (map natural_sort_key images).
Proof.
  induction 1 as [|x images Hx Hl IH]; [reflexivity|].
  cbn [Latin1.keys_of map].
  now rewrite (latin1_natural_sort_key_ascii _ Hx), IH.
Qed.

(* ===================================================================== *)
(** * The order of the keys                                               *)
(* ===================================================================== *)

(** C4, as the specification states it, fails twice. The comparison is
    not defined for every pair of names, because the key is not: in a
    name made of "1", the superscript two (U+00B2) and "2.png", the piece
    between the runs "1" and "2" is the superscript two, for which
    [isdigit] holds and [int] raises [ValueError]. And two
    keys can be equal though the names are not: "A.png" and "a.png"
    differ, and so do "img01.png" and "img1.png", yet each pair has one
    key. *)
Lemma natural_sort_key_not_injective :
  Latin1.natural_sort_key (String "1" (String superscript_two "2.png")) =
    Raise ValueError /\
  "A.png" <> "a.png" /\
  Latin1.natural_sort_key "A.png" = Latin1.natural_sort_key "a.png" /\
  "img01.png" <> "img1.png" /\
  Latin1.natural_sort_key "img01.png" = Latin1.natural_sort_key "img1.png" /\
  ~ (forall s1 s2 : string,
       exists k1 k2 b,
         Latin1.natural_sort_key s1 = Ok k1 /\
         Latin1.natural_sort_key s2 = Ok k2 /\
         key_lt k1 k2 = Ok b /\ (k1 = k2 -> s1 = s2)).
Proof.
  repeat apply conj; try reflexivity; try discriminate.
  intros H. destruct (H "A.png" "a.png") as (k1 & k2 & b & H1 & H2 & _ & Heq).
  vm_compute in H1, H2. rewrite H1 in H2. injection H2 as H2.
  specialize (Heq H2). discriminate Heq.
Qed.

(** C4 (amended): [natural_sort_key] returns a key or raises [ValueError],
    and it raises exactly when one of the pieces that [re.split] leaves
    is made of digit characters that are not all decimal digits; a name
    in ASCII always has a key. Comparing two keys never raises, and the
    comparison is a strict total order on the keys: of two keys one is
    smaller or they are equal, no key is smaller than itself, and the
    comparison is transitive. Where two names go on with a digit run
    after beginnings of equal keys, the integer values of the runs decide;
    where they go on with a piece of text, the lower-case forms of the
    texts decide, compared as strings. The key depends neither on letter
    case nor on a leading zero of a digit run, so names that differ only
    there have one key. The key of "img2.png" is smaller than the key of
    "img10.png". *)
Theorem natural_sort_key_order :
  (forall s : string,
      match Latin1.natural_sort_key s with
      | Ok _ =>
          Forall (fun piece => Latin1.isdigit piece = true -> isdigit piece = true)
                 (re_split_digits s)
      | Raise e =>
          e = ValueError /\
          Exists (fun piece => Latin1.isdigit piece = true /\ isdigit piece = false)
                 (re_split_digits s)
      end) /\
  (forall s : string,
      is_ascii s = true -> Latin1.natural_sort_key s = Ok (natural_sort_key s)) /\
  (forall (s1 s2 : string) (k1 k2 : list token),
      Latin1.natural_sort_key s1 = Ok k1 ->
      Latin1.natural_sort_key s2 = Ok k2 ->
      (exists b, key_lt k1 k2 = Ok b) /\
      ((key_lt k1 k2 = Ok true /\ key_lt k2 k1 = Ok false /\ k1 <> k2) \/
       (k1 = k2 /\ key_lt k1 k2 = Ok false /\ key_lt k2 k1 = Ok false) \/
       (key_lt k2 k1 = Ok true /\ key_lt k1 k2 = Ok false /\ k1 <> k2))) /\
  (forall (s : string) (k : list token),
      Latin1.natural_sort_key s = Ok k -> key_lt k k = Ok false) /\
  (forall (s1 s2 s3 : string) (k1 k2 k3 : list token),
      Latin1.natural_sort_key s1 = Ok k1 ->
      Latin1.natural_sort_key s2 = Ok k2 ->
      Latin1.natural_sort_key s3 = Ok k3 ->
      key_lt k1 k2 = Ok true -> key_lt k2 k3 = Ok true ->
      key_lt k1 k3 = Ok true) /\
  (forall (p1 p2 run1 run2 t1 t2 : string) (k1 k2 : list token),
      Latin1.natural_sort_key (p1 +:+ run1 +:+ t1) = Ok k1 ->
      Latin1.natural_sort_key (p2 +:+ run2 +:+ t2) = Ok k2 ->
      Latin1.natural_sort_key p1 = Latin1.natural_sort_key p2 ->
      ends_with_digit p1 = false -> ends_with_digit p2 = false ->
      isdigit run1 = true -> isdigit run2 = true ->
      starts_with_digit t1 = false -> starts_with_digit t2 = false ->
      int_of_digits run1 < int_of_digits run2 ->
      key_lt k1 k2 = Ok true /\ key_lt k2 k1 = Ok false) /\
  (forall (p1 p2 text1 text2 r1 r2 : string) (k1 k2 : list token),
      Latin1.natural_sort_key (p1 +:+ text1 +:+ r1) = Ok k1 ->
      Latin1.natural_sort_key (p2 +:+ text2 +:+ r2) = Ok k2 ->
      Latin1.natural_sort_key p1 = Latin1.natural_sort_key p2 ->
      p1 = EmptyString \/ ends_with_digit p1 = true ->
      p2 = EmptyString \/ ends_with_digit p2 = true ->
      no_digits text1 = true -> no_digits text2 = true ->
      r1 = EmptyString \/ starts_with_digit r1 = true ->
      r2 = EmptyString \/ starts_with_digit r2 = true ->
      (text1 = EmptyString -> r1 = EmptyString) ->
      String.ltb (Latin1.lower text1) (Latin1.lower text2) = true ->
      key_lt k1 k2 = Ok true /\ key_lt k2 k1 = Ok false) /\
  (forall s : string,
      Latin1.natural_sort_key (Latin1.lower s) = Latin1.natural_sort_key s) /\
  (forall p run t : string,
      ends_with_digit p = false -> isdigit run = true ->
      starts_with_digit t = false ->
      Latin1.natural_sort_key (p +:+ String "0" run +:+ t) =
      Latin1.natural_sort_key (p +:+ run +:+ t)) /\
  (exists k1 k2,
      Latin1.natural_sort_key "img2.png" = Ok k1 /\
      Latin1.natural_sort_key "img10.png" = Ok k2 /\
      key_lt k1 k2 = Ok true /\ key_lt k2 k1 = Ok false).
Proof.
  repeat apply conj.
  - intros s. unfold Latin1.natural_sort_key.
    apply latin1_tokens_of_defined.
  - apply latin1_natural_sort_key_ascii.
  - intros s1 s2 k1 k2 H1 H2.
    apply latin1_natural_sort_key_form in H1, H2.
    split; [now apply (key_lt_defined true)|now apply (key_lt_cases true)].
  - intros s k _. apply key_lt_irrefl.
  - intros s1 s2 s3 k1 k2 k3 H1 H2 H3.
    apply latin1_natural_sort_key_form in H1, H2, H3.
    now apply (key_lt_trans true).
  - apply latin1_key_lt_digit_runs.
  - apply latin1_key_lt_texts.
  - apply latin1_natural_sort_key_lower.
  - apply latin1_leading_zero.
  - eexists _, _. repeat split.
Qed.

Lemma natural_sort_key_order_witness :
  key_lt (Latin1.key_of "v1_p9b.png") (Latin1.key_of "V01_p10a.png") = Ok true /\
  key_lt (Latin1.key_of "x1b.png") (Latin1.key_of "X01C.png2") = Ok true /\
  key_lt (Latin1.key_of "x1") (Latin1.key_of "x1a") = Ok true /\
  key_lt (Latin1.key_of "a1.jpg") (Latin1.key_of "a10.jpg") = Ok true /\
  Latin1.natural_sort_key "a07.JPG" = Latin1.natural_sort_key "A7.jpg" /\
  Latin1.natural_sort_key (String capital_a_grave "1.png") =
    Latin1.natural_sort_key (String small_a_grave "1.png").
Proof.
  destruct natural_sort_key_order
    as (_ & _ & _ & _ & Htrans & Hruns & Htexts & Hlower & Hzero & _).
  repeat apply conj.
  - refine (proj1 (Hruns "v1_p" "V01_p" "9" "10" "b.png" "a.png"
                     (Latin1.key_of "v1_p9b.png") (Latin1.key_of "V01_p10a.png")
                     _ _ _ _ _ _ _ _ _ _));
      reflexivity || (vm_compute; reflexivity).
  - refine (proj1 (Htexts "x1" "X01" "b.png" "C.png" "" "2"
                     (Latin1.key_of "x1b.png") (Latin1.key_of "X01C.png2")
                     _ _ _ _ _ _ _ _ _ _ _));
      try (vm_compute; reflexivity); auto; discriminate.
  - refine (proj1 (Htexts "x1" "x1" "" "a" "" ""
                     (Latin1.key_of "x1") (Latin1.key_of "x1a")
                     _ _ _ _ _ _ _ _ _ _ _));
      try (vm_compute; reflexivity); auto.
  - apply (Htrans "a1.jpg" "a2.jpg" "a10.jpg"
                   (Latin1.key_of "a1.jpg") (Latin1.key_of "a2.jpg")
                   (Latin1.key_of "a10.jpg"));
      vm_compute; reflexivity.
  - rewrite <- (Hlower "a07.JPG"), <- (Hlower "A7.jpg").
    apply (Hzero "a" "7" ".jpg"); reflexivity.
  - rewrite <- (Hlower (String capital_a_grave "1.png")). reflexivity.
Defined.

(* ===================================================================== *)
(** * The compositor: size of the canvas and of the resized image         *)
(* ===================================================================== *)

(** C3: whenever [resize_and_align_image] returns, the canvas it returns
    has exactly the size of the cell, [(W, H)], whatever the size and the
    aspect ratio of the source image. *)
Theorem resize_and_align_image_canvas_size
    (fonts : Fonts) (image : Image) (W H margin : Z) (label : option string)
    (canvas : Image) :
  resize_and_align_image fonts image (W, H) margin label = Ok canvas ->
  width canvas = W /\ height canvas = H.
Proof.
  intros Hrun. apply canvas_size in Hrun.
  unfold PIL.size in Hrun. injection Hrun as -> ->. split; reflexivity.
Qed.

Lemma resize_and_align_image_canvas_size_witness :
  exists canvas,
    resize_and_align_image example_fonts (Decoded 100 200 "px") (595, 421) 10
      (Some "Question 1") = Ok canvas /\
    width canvas = 595 /\ height canvas = 421.
Proof.
  eexists. split; [vm_compute; reflexivity|].
  apply (resize_and_align_image_canvas_size example_fonts
           (Decoded 100 200 "px") 595 421 10 (Some "Question 1")).
  vm_compute. reflexivity.
Defined.

(** C2, at two inputs where the code leaves the claim. The side that
    constrains is chosen by comparing the ratio of the image with the ratio
    of the whole cell, not with that of the usable area.

    A 65 x 100 image in a 595 x 842 cell with a margin of 100 and no
    label: the usable area is 395 x 642; the ratio of the image, 0.65, is
    below that of the cell, 0.7067, though above that of the usable area,
    0.6153; the height is taken as the constraint and the width becomes
    [round(642 * 0.65) = 417], more than the usable width 395, so that the
    image, pasted at x = 89, lies over the margin.

    A 596 x 842 image in the same cell with no margin and the label
    "Question 1", 14 pixels high with its padding: the usable area is
    595 x 828; the ratio of the image is above that of the cell, the width
    is taken as the constraint and the height becomes
    [round(595 / 0.7078) = 841], more than the usable height 828; pasted
    at y = 14 the image ends at 855, below the end of the canvas at 842. *)
Theorem new_size_exceeds_usable_width :
  (let image := Decoded 65 100 "px" in
   let page_size := (595, 842) in
   let margin := 100 in
   let usable_width := fst page_size - 2 * margin in
   let usable_height := snd page_size - 2 * margin - 0 in
   new_size example_fonts image page_size margin None = Ok (417, 642) /\
   usable_width = 395 /\ usable_height = 642 /\
   usable_width < 417 /\
   resize_and_align_image example_fonts image page_size margin None =
     Ok (Pasted (New 595 842) (Resized image 417 642) 89 100)) /\
  (let image := Decoded 596 842 "px" in
   let page_size := (595, 842) in
   let label := Some "Question 1" in
   let label_height := label_height_of example_fonts 16 label in
   let usable_height := snd page_size - 2 * 0 - label_height in
   font_size_of page_size = Ok 16 /\
   label_height = 14 /\ usable_height = 828 /\
   new_size example_fonts image page_size 0 label = Ok (595, 841) /\
   usable_height < 841 /\
   resize_and_align_image example_fonts image page_size 0 label =
     Ok (Pasted (Text (New 595 842) 0 0 "Question 1" 16)
           (Resized image 595 841) 0 14) /\
   snd page_size < 14 + 841).
Proof. vm_compute. repeat split; reflexivity. Qed.

(** C5, as the specification states it, fails: with a 595 x 842 cell and a
    margin of 298 the usable width is -1; for a 650 x 100 image the size
    handed to the resize step is (-1, 0), not clamped to one pixel, and the
    operation raises [ValueError]. *)
Lemma resize_size_not_clamped :
  let image := Decoded 650 100 "px" in
  let page_size := (595, 842) in
  let margin := 298 in
  fst page_size - 2 * margin <= 0 /\
  new_size example_fonts image page_size margin None = Ok (-1, 0) /\
  resize_and_align_image example_fonts image page_size margin None =
    Raise ValueError.
Proof. vm_compute. repeat split; try reflexivity. discriminate. Qed.

(** C5 (amended): the size handed to the resize step is the computed one,
    unclamped: the side the comparison of the ratios picks is the usable
    side itself (so it is zero or negative when the usable side is), and
    whenever a side of that size is below one pixel, and the size is not
    the one the image already has, the resize step raises [ValueError] and
    the operation fails with it. *)
Theorem resize_size_unclamped
    (fonts : Fonts) (image : Image) (page_size : Z * Z) (margin : Z)
    (label : option string) (new_width new_height : Z) :
  new_size fonts image page_size margin label = Ok (new_width, new_height) ->
  (exists font_size,
      font_size_of page_size = Ok font_size /\
      (new_width = fst page_size - 2 * margin \/
       new_height =
         snd page_size - 2 * margin - label_height_of fonts font_size label)) /\
  (new_width < 1 \/ new_height < 1 ->
   (new_width, new_height) <> PIL.size image ->
   resize_and_align_image fonts image page_size margin label = Raise ValueError).
Proof.
  intros Hsize. split.
  - destruct (new_size_cases _ _ _ _ _ _ _ Hsize)
      as (r1 & r2 & fs & _ & _ & Hfs & [(_ & Hw & _)|(_ & Hh & _)]);
      exists fs; auto.
  - apply small_size_raises. exact Hsize.
Qed.

Lemma resize_size_unclamped_witness :
  resize_and_align_image example_fonts (Decoded 650 100 "px") (595, 842) 298 None
    = Raise ValueError.
Proof.
  apply (resize_size_unclamped example_fonts (Decoded 650 100 "px")
           (595, 842) 298 None (-1) 0).
  - vm_compute. reflexivity.
  - left. lia.
  - vm_compute. discriminate.
Defined.

(* ===================================================================== *)
(** * The pipeline: images_to_pdf                                         *)
(* ===================================================================== *)

(** C8: for a directory whose listing has no name with a recognized image
    extension, [images_to_pdf] prints its message and returns normally; it
    raises nothing, and the file system and the list of files written or
    removed are as before: neither [combined_output.pdf] nor a temporary
    file is created. *)
Theorem images_to_pdf_no_images
    (fonts : Fonts) (directory : string) (images_per_page : Z)
    (delete_images : bool) (margin : Z) (label_images sort_by_time : bool)
    (w : World) (names : list string) :
  fst (listdir directory w) = Ok names ->
  List.filter is_image_name names = [] ->
  images_to_pdf fonts directory images_per_page delete_images margin
    label_images sort_by_time w =
  (Ok tt,
   {| fs := fs w; cwd := cwd w; clock := clock w;
      stdout := stdout w ++ ["No images found in the directory."];
      trace := trace w |}).
Proof.
  intros Hlist Hnone.
  rewrite (images_to_pdf_unfold _ _ _ _ _ _ _ w names Hlist), Hnone.
  reflexivity.
Qed.

Lemma images_to_pdf_no_images_witness :
  images_to_pdf example_fonts "/empty" 2 true 10 true false example_world =
  (Ok tt,
   {| fs := fs example_world; cwd := "/home"; clock := 100;
      stdout := ["No images found in the directory."];
      trace := [] |}).
Proof.
  apply (images_to_pdf_no_images example_fonts "/empty" 2 true 10 true false
           example_world ["readme.txt"]).
  - vm_compute. reflexivity.
  - vm_compute. reflexivity.
Defined.



(** C1: for a directory with [N >= 1] recognized images and
    [images_per_page = k >= 1], a run that does not raise writes one
    one-page temporary PDF for each page and appends it to the merger,
    [P] of them, where [P] is the ceiling of [N / k]; the file
    [combined_output.pdf] holds these [P] pages when the run ends; every
    page holds [k] cells except that the last one holds the [N - k (P - 1)]
    cells that are left. *)
Theorem images_to_pdf_page_count
    (fonts : Fonts) (directory : string) (k : Z) (delete_images : bool)
    (margin : Z) (label_images sort_by_time : bool) (w w' : World)
    (names : list string) :
  fst (listdir directory w) = Ok names ->
  let N := Z.of_nat (length (List.filter is_image_name names)) in
  1 <= N -> 1 <= k ->
  images_to_pdf fonts directory k delete_images margin label_images
    sort_by_time w = (Ok tt, w') ->
  exists out pages removed,
    let P := Z.of_nat (length pages) in
    let temps := map (temp_path (cwd w)) (range 1 (1 + P)) in
    (P - 1) * k < N <= P * k /\
    P = (N + k - 1) / k /\
    resolve w (output_pdf_path directory) = Ok out /\
    fs w' !! out = Some (File (clock w) (PdfData pages)) /\
    (forall idx page,
        pages !! idx = Some page ->
        Z.of_nat (length (page_cells page)) = Z.min k (N - k * Z.of_nat idx)) /\
    trace w' =
      trace w ++ map Wrote temps ++ [Wrote out] ++ map Removed temps ++
      map Removed removed /\
    fs w' =
      delete_all removed
        (delete_all temps
           (<[out := File (clock w) (PdfData pages)]>
              (put_temps (cwd w) (clock w) 1 pages (fs w)))).
Proof.
  intros Hlist N HN Hk Hrun.
  assert (List.filter is_image_name names <> []) as Hne.
  { intros E. unfold N in HN. rewrite E in HN. simpl in HN. lia. }
  destruct (run_ok _ _ _ _ _ _ _ w w' names Hlist Hne Hrun)
    as (sorted & v & w1 & out & removed & _ & Hperm & _ & _ & Hloop & Hout & _ &
        Hfinal & Hlookup).
  cbv zeta in Hloop, Hfinal.
  destruct Hloop as (_ & Hflushed & Hcount).
  destruct Hfinal as (_ & _ & _ & Htrace & Hfs).
  destruct (Hcount Hk) as (Hpages & Hsum).
  assert (Z.of_nat (length sorted) = N) as Hlen.
  { unfold N. now rewrite (Permutation_length Hperm). }
  rewrite Hlen in Hpages, Hsum.
  exists out, (pdf_merger v), removed. cbv zeta.
  assert ((Z.of_nat (length (pdf_merger v)) - 1) * k < N
          <= Z.of_nat (length (pdf_merger v)) * k) as Hceil.
  { destruct Hsum as [(Hlt & _)|(_ & _ & H)]; [lia|exact H]. }
  repeat match goal with |- _ /\ _ => split end; try assumption; try lia.
  apply (Z.div_unique _ _ _
           (N + k - 1 - k * Z.of_nat (length (pdf_merger v)))); lia.
Qed.

Lemma images_to_pdf_page_count_witness :
  exists out pages,
    (Z.of_nat (length pages) - 1) * 2 < 3 <= Z.of_nat (length pages) * 2 /\
    Z.of_nat (length pages) = (3 + 2 - 1) / 2 /\
    resolve example_world (output_pdf_path "/pics") = Ok out /\
    fs (snd (images_to_pdf example_fonts "/pics" 2 false 10 true false
               example_world)) !! out =
      Some (File 100 (PdfData pages)).
Proof.
  destruct (images_to_pdf_page_count example_fonts "/pics" 2 false 10 true false
              example_world
              (snd (images_to_pdf example_fonts "/pics" 2 false 10 true false
                      example_world))
              ["a1.jpg"; "a10.jpg"; "a2.jpg"; "notes.txt"])
    as (out & pages & removed & H1 & H2 & H3 & H4 & _).
  - vm_compute. reflexivity.
  - vm_compute. discriminate.
  - lia.
  - vm_compute. reflexivity.
  - exists out, pages. repeat split; try assumption; apply H1.
Defined.

(** C6: in a run with [label_images = true] that does not raise, the cells
    on the pages of [combined_output.pdf], read page after page, are the
    images in their sorted order, and the [i]-th of them (counted from 1
    over the whole run, not page by page) is composited with the label
    "Question i" and shows it. *)
Theorem images_to_pdf_labels
    (fonts : Fonts) (directory : string) (images_per_page : Z)
    (delete_images : bool) (margin : Z) (sort_by_time : bool)
    (w w' : World) (names : list string) :
  fst (listdir directory w) = Ok names ->
  List.filter is_image_name names <> [] ->
  images_to_pdf fonts directory images_per_page delete_images margin true
    sort_by_time w = (Ok tt, w') ->
  exists sorted out pages,
    sort_images directory sort_by_time (List.filter is_image_name names) w
      = (Ok sorted, w) /\
    resolve w (output_pdf_path directory) = Ok out /\
    fs w' !! out = Some (File (clock w) (PdfData pages)) /\
    let cells := concat (map page_cells pages) in
    length cells = length sorted /\
    forall (i : nat) (cell : Image),
      cells !! i = Some cell ->
      let label := "Question " +:+ str_of_int (1 + Z.of_nat i) in
      cell_label cell = Some label /\
      exists f p t img,
        sorted !! i = Some f /\
        resolve w (join directory f) = Ok p /\
        fs w !! p = Some (File t (ImageData img)) /\
        resize_and_align_image fonts (ConvertedRGB img)
          (fst A4_PAGE_SIZE, snd A4_PAGE_SIZE / images_per_page) margin
          (Some label) = Ok cell.
Proof.
  intros Hlist Hne Hrun.
  destruct (run_ok _ _ _ _ _ _ _ w w' names Hlist Hne Hrun)
    as (sorted & v & w1 & out & removed & Hsort & _ & _ & _ & Hloop & Hout & _ &
        _ & Hlookup).
  cbv zeta in Hloop. destruct Hloop as ((_ & Hlen & Hcells) & Hflushed & _).
  unfold LoopInvariants.cells_so_far in Hlen, Hcells.
  rewrite Hflushed, app_nil_r in Hlen, Hcells.
  exists sorted, out, (pdf_merger v). cbv zeta.
  repeat match goal with |- _ /\ _ => split end; try assumption.
  intros i cell Hcell.
  destruct (Hcells i cell Hcell) as (f & p & t & img & Hf & Hp & Himg & Hres).
  unfold LoopInvariants.label_at in Hres. split.
  - eapply cell_label_ok; [|exact Hres]. reflexivity.
  - exists f, p, t, img. auto.
Qed.

Lemma images_to_pdf_labels_witness :
  exists sorted out pages,
    sorted = ["a1.jpg"; "a2.jpg"; "a10.jpg"] /\
    out = "/pics/combined_output.pdf" /\
    fs (snd (images_to_pdf example_fonts "/pics" 2 false 10 true false
               example_world)) !! out =
      Some (File 100 (PdfData pages)) /\
    map cell_label (concat (map page_cells pages)) =
      [Some "Question 1"; Some "Question 2"; Some "Question 3"].
Proof.
  destruct (images_to_pdf_labels example_fonts "/pics" 2 false 10 false
              example_world
              (snd (images_to_pdf example_fonts "/pics" 2 false 10 true false
                      example_world))
              ["a1.jpg"; "a10.jpg"; "a2.jpg"; "notes.txt"])
    as (sorted & out & pages & Hsort & Hout & Hfs & _).
  - vm_compute. reflexivity.
  - vm_compute. discriminate.
  - vm_compute. reflexivity.
  - exists sorted, out, pages.
    assert (sorted = ["a1.jpg"; "a2.jpg"; "a10.jpg"]) as Hs.
    { vm_compute in Hsort. now injection Hsort. }
    assert (out = "/pics/combined_output.pdf") as Ho.
    { vm_compute in Hout. now injection Hout. }
    repeat split; try assumption.
    subst out. vm_compute in Hfs. injection Hfs as <-. reflexivity.
Defined.

(** C7: in a run with [delete_images = true] that does not raise, every
    image file that was enumerated is removed and is gone from the
    directory when the run ends. The files written are the temporary files
    and then [combined_output.pdf]; every removal, of the temporary files
    and then of the images, comes after the output was written, and the
    output is not among the files removed: when the run ends it holds the
    document that was written, the same that the run leaves when it is
    asked to keep the images. *)
Theorem images_to_pdf_delete_images
    (fonts : Fonts) (directory : string) (images_per_page : Z) (margin : Z)
    (label_images sort_by_time : bool) (w w' : World) (names : list string) :
  fst (listdir directory w) = Ok names ->
  images_to_pdf fonts directory images_per_page true margin label_images
    sort_by_time w = (Ok tt, w') ->
  forall f, In f (List.filter is_image_name names) ->
    exists p out pages temps removed,
      resolve w (join directory f) = Ok p /\
      In p removed /\
      fs w' !! p = None /\
      resolve w (output_pdf_path directory) = Ok out /\
      trace w' =
        trace w ++ map Wrote temps ++ [Wrote out] ++ map Removed temps ++
        map Removed removed /\
      ~ In out temps /\ ~ In out removed /\
      fs w' !! out = Some (File (clock w) (PdfData pages)) /\
      fs w' =
        delete_all removed
          (delete_all temps
             (<[out := File (clock w) (PdfData pages)]>
                (put_temps (cwd w) (clock w) 1 pages (fs w)))) /\
      exists w'',
        images_to_pdf fonts directory images_per_page false margin
          label_images sort_by_time w = (Ok tt, w'') /\
        fs w'' !! out = fs w' !! out.
Proof.
  intros Hlist Hrun f Hf.
  assert (List.filter is_image_name names <> []) as Hne.
  { intros E. rewrite E in Hf. contradiction. }
  destruct (run_ok _ _ _ _ _ _ _ w w' names Hlist Hne Hrun)
    as (sorted & v & w1 & out & removed & _ & Hperm & _ & _ & _ & Hout & Hrem &
        Hfinal & Hlookup).
  cbv zeta in Hfinal. destruct Hfinal as (_ & _ & _ & Htrace & Hfs).
  assert (In f sorted) as Hsorted.
  { eapply Permutation_in; [symmetry; exact Hperm|exact Hf]. }
  destruct (Forall2_In_l _ _ _ _ Hrem Hsorted) as (p & Hp & Hres).
  exists p, out, (pdf_merger v),
    (map (temp_path (cwd w)) (range 1 (1 + Z.of_nat (length (pdf_merger v))))),
    removed.
  repeat match goal with |- _ /\ _ => split end; try assumption.
  - rewrite Hfs. now apply delete_all_lookup_in.
  - intros Hin. apply in_map_iff in Hin as (q & Hq & _).
    symmetry in Hq. now apply (output_not_temp w directory out (cwd w) q).
  - intros Hin.
    destruct (Forall2_In_r _ _ _ _ Hrem Hin) as (g & Hg & Hgp).
    apply (output_not_image w directory out g out Hout); [|exact Hgp|reflexivity].
    eapply Permutation_in in Hg; [|exact Hperm].
    now apply filter_In in Hg as [_ Hg].
  - exact (output_without_delete _ _ _ _ _ _ w w' names out Hlist Hne Hrun Hout).
Qed.

Lemma images_to_pdf_delete_images_witness :
  let w' := snd (images_to_pdf example_fonts "/pics" 2 true 10 true false
                   example_world) in
  fs w' !! "/pics/a10.jpg" = None /\
  trace w' =
    [Wrote "/home/temp_page_1.pdf"; Wrote "/home/temp_page_2.pdf";
     Wrote "/pics/combined_output.pdf";
     Removed "/home/temp_page_1.pdf"; Removed "/home/temp_page_2.pdf";
     Removed "/pics/a1.jpg"; Removed "/pics/a2.jpg"; Removed "/pics/a10.jpg"] /\
  exists pages,
    fs w' !! "/pics/combined_output.pdf" = Some (File 100 (PdfData pages)).
Proof.
  intros w'.
  destruct (images_to_pdf_delete_images example_fonts "/pics" 2 10 true false
              example_world w'
              ["a1.jpg"; "a10.jpg"; "a2.jpg"; "notes.txt"]
              ltac:(vm_compute; reflexivity) ltac:(vm_compute; reflexivity)
              "a10.jpg" ltac:(vm_compute; auto))
    as (p & out & pages & temps & removed & Hp & _ & Hgone & Hout & _ & _ & _ &
        Hfs & _).
  vm_compute in Hp. injection Hp as <-.
  vm_compute in Hout. injection Hout as <-.
  split; [exact Hgone|]. split; [vm_compute; reflexivity|].
  exists pages. exact Hfs.
Defined.

(** C9, as stated, fails when the target directory is the working
    directory (the first choice of the menu passes [os.getcwd()]): the
    temporary files are then written inside the target directory. Here
    the run is started in [/pics] for the target [/pics], and
    [temp_page_1.pdf] is written to [/pics], where it is a direct entry of
    the target directory, besides [combined_output.pdf]. *)
Lemma temp_files_in_target_directory :
  let directory := "/pics" in
  let outcome :=
    images_to_pdf example_fonts directory 2 false 0 false false
      example_world_in_pics in
  fst outcome = Ok tt /\
  In (Wrote "/pics/temp_page_1.pdf") (trace (snd outcome)) /\
  resolve example_world_in_pics (temp_pdf_name 1) = Ok "/pics/temp_page_1.pdf" /\
  child_name directory "/pics/temp_page_1.pdf" = Some "temp_page_1.pdf" /\
  "/pics/temp_page_1.pdf" <> "/pics/combined_output.pdf".
Proof.
  vm_compute. repeat split; try reflexivity; auto. discriminate.
Qed.

(** C9 (amended): the temporary files [temp_page_{n}.pdf] are named by
    relative paths, so they are written to and removed from the working
    directory of the process, of which they are direct entries, whatever
    target directory is passed (they are inside the target directory only
    when it is the working directory). Whatever the outcome of the run,
    every file written is such a temporary file or [combined_output.pdf]
    in the target directory, and every file removed is such a temporary
    file or a file that the listing of the target directory names with the
    name of an image. In a run over at least one image that does not
    raise, the temporary files of the pages are written, then
    [combined_output.pdf], then the temporary files are removed (then the
    images, if asked), and no temporary file is left. *)
Theorem temp_files_in_working_directory
    (fonts : Fonts) (directory : string) (images_per_page : Z)
    (delete_images : bool) (margin : Z) (label_images sort_by_time : bool)
    (w w' : World) (outcome : result unit) :
  images_to_pdf fonts directory images_per_page delete_images margin
    label_images sort_by_time w = (outcome, w') ->
  (forall q,
      resolve w (temp_pdf_name q) = Ok (temp_path (cwd w) q) /\
      child_name (cwd w) (temp_path (cwd w) q) = Some (temp_pdf_name q)) /\
  cwd w' = cwd w /\
  (exists events,
      trace w' = trace w ++ events /\
      Forall (run_event directory w) events) /\
  (forall names,
      fst (listdir directory w) = Ok names ->
      List.filter is_image_name names <> [] ->
      outcome = Ok tt ->
      exists out pages removed,
        let temps :=
          map (temp_path (cwd w)) (range 1 (1 + Z.of_nat (length pages))) in
        resolve w (join directory "combined_output.pdf") = Ok out /\
        trace w' =
          trace w ++ map Wrote temps ++ [Wrote out] ++ map Removed temps ++
          map Removed removed /\
        (if delete_images
         then exists sorted,
                Permutation sorted (List.filter is_image_name names) /\
                Forall2 (fun f p => resolve w (join directory f) = Ok p)
                  sorted removed
         else removed = []) /\
        (forall p, In p temps -> fs w' !! p = None) /\
        fs w' !! out = Some (File (clock w) (PdfData pages)) /\
        (forall p,
            (forall q, p <> temp_path (cwd w) q) -> p <> out ->
            ~ In p removed -> fs w' !! p = fs w !! p)).
Proof.
  intros Hrun. split.
  { intros q. split; [apply resolve_temp|apply temp_path_child]. }
  destruct (respects_images_to_pdf fonts directory images_per_page
              delete_images margin label_images sort_by_time w w' outcome
              Hrun) as (Hcwd & Hevents).
  split; [exact Hcwd|]. split; [exact Hevents|].
  intros names Hlist Hne ->.
  destruct (run_ok _ _ _ _ _ _ _ w w' names Hlist Hne Hrun)
    as (sorted & v & w1 & out & removed & _ & Hperm & _ & _ & _ & Hout & Hrem &
        Hfinal & Hlookup).
  cbv zeta in Hfinal. destruct Hfinal as (_ & _ & _ & Htrace & Hfs).
  exists out, (pdf_merger v), removed. cbv zeta.
  repeat match goal with |- _ /\ _ => split end; try assumption.
  - destruct delete_images; [|exact Hrem]. exists sorted. auto.
  - intros p Hp. rewrite Hfs.
    destruct (In_dec String.string_dec p removed) as [Hin|Hnot].
    + now apply delete_all_lookup_in.
    + rewrite delete_all_lookup_notin by exact Hnot.
      now apply delete_all_lookup_in.
  - intros p Htemp Hpout Hnot. rewrite Hfs.
    rewrite delete_all_lookup_notin by exact Hnot.
    rewrite delete_all_lookup_notin.
    + rewrite lookup_insert_ne by congruence.
      now apply put_temps_lookup_other.
    + intros Hin. apply in_map_iff in Hin as (q & Hq & _).
      now apply (Htemp q).
Qed.

Lemma temp_files_in_working_directory_witness :
  let w' := snd (images_to_pdf example_fonts "/pics" 2 false 10 true false
                   example_world) in
  cwd w' = "/home" /\
  trace w' =
    [Wrote "/home/temp_page_1.pdf"; Wrote "/home/temp_page_2.pdf";
     Wrote "/pics/combined_output.pdf";
     Removed "/home/temp_page_1.pdf"; Removed "/home/temp_page_2.pdf"] /\
  fs w' !! "/home/temp_page_1.pdf" = None /\
  fs w' !! "/pics/a1.jpg" = fs example_world !! "/pics/a1.jpg".
Proof.
  intros w'.
  destruct (temp_files_in_working_directory example_fonts "/pics" 2 false 10
              true false example_world w' (Ok tt)
              ltac:(vm_compute; reflexivity))
    as (_ & Hcwd & _ & Hok).
  destruct (Hok ["a1.jpg"; "a10.jpg"; "a2.jpg"; "notes.txt"]
              ltac:(vm_compute; reflexivity) ltac:(vm_compute; discriminate)
              eq_refl)
    as (out & pages & removed & _ & _ & _ & _ & _ & _).
  split; [exact Hcwd|]. vm_compute. repeat split; reflexivity.
Defined.

(* ===================================================================== *)
(** * Further properties of the code                                      *)
(* ===================================================================== *)

(** X1: sorting the names by [natural_sort_key] (line 93) raises exactly
    when the key function raises on one of the names, and then it raises
    [ValueError]: comparing the keys never raises. Otherwise it returns
    the same names, in the order of their keys: no name has a key smaller
    than the key of a name before it, and names already in that order,
    equal keys included, come back as they are. On ASCII names, which all
    have a key, this is the sort of the pipeline. *)
Theorem sort_images_by_name (images : list string) :
  match Latin1.sort_by_name images with
  | Ok sorted =>
      Forall (fun f => exists k, Latin1.natural_sort_key f = Ok k) images /\
      Permutation sorted images /\
      in_order key_lt Latin1.key_of sorted /\
      (in_order key_lt Latin1.key_of images -> sorted = images)
  | Raise e =>
      e = ValueError /\
      Exists (fun f => Latin1.natural_sort_key f = Raise ValueError) images
  end /\
  (Forall (fun f => is_ascii f = true) images ->
   forall (directory : string) (w : World),
     sort_images directory false images w = (Latin1.sort_by_name images, w)).
Proof.
  split.
  - unfold Latin1.sort_by_name.
    pose proof (latin1_keys_of_defined images) as Hkeys.
    destruct (Latin1.keys_of images) as [keys|e]; cbn [Py.bind];
      [|exact Hkeys].
    destruct Hkeys as (-> & Hall).
    destruct (sort_by_key_defined key_lt (key_form true)
                (fun a b => key_lt_defined true a b)
                (map Latin1.key_of images) images) as [sorted Hsort].
    { apply List.Forall_forall. intros k Hk.
      apply in_map_iff in Hk as (s & <- & _). apply latin1_key_of_form. }
    rewrite Hsort. split; [exact Hall|]. split; [|split].
    + eapply sort_by_key_perm; [|exact Hsort]. now rewrite length_map.
    + apply (sort_by_key_in_order key_lt (key_form true) Latin1.key_of images);
        [apply key_lt_asym|apply key_le_trans|apply latin1_key_of_form
        |exact Hsort].
    + intros Hord. rewrite (sort_by_key_fixed _ _ _ Hord) in Hsort.
      now injection Hsort.
  - intros Hascii directory w. unfold sort_images, lift, Latin1.sort_by_name.
    now rewrite (latin1_keys_of_ascii _ Hascii).
Qed.

Lemma sort_images_by_name_witness :
  Latin1.sort_by_name ["a10.jpg"; "A2.jpg"; "a1.jpg"; "a2.jpg"] =
    Ok ["a1.jpg"; "A2.jpg"; "a2.jpg"; "a10.jpg"] /\
  Latin1.sort_by_name ["a1.jpg"; "A2.jpg"; "a2.jpg"] =
    Ok ["a1.jpg"; "A2.jpg"; "a2.jpg"] /\
  sort_images "/pics" false ["a10.jpg"; "a1.jpg"] example_world =
    (Ok ["a1.jpg"; "a10.jpg"], example_world) /\
  Latin1.sort_by_name ["b.png"; String "1" (String superscript_two "2.png")] =
    Raise ValueError.
Proof.
  split; [vm_compute; reflexivity|]. split; [|split].
  - destruct (sort_images_by_name ["a1.jpg"; "A2.jpg"; "a2.jpg"]) as (H & _).
    destruct (Latin1.sort_by_name ["a1.jpg"; "A2.jpg"; "a2.jpg"])
      as [sorted|e] eqn:E; [|vm_compute in E; discriminate].
    destruct H as (_ & _ & _ & Hfixed). f_equal. apply Hfixed.
    intros [|[|[|i]]] [|[|[|j]]] x y Hij Hx Hy; try lia;
      cbn in Hx, Hy; try discriminate;
      injection Hx as <-; injection Hy as <-; vm_compute; reflexivity.
  - destruct (sort_images_by_name ["a10.jpg"; "a1.jpg"]) as (_ & H).
    rewrite H; [vm_compute; reflexivity|].
    repeat constructor.
  - destruct (sort_images_by_name
                ["b.png"; String "1" (String superscript_two "2.png")])
      as (H & _).
    destruct (Latin1.sort_by_name
                ["b.png"; String "1" (String superscript_two "2.png")])
      as [sorted|e]; [|now destruct H as (-> & _)].
    destruct H as (Hall & _). exfalso.
    inversion Hall as [|? ? _ Hall1]; subst.
    inversion Hall1 as [|? ? (k & Hk) _]; subst.
    vm_compute in Hk. discriminate.
Defined.

(** X2: sorting the images by creation time (lines 90-91), when it does
    not raise, leaves the world as it is and returns the same names in
    ascending order of the creation times of their files; names already in
    that order, equal times included, come back as they are. *)
Theorem sort_images_by_time (directory : string) (images sorted : list string)
    (w w' : World) :
  sort_images directory true images w = (Ok sorted, w') ->
  w' = w /\
  Permutation sorted images /\
  (forall (i j : nat) (x y : string),
      (i < j)%nat -> sorted !! i = Some x -> sorted !! j = Some y ->
      ctime_key directory w x <= ctime_key directory w y) /\
  ((forall (i j : nat) (x y : string),
       (i < j)%nat -> images !! i = Some x -> images !! j = Some y ->
       ctime_key directory w x <= ctime_key directory w y) ->
   sorted = images).
Proof.
  intros Hrun.
  pose proof (sort_images_ok _ _ _ _ _ _ Hrun) as (-> & Hperm).
  split; [reflexivity|]. split; [exact Hperm|].
  unfold sort_images in Hrun.
  apply mbind_ok in Hrun as (keys & w1 & Hkeys & Hsort).
  pose proof (map_m_getctime_keys _ _ _ _ _ Hkeys) as ->.
  apply lift_ok in Hsort as (Hsort & _).
  split.
  - intros i j x y Hij Hx Hy.
    pose proof (sort_by_key_in_order int_lt (fun _ => True)
                  (ctime_key directory w) images sorted
                  (fun a b _ _ => int_lt_asym a b)
                  (fun a b c _ _ _ => int_le_trans a b c)
                  (fun _ => I) Hsort i j x y Hij Hx Hy) as H.
    unfold int_lt in H. injection H as H. apply Z.ltb_ge in H. exact H.
  - intros Hord.
    rewrite (sort_by_key_fixed int_lt (ctime_key directory w) images) in Hsort.
    + now injection Hsort.
    + intros i j x y Hij Hx Hy. unfold int_lt. f_equal. apply Z.ltb_ge.
      exact (Hord i j x y Hij Hx Hy).
Qed.

Lemma sort_images_by_time_witness :
  let w := {| fs := <["/pics/a1.jpg" := File 9 OtherData]> (fs example_world);
              cwd := "/home"; clock := 100; stdout := []; trace := [] |} in
  sort_images "/pics" true ["a1.jpg"; "a10.jpg"; "a2.jpg"] w =
    (Ok ["a10.jpg"; "a2.jpg"; "a1.jpg"], w) /\
  ctime_key "/pics" w "a10.jpg" <= ctime_key "/pics" w "a1.jpg".
Proof.
  intros w.
  assert (sort_images "/pics" true ["a1.jpg"; "a10.jpg"; "a2.jpg"] w =
            (Ok ["a10.jpg"; "a2.jpg"; "a1.jpg"], w)) as Hrun
    by (vm_compute; reflexivity).
  split; [exact Hrun|].
  destruct (sort_images_by_time "/pics" ["a1.jpg"; "a10.jpg"; "a2.jpg"]
              ["a10.jpg"; "a2.jpg"; "a1.jpg"] w w Hrun) as (_ & _ & Hord & _).
  exact (Hord 0%nat 2%nat "a10.jpg" "a1.jpg" ltac:(lia) eq_refl eq_refl).
Defined.

(** X3: a run over at least one image that does not raise was given a
    number of images per page between 1 and 842, the height of the page in
    points: with a smaller or larger number the height of a cell,
    [842 // images_per_page], is negative or 0 and the first image cannot
    be composited. *)
Theorem images_to_pdf_per_page_bounds
    (fonts : Fonts) (directory : string) (images_per_page : Z)
    (delete_images : bool) (margin : Z) (label_images sort_by_time : bool)
    (w w' : World) (names : list string) :
  fst (listdir directory w) = Ok names ->
  List.filter is_image_name names <> [] ->
  images_to_pdf fonts directory images_per_page delete_images margin
    label_images sort_by_time w = (Ok tt, w') ->
  1 <= images_per_page <= 842 /\ 1 <= 842 / images_per_page.
Proof.
  intros Hlist Hne Hrun.
  exact (run_per_page_bounds _ _ _ _ _ _ _ _ _ _ Hlist Hne Hrun).
Qed.

Lemma images_to_pdf_per_page_bounds_witness :
  images_to_pdf example_fonts "/pics" 2 false 10 true false example_world =
    (Ok tt,
     snd (images_to_pdf example_fonts "/pics" 2 false 10 true false
            example_world)) /\
  1 <= 2 <= 842 /\ 1 <= 842 / 2.
Proof.
  split; [vm_compute; reflexivity|].
  apply (images_to_pdf_per_page_bounds example_fonts "/pics" 2 false 10 true
           false example_world
           (snd (images_to_pdf example_fonts "/pics" 2 false 10 true false
                   example_world))
           ["a1.jpg"; "a10.jpg"; "a2.jpg"; "notes.txt"]).
  - vm_compute. reflexivity.
  - vm_compute. discriminate.
  - vm_compute. reflexivity.
Defined.

(** X4: in a run over at least one image that does not raise, every page
    of [combined_output.pdf] is a blank page of 595 by 842 points on which
    the cells were pasted one below the other: each cell is 595 wide and
    [h = 842 // images_per_page] high, the [j]-th cell of a page (counted
    from 0) has its top left corner at [(0, j * h)], and it ends within the
    page. *)
Theorem images_to_pdf_page_layout
    (fonts : Fonts) (directory : string) (images_per_page : Z)
    (delete_images : bool) (margin : Z) (label_images sort_by_time : bool)
    (w w' : World) (names : list string) :
  fst (listdir directory w) = Ok names ->
  List.filter is_image_name names <> [] ->
  images_to_pdf fonts directory images_per_page delete_images margin
    label_images sort_by_time w = (Ok tt, w') ->
  exists out pages,
    resolve w (output_pdf_path directory) = Ok out /\
    fs w' !! out = Some (File (clock w) (PdfData pages)) /\
    let h := 842 / images_per_page in
    forall idx page,
      pages !! idx = Some page ->
      PIL.size page = (595, 842) /\
      canvas_of page = New 595 842 /\
      forall j cell pos,
        pasted_layers page !! j = Some (cell, pos) ->
        PIL.size cell = (595, h) /\
        pos = (0, Z.of_nat j * h) /\
        0 <= Z.of_nat j * h /\ Z.of_nat j * h + h <= 842.
Proof.
  intros Hlist Hne Hrun.
  destruct (run_per_page_bounds _ _ _ _ _ _ _ _ _ _ Hlist Hne Hrun)
    as (Hk & Hh).
  destruct (run_ok _ _ _ _ _ _ _ w w' names Hlist Hne Hrun)
    as (sorted & v & w1 & out & removed & _ & _ & _ & Hfold & Hloop & Hout &
        _ & _ & Hlookup).
  cbv zeta in Hloop. destruct Hloop as ((_ & _ & Hcells) & Hcur & Hcount).
  destruct (Hcount (proj1 Hk)) as (Hpages & _).
  apply loop_pages_assembled in Hfold as Hasm.
  change (snd A4_PAGE_SIZE) with 842 in *.
  change (fst A4_PAGE_SIZE) with 595 in *.
  exists out, (pdf_merger v). split; [exact Hout|]. split; [exact Hlookup|].
  intros h idx page Hpage. fold h in Hasm, Hcells, Hh.
  pose proof (proj1 (List.Forall_forall _ _) Hasm page
                (proj1 (list_elem_of_In _ _)
                   (list_elem_of_lookup_2 _ _ _ Hpage))) as Hp.
  destruct (assemble_page_layout (page_cells page) h) as (Hc & Hl & Hs).
  rewrite <- Hp in Hc, Hl, Hs.
  split; [exact Hs|]. split; [exact Hc|].
  intros j cell pos Hj. rewrite Hl in Hj.
  apply stacked_lookup in Hj as (Hcell & ->).
  assert (PIL.size cell = (595, h)) as Hsize.
  { assert (cell ∈ LoopInvariants.cells_so_far v) as Hin.
    { apply list_elem_of_In. unfold LoopInvariants.cells_so_far.
      apply in_or_app. left. apply in_concat. exists (page_cells page). split.
      - apply in_map. apply list_elem_of_In.
        apply (list_elem_of_lookup_2 _ idx). exact Hpage.
      - apply list_elem_of_In. apply (list_elem_of_lookup_2 _ j). exact Hcell. }
    apply list_elem_of_lookup_1 in Hin as (j' & Hj').
    destruct (Hcells j' cell Hj') as (f & p & t & img & _ & _ & _ & Hcomp).
    apply canvas_size in Hcomp. exact Hcomp. }
  split; [exact Hsize|]. split; [f_equal; lia|].
  apply lookup_lt_Some in Hcell.
  specialize (Hpages idx page Hpage).
  assert (Z.of_nat j + 1 <= images_per_page) as Hjk by lia.
  assert (images_per_page * h <= 842) as Hkh.
  { unfold h. apply Z.mul_div_le. lia. }
  nia.
Qed.

Lemma images_to_pdf_page_layout_witness :
  exists out pages,
    resolve example_world (output_pdf_path "/pics") = Ok out /\
    fs (snd (images_to_pdf example_fonts "/pics" 2 false 10 true false
               example_world)) !! out = Some (File 100 (PdfData pages)) /\
    forall idx page,
      pages !! idx = Some page ->
      PIL.size page = (595, 842) /\
      forall j cell pos,
        pasted_layers page !! j = Some (cell, pos) ->
        PIL.size cell = (595, 421) /\ pos = (0, Z.of_nat j * 421).
Proof.
  destruct (images_to_pdf_page_layout example_fonts "/pics" 2 false 10 true
              false example_world
              (snd (images_to_pdf example_fonts "/pics" 2 false 10 true false
                      example_world))
              ["a1.jpg"; "a10.jpg"; "a2.jpg"; "notes.txt"])
    as (out & pages & H1 & H2 & H3).
  - vm_compute. reflexivity.
  - vm_compute. discriminate.
  - vm_compute. reflexivity.
  - exists out, pages. split; [exact H1|]. split; [exact H2|].
    intros idx page Hpage. destruct (H3 idx page Hpage) as (Hs & _ & Hc).
    split; [exact Hs|]. intros j cell pos Hj.
    destruct (Hc j cell pos Hj) as (Ha & Hb & _). split; assumption.
Defined.

(** X5: when a run raises before the loop over the images has ended -
    in the listing, in the sort, in the division, or while an image is
    opened or composited or a page is saved (lines 79-142) - nothing was
    printed, no file was removed (the images are kept even with
    [delete_images = true]) and [combined_output.pdf] was not written: all
    the run did was to write the temporary files [temp_page_1.pdf], ...,
    [temp_page_n.pdf] of the [n] pages it had made, and it leaves them
    behind in the working directory. Every other file is as it was. (A
    run that raises after the loop, from line 146 on, had made all its
    pages; nothing is said of it here.) *)
Theorem images_to_pdf_raise
    (fonts : Fonts) (directory : string) (images_per_page : Z)
    (delete_images : bool) (margin : Z) (label_images sort_by_time : bool)
    (w w' : World) (e : exn) :
  images_to_pdf fonts directory images_per_page delete_images margin
    label_images sort_by_time w = (Raise e, w') ->
  loop_ended fonts directory images_per_page margin label_images
    sort_by_time w \/
  exists pages,
    stdout w' = stdout w /\
    trace w' =
      trace w ++
      map (fun q => Wrote (temp_path (cwd w) q))
        (range 1 (1 + Z.of_nat (length pages))) /\
    fs w' = put_temps (cwd w) (clock w) 1 pages (fs w) /\
    (forall q, 1 <= q <= Z.of_nat (length pages) ->
       exists t content,
         fs w' !! temp_path (cwd w) q = Some (File t content)) /\
    (forall p, (forall q, p <> temp_path (cwd w) q) -> fs w' !! p = fs w !! p).
Proof.
  intros Hrun.
  apply run_raise_cases in Hrun
    as [Hended|(pages & _ & _ & Hout & Hfs & Htrace)]; [now left|right].
  exists pages. split; [exact Hout|]. split; [exact Htrace|].
  split; [exact Hfs|]. split.
  - intros q Hq. rewrite Hfs. apply put_temps_lookup_temp. lia.
  - intros p Hp. rewrite Hfs. now apply put_temps_lookup_other.
Qed.

Lemma images_to_pdf_raise_witness :
  fst (images_to_pdf example_fonts "/pics" 1 true 0 false false
         example_world_corrupt) = Raise UnidentifiedImageError /\
  ~ loop_ended example_fonts "/pics" 1 0 false false example_world_corrupt /\
  trace (snd (images_to_pdf example_fonts "/pics" 1 true 0 false false
                example_world_corrupt)) =
    [Wrote "/home/temp_page_1.pdf"; Wrote "/home/temp_page_2.pdf";
     Wrote "/home/temp_page_3.pdf"] /\
  fs (snd (images_to_pdf example_fonts "/pics" 1 true 0 false false
             example_world_corrupt)) !! "/pics/a1.jpg" =
    Some example_picture.
Proof.
  assert (~ loop_ended example_fonts "/pics" 1 0 false false
            example_world_corrupt) as Hnot.
  { intros (names & sorted & v & w1 & Hlist & Hsort & _ & Hloop).
    vm_compute in Hlist. injection Hlist as <-.
    vm_compute in Hsort. injection Hsort as <-.
    vm_compute in Hloop. discriminate. }
  split; [vm_compute; reflexivity|]. split; [exact Hnot|].
  split; [vm_compute; reflexivity|].
  destruct (images_to_pdf_raise example_fonts "/pics" 1 true 0 false false
              example_world_corrupt
              (snd (images_to_pdf example_fonts "/pics" 1 true 0 false false
                      example_world_corrupt))
              UnidentifiedImageError)
    as [Hended|(pages & _ & _ & _ & _ & Hkeep)].
  - vm_compute. reflexivity.
  - contradiction.
  - rewrite Hkeep; [vm_compute; reflexivity|].
    intros q. now apply image_path_not_temp.
Defined.

(** X6: whatever the outcome of a run, a file that is neither a temporary
    file [temp_page_{n}.pdf] of the working directory, nor the output file,
    nor (when the images are to be deleted) a file that the listing of the
    target directory names with the name of an image is as it was before:
    so is every file outside the target directory, also one with the name
    of an image, unless it is one of those temporary files. In a run with
    [delete_images = false] every file with the name of an image is as it
    was before, whether the run ends or raises. *)
Theorem images_to_pdf_keeps_other_files
    (fonts : Fonts) (directory : string) (images_per_page : Z)
    (delete_images : bool) (margin : Z) (label_images sort_by_time : bool)
    (w w' : World) (r : result unit) :
  images_to_pdf fonts directory images_per_page delete_images margin
    label_images sort_by_time w = (r, w') ->
  (forall p,
     (forall q, p <> temp_path (cwd w) q) ->
     resolve w (output_pdf_path directory) <> Ok p ->
     (delete_images = true ->
      forall names f,
        fst (listdir directory w) = Ok names -> In f names ->
        is_image_name f = true ->
        resolve w (join directory f) <> Ok p) ->
     fs w' !! p = fs w !! p) /\
  (delete_images = false ->
   forall p, is_image_name p = true -> fs w' !! p = fs w !! p).
Proof.
  intros Hrun. split.
  - intros p. exact (run_keeps_files _ _ _ _ _ _ _ _ _ _ Hrun p).
  - intros -> p Himg.
    apply (run_keeps_files _ _ _ _ _ _ _ _ _ _ Hrun p).
    + intros q. now apply image_path_not_temp.
    + now apply image_path_not_output.
    + discriminate.
Qed.

Lemma images_to_pdf_keeps_other_files_witness :
  fs (snd (images_to_pdf example_fonts "/pics" 2 false 10 true false
             example_world)) !! "/pics/a1.jpg" = Some example_picture /\
  fs (snd (images_to_pdf example_fonts "/pics" 2 true 10 true false
             example_world)) !! "/pics/notes.txt" = Some (File 1 OtherData).
Proof.
  split.
  - destruct (images_to_pdf_keeps_other_files example_fonts "/pics" 2 false 10
                true false example_world
                (snd (images_to_pdf example_fonts "/pics" 2 false 10 true false
                        example_world))
                (Ok tt)) as (_ & Hkeep).
    + vm_compute. reflexivity.
    + rewrite (Hkeep eq_refl "/pics/a1.jpg"); vm_compute; reflexivity.
  - destruct (images_to_pdf_keeps_other_files example_fonts "/pics" 2 true 10
                true false example_world
                (snd (images_to_pdf example_fonts "/pics" 2 true 10 true false
                        example_world))
                (Ok tt)) as (Hframe & _).
    + vm_compute. reflexivity.
    + rewrite Hframe; [vm_compute; reflexivity| | |].
      * intros q E.
        destruct (temp_path_suffix (cwd example_world) q) as (d & _ & Hd).
        rewrite <- E in Hd.
        assert (chars ".pdf" `suffix_of` chars "/pics/notes.txt") as Hpdf
          by (etransitivity; [|exact Hd]; now exists [d]).
        revert Hpdf. apply (bool_decide_eq_false_1 _). vm_compute. reflexivity.
      * vm_compute. discriminate.
      * intros _ names f Hnames Hf Himg Hres.
        vm_compute in Hnames. injection Hnames as <-.
        destruct Hf as [<-|[<-|[<-|[<-|[]]]]];
          vm_compute in Himg, Hres; discriminate.
Defined.

(** X8: what a run prints. A run that raises before the loop over the
    images has ended (lines 79-142) prints nothing. A run that does not
    raise prints one line when the directory holds no image, and otherwise
    the line that names the output file, by the path that
    [os.path.join(directory, "combined_output.pdf")] gives, followed by
    the line about the deleted images when they were to be deleted. *)
Theorem images_to_pdf_messages
    (fonts : Fonts) (directory : string) (images_per_page : Z)
    (delete_images : bool) (margin : Z) (label_images sort_by_time : bool)
    (w w' : World) (r : result unit) :
  images_to_pdf fonts directory images_per_page delete_images margin
    label_images sort_by_time w = (r, w') ->
  match r with
  | Raise _ =>
      loop_ended fonts directory images_per_page margin label_images
        sort_by_time w \/
      stdout w' = stdout w
  | Ok _ =>
      exists names,
        fst (listdir directory w) = Ok names /\
        stdout w' =
          stdout w ++
          match List.filter is_image_name names with
          | [] => ["No images found in the directory."]
          | _ :: _ =>
              ["PDF created successfully at: " +:+
               join directory "combined_output.pdf"] ++
              (if delete_images
               then ["Original images have been deleted."] else [])
          end
  end.
Proof.
  intros Hrun. destruct r as [[]|e].
  - destruct (listdir directory w) as [[names|e] w1] eqn:Hlist.
    2:{ unfold images_to_pdf, mbind in Hrun. rewrite Hlist in Hrun.
        discriminate. }
    assert (fst (listdir directory w) = Ok names) as Hnames
      by now rewrite Hlist.
    exists names. split; [reflexivity|].
    destruct (List.filter is_image_name names) as [|f0 rest] eqn:E.
    + rewrite (images_to_pdf_unfold _ _ _ _ _ _ _ w names Hnames), E in Hrun.
      unfold print in Hrun. now injection Hrun as <-.
    + assert (List.filter is_image_name names <> []) as Hne
        by (rewrite E; discriminate).
      destruct (run_ok _ _ _ _ _ _ _ w w' names Hnames Hne Hrun)
        as (sorted & v & w1' & out & removed & _ & _ & _ & _ & _ & _ & _ &
            Hfinal & _).
      cbv zeta in Hfinal. destruct Hfinal as (_ & _ & Hout & _).
      exact Hout.
  - apply run_raise_cases in Hrun as [Hended|(pages & _ & _ & Hout & _)];
      [now left|now right].
Qed.

Lemma images_to_pdf_messages_witness :
  stdout (snd (images_to_pdf example_fonts "/pics" 2 true 10 true false
                 example_world)) =
    ["PDF created successfully at: /pics/combined_output.pdf";
     "Original images have been deleted."] /\
  stdout (snd (images_to_pdf example_fonts "/pics" 1 true 0 false false
                 example_world_corrupt)) = [].
Proof.
  split.
  - destruct (images_to_pdf_messages example_fonts "/pics" 2 true 10 true false
                example_world
                (snd (images_to_pdf example_fonts "/pics" 2 true 10 true false
                        example_world))
                (Ok tt)) as (names & Hnames & Hout).
    + vm_compute. reflexivity.
    + vm_compute in Hnames. injection Hnames as <-. rewrite Hout.
      vm_compute. reflexivity.
  - destruct (images_to_pdf_messages example_fonts "/pics" 1 true 0 false false
                example_world_corrupt
                (snd (images_to_pdf example_fonts "/pics" 1 true 0 false false
                        example_world_corrupt))
                (Raise UnidentifiedImageError)) as [Hended|Hout].
    + vm_compute. reflexivity.
    + exfalso. destruct Hended
        as (names & sorted & v & w1 & Hlist & Hsort & _ & Hloop).
      vm_compute in Hlist. injection Hlist as <-.
      vm_compute in Hsort. injection Hsort as <-.
      vm_compute in Hloop. discriminate.
    + exact Hout.
Defined.

(** X9: where [resize_and_align_image] puts things. The canvas it returns
    is a blank canvas of the size of the cell with the label, when there
    is one that is not empty, drawn at [(margin, margin)], and one image
    pasted on it: the source resized to the computed size. That image is
    centred between the left and the right edge (the gaps differ by at
    most one pixel) and its top is at [margin + label_height], below the
    label. When the width bounds the image its left edge is at [margin];
    when the height bounds it its bottom edge is at [H - margin]. *)
Theorem resize_and_align_image_placement
    (fonts : Fonts) (image : Image) (W H margin : Z) (label : option string)
    (canvas : Image) :
  resize_and_align_image fonts image (W, H) margin label = Ok canvas ->
  exists new_width new_height font_size resized,
    new_size fonts image (W, H) margin label = Ok (new_width, new_height) /\
    font_size_of (W, H) = Ok font_size /\
    PIL.resize image (new_width, new_height) = Ok resized /\
    PIL.size resized = (new_width, new_height) /\
    let label_height := label_height_of fonts font_size label in
    let x := (W - new_width) / 2 in
    let y := margin + label_height in
    pasted_layers canvas = [(resized, (x, y))] /\
    canvas_of canvas =
      match label with
      | Some (String c text) =>
          Text (New W H) margin margin (String c text) font_size
      | _ => New W H
      end /\
    (W - new_width - x = x \/ W - new_width - x = x + 1) /\
    ((new_width = W - 2 * margin /\ x = margin) \/
     (new_height = H - 2 * margin - label_height /\
      y + new_height = H - margin)).
Proof.
  intros Hrun. pose proof Hrun as H0.
  unfold resize_and_align_image in H0.
  step_result H0. destruct a as [nw nh].
  step_result H0. step_result H0. step_result H0.
  injection H0 as <-.
  exists nw, nh, a, a0.
  split; [reflexivity|]. split; [reflexivity|]. split; [exact E1|].
  assert (PIL.size a0 = (nw, nh)) as Hsize.
  { unfold PIL.resize in E1. cbn [fst snd] in E1.
    destruct ((nw =? width image) && (nh =? height image)) eqn:Hsame.
    - injection E1 as <-. apply andb_true_iff in Hsame as [A B].
      apply Z.eqb_eq in A. apply Z.eqb_eq in B. unfold PIL.size. congruence.
    - destruct ((nw <? 1) || (nh <? 1)); [discriminate|].
      injection E1 as <-. reflexivity. }
  split; [exact Hsize|].
  unfold PIL.new in E2. cbn [fst snd] in E2.
  destruct ((W <? 0) || (H <? 0)); [discriminate|]. injection E2 as <-.
  cbv zeta. cbn [fst snd].
  assert ((if truthy label then label_height_of fonts a label else 0) =
          label_height_of fonts a label) as Hlh.
  { destruct label as [[|c text]|]; reflexivity. }
  rewrite Hlh.
  split; [destruct label as [[|c text]|]; reflexivity|].
  split; [destruct label as [[|c text]|]; reflexivity|].
  split.
  - pose proof (Z.div_mod (W - nw) 2 ltac:(lia)) as Hdm.
    pose proof (Z.mod_pos_bound (W - nw) 2 ltac:(lia)) as Hb. lia.
  - apply new_size_cases in E
      as (r1 & r2 & fs & _ & _ & Hfs & [(_ & Hw & _)|(_ & Hh & _)]);
      cbn [fst snd] in *.
    + left. split; [exact Hw|]. subst nw.
      replace (W - (W - 2 * margin)) with (margin * 2) by lia.
      apply Z.div_mul. lia.
    + right. rewrite E0 in Hfs. injection Hfs as <-. split; [exact Hh|]. lia.
Qed.

Lemma resize_and_align_image_placement_witness :
  exists canvas resized,
    resize_and_align_image example_fonts (Decoded 100 200 "px") (595, 421) 10
      (Some "Question 1") = Ok canvas /\
    pasted_layers canvas = [(resized, (200, 24))] /\
    PIL.size resized = (194, 387) /\
    canvas_of canvas = Text (New 595 421) 10 10 "Question 1" 8.
Proof.
  destruct (resize_and_align_image_placement example_fonts
              (Decoded 100 200 "px") 595 421 10 (Some "Question 1")
              (Pasted (Text (New 595 421) 10 10 "Question 1" 8)
                 (Resized (Decoded 100 200 "px") 194 387) 200 24))
    as (nw & nh & fsz & resized & Hsize & Hfont & _ & Hres & Hlayers & Hcanvas
        & _).
  - vm_compute. reflexivity.
  - vm_compute in Hsize. injection Hsize as <- <-.
    vm_compute in Hfont. injection Hfont as <-.
    eexists. exists resized. split; [vm_compute; reflexivity|].
    split; [exact Hlayers|]. split; [exact Hres|exact Hcanvas].
Defined.



(** X11: the second entry of the menu, given a directory that is one,
    calls [images_to_pdf] with a number of images per page that is at
    least 1 and a margin that is not negative, whatever the user typed:
    a number that is accepted is passed on as it is and nothing is printed
    for it; a text that [int] refuses, or a number below the least value,
    is replaced by the default, 1 or 0, and exactly one line is printed
    for it, which quotes the message of the [ValueError]. The line for the
    images per page comes before the line for the margin. Reading the
    answers raises nothing and changes no file. *)
Theorem main_checks_numbers
    (fonts : Fonts) (py_int : string -> Z + string) (a : Answers) (w : World) :
  choice a = "Specify directory and options" ->
  fst (isdir (directory_answer a) w) = Ok true ->
  exists k m lines,
    main fonts py_int a w =
      images_to_pdf fonts (directory_answer a) k (delete_answer a) m
        (label_answer a) (sort_answer a) (printed lines w) /\
    1 <= k /\ 0 <= m /\
    k = match py_int (images_per_page_answer a) with
        | inl n => if n <? 1 then 1 else n
        | inr _ => 1
        end /\
    m = match py_int (margin_answer a) with
        | inl n => if n <? 0 then 0 else n
        | inr _ => 0
        end /\
    lines =
      match py_int (images_per_page_answer a) with
      | inl n =>
          if n <? 1
          then ["Invalid input for images per page: " +:+
                "Number of images per page must be at least 1." +:+
                ". Using default (1)."]
          else []
      | inr message =>
          ["Invalid input for images per page: " +:+ message +:+
           ". Using default (1)."]
      end ++
      match py_int (margin_answer a) with
      | inl n =>
          if n <? 0
          then ["Invalid input for margin size: " +:+
                "Margin size cannot be negative." +:+
                ". Using default (0)."]
          else []
      | inr message =>
          ["Invalid input for margin size: " +:+ message +:+
           ". Using default (0)."]
      end.
Proof.
  intros Hchoice Hdir. apply main_options; [exact Hchoice|].
  destruct (isdir_ok (directory_answer a) w) as (b & Hb).
  rewrite Hb in Hdir |- *. cbn [fst] in Hdir. now injection Hdir as ->.
Qed.

Lemma main_checks_numbers_witness :
  let a := {| choice := "Specify directory and options";
              directory_answer := "/pics";
              images_per_page_answer := "0";
              delete_answer := false;
              margin_answer := "ten";
              label_answer := true;
              sort_answer := false |} in
  main example_fonts example_int a example_world =
    images_to_pdf example_fonts "/pics" 1 false 0 true false
      (printed
         ["Invalid input for images per page: Number of images per page must be at least 1.. Using default (1).";
          "Invalid input for margin size: invalid literal for int() with base 10: 'ten'. Using default (0)."]
         example_world).
Proof.
  intros a.
  destruct (main_checks_numbers example_fonts example_int a example_world)
    as (k & m & lines & Hmain & _ & _ & Hk & Hm & Hlines).
  - reflexivity.
  - vm_compute. reflexivity.
  - vm_compute in Hk, Hm, Hlines. subst k m lines. exact Hmain.
Defined.

(** X12: unless the user chose the second entry of the menu and answered
    yes to the question about deleting the images, the program leaves
    every file with the name of an image as it was, whatever the answers
    and whether the run ends or raises. *)
Theorem main_keeps_images
    (fonts : Fonts) (py_int : string -> Z + string) (a : Answers)
    (w w' : World) (r : result unit) :
  main fonts py_int a w = (r, w') ->
  choice a <> "Specify directory and options" \/ delete_answer a = false ->
  forall p, is_image_name p = true -> fs w' !! p = fs w !! p.
Proof.
  intros Hmain Hkeep p Himg. unfold main in Hmain.
  destruct (String.eqb (choice a)
              "Convert images in the current directory to PDF").
  - unfold mbind, getcwd in Hmain.
    apply (run_keeps_files _ _ _ _ _ _ _ _ _ _ Hmain p).
    + intros q. now apply image_path_not_temp.
    + now apply image_path_not_output.
    + discriminate.
  - destruct (String.eqb (choice a) "Specify directory and options") eqn:E.
    + apply String.eqb_eq in E.
      destruct Hkeep as [Hne|Hdel]; [contradiction|].
      cbv zeta in Hmain. unfold mbind at 1 in Hmain.
      destruct (isdir_ok (directory_answer a) w) as ([|] & Hb);
        rewrite Hb in Hmain; cbn [negb] in Hmain.
      * destruct (main_options fonts py_int a w E Hb)
          as (k & m & lines & Hrun & _).
        assert (images_to_pdf fonts (directory_answer a) k (delete_answer a) m
                  (label_answer a) (sort_answer a) (printed lines w) = (r, w'))
          as Hrun'.
        { rewrite <- Hrun. unfold main.
          replace (String.eqb (choice a)
                     "Convert images in the current directory to PDF")
            with false by (rewrite E; reflexivity).
          replace (String.eqb (choice a) "Specify directory and options")
            with true by (rewrite E; reflexivity).
          cbv zeta. unfold mbind at 1. rewrite Hb. exact Hmain. }
        change (fs w) with (fs (printed lines w)).
        apply (run_keeps_files _ _ _ _ _ _ _ _ _ _ Hrun' p).
        -- intros q. now apply image_path_not_temp.
        -- now apply image_path_not_output.
        -- rewrite Hdel. discriminate.
      * unfold print in Hmain. now injection Hmain as _ <-.
    + unfold print in Hmain. now injection Hmain as _ <-.
Qed.

Lemma main_keeps_images_witness :
  let a := {| choice := "Convert images in the current directory to PDF";
              directory_answer := EmptyString;
              images_per_page_answer := EmptyString;
              delete_answer := true;
              margin_answer := EmptyString;
              label_answer := false;
              sort_answer := false |} in
  fs (snd (main example_fonts example_int a example_world_in_pics))
    !! "/pics/a1.jpg" = Some example_picture.
Proof.
  intros a.
  rewrite (main_keeps_images example_fonts example_int a example_world_in_pics
             (snd (main example_fonts example_int a example_world_in_pics))
             (fst (main example_fonts example_int a example_world_in_pics))).
  - vm_compute. reflexivity.
  - now destruct (main example_fonts example_int a example_world_in_pics).
  - left. discriminate.
  - vm_compute. reflexivity.
Defined.



(** X14: the font size of the label, [int(page_size[1] * 0.02)], is the
    height of the cell divided by 50 and rounded down, for every height up
    to that of the page; the product with the float 0.02 never falls below
    a whole number it should reach. For the cells of a run it is
    [842 // images_per_page // 50], which is 0 from 17 images per page on. *)
Theorem font_size_of_cell (W h : Z) :
  0 <= h <= 842 ->
  font_size_of (W, h) = Ok (h / 50) /\
  (forall images_per_page,
     1 <= images_per_page -> h = 842 / images_per_page ->
     font_size_of (W, h) = Ok (842 / images_per_page / 50) /\
     (17 <= images_per_page -> font_size_of (W, h) = Ok 0)).
Proof.
  intros Hh.
  assert (font_size_of (W, h) = Ok (h / 50)) as Hfont.
  { change (font_size_of (W, h)) with (font_size_of (0, h)).
    pose proof font_size_of_heights as Hall.
    rewrite forallb_forall in Hall.
    specialize (Hall h (proj2 (range_In 0 843 h) ltac:(lia))).
    destruct (font_size_of (0, h)) as [n|e]; [|discriminate].
    apply Z.eqb_eq in Hall. now subst n. }
  split; [exact Hfont|].
  intros k Hk ->. split; [exact Hfont|].
  intros Hk17. rewrite Hfont. f_equal. apply Z.div_small.
  split; [apply Z.div_pos; lia|].
  assert (842 / k <= 842 / 17) by (apply Z.div_le_compat_l; lia).
  change (842 / 17) with 49 in *. lia.
Qed.

Lemma font_size_of_cell_witness :
  font_size_of (595, 421) = Ok 8 /\ font_size_of (595, 42) = Ok 0.
Proof.
  split.
  - destruct (font_size_of_cell 595 421) as (H & _); [lia|exact H].
  - destruct (font_size_of_cell 595 42) as (_ & H); [lia|].
    destruct (H 20) as (_ & H0); [lia|reflexivity|]. apply H0. lia.
Defined.

(** X15: a name that ends in [.pdf], in any letter case, is never taken
    for an image. So neither [combined_output.pdf] nor a temporary file
    [temp_page_{n}.pdf] that an earlier run left in the directory is ever
    composited or deleted as an image. *)
Theorem pdf_is_not_an_image (f : string) :
  (endswith (lower f) ".pdf" = true -> is_image_name f = false) /\
  is_image_name "combined_output.pdf" = false /\
  (forall n, is_image_name (temp_pdf_name n) = false).
Proof.
  assert (forall g, chars ".pdf" `suffix_of` chars (lower g) ->
                    is_image_name g = false) as Hpdf.
  { intros g Hsuf. destruct (is_image_name g) eqn:E; [exfalso|reflexivity].
    assert (is_image_name (lower g) = true) as E'.
    { unfold is_image_name in *. now rewrite lower_idem. }
    exact (image_name_not_pdf _ E' Hsuf). }
  split; [|split].
  - intros H. apply Hpdf. now apply endswith_suffix.
  - reflexivity.
  - intros n. apply Hpdf. unfold temp_pdf_name.
    rewrite chars_lower, !chars_app, !map_app.
    apply suffix_app_r, suffix_app_r. reflexivity.
Qed.

Lemma pdf_is_not_an_image_witness :
  is_image_name "Scan.PDF" = false.
Proof.
  destruct (pdf_is_not_an_image "Scan.PDF") as (H & _).
  apply H. vm_compute. reflexivity.
Defined.

(** X16: in a run with [label_images = false] that does not raise, the
    cells on the pages of [combined_output.pdf], read page after page, are
    the images in their sorted order, each composited without a label: no
    text is drawn on any cell. *)
Theorem images_to_pdf_no_labels
    (fonts : Fonts) (directory : string) (images_per_page : Z)
    (delete_images : bool) (margin : Z) (sort_by_time : bool)
    (w w' : World) (names : list string) :
  fst (listdir directory w) = Ok names ->
  List.filter is_image_name names <> [] ->
  images_to_pdf fonts directory images_per_page delete_images margin false
    sort_by_time w = (Ok tt, w') ->
  exists sorted out pages,
    sort_images directory sort_by_time (List.filter is_image_name names) w
      = (Ok sorted, w) /\
    resolve w (output_pdf_path directory) = Ok out /\
    fs w' !! out = Some (File (clock w) (PdfData pages)) /\
    let cells := concat (map page_cells pages) in
    length cells = length sorted /\
    forall (i : nat) (cell : Image),
      cells !! i = Some cell ->
      cell_label cell = None /\
      exists f p t img,
        sorted !! i = Some f /\
        resolve w (join directory f) = Ok p /\
        fs w !! p = Some (File t (ImageData img)) /\
        resize_and_align_image fonts (ConvertedRGB img)
          (595, 842 / images_per_page) margin None = Ok cell.
Proof.
  intros Hlist Hne Hrun.
  destruct (run_ok _ _ _ _ _ _ _ w w' names Hlist Hne Hrun)
    as (sorted & v & w1 & out & removed & Hsort & _ & _ & _ & Hloop & Hout & _ &
        _ & Hlookup).
  cbv zeta in Hloop. destruct Hloop as ((_ & Hlen & Hcells) & Hflushed & _).
  unfold LoopInvariants.cells_so_far in Hlen, Hcells.
  rewrite Hflushed, app_nil_r in Hlen, Hcells.
  exists sorted, out, (pdf_merger v). cbv zeta.
  repeat match goal with |- _ /\ _ => split end; try assumption.
  intros i cell Hcell.
  destruct (Hcells i cell Hcell) as (f & p & t & img & Hf & Hp & Himg & Hres).
  unfold LoopInvariants.label_at in Hres. split.
  - eapply cell_label_none. exact Hres.
  - exists f, p, t, img. auto.
Qed.

Lemma images_to_pdf_no_labels_witness :
  exists out pages,
    resolve example_world (output_pdf_path "/pics") = Ok out /\
    fs (snd (images_to_pdf example_fonts "/pics" 2 false 10 false false
               example_world)) !! out = Some (File 100 (PdfData pages)) /\
    forall i cell,
      concat (map page_cells pages) !! i = Some cell -> cell_label cell = None.
Proof.
  destruct (images_to_pdf_no_labels example_fonts "/pics" 2 false 10 false
              example_world
              (snd (images_to_pdf example_fonts "/pics" 2 false 10 false false
                      example_world))
              ["a1.jpg"; "a10.jpg"; "a2.jpg"; "notes.txt"])
    as (sorted & out & pages & _ & Hout & Hfs & _ & Hcells).
  - vm_compute. reflexivity.
  - vm_compute. discriminate.
  - vm_compute. reflexivity.
  - exists out, pages. split; [exact Hout|]. split; [exact Hfs|].
    intros i cell Hcell. now destruct (Hcells i cell Hcell).
Defined.
